(** * Pascal SEO: ranking import and chart aggregation

    A shallow embedding of the ranking pipeline of the repository: the
    Pascal CSV parser ([pascalCsvParser]), the import into the store
    ([pascalSupabase]) and the aggregation and axis scale of the rank
    chart ([RankChart]), with the properties proved of them. *)

From Stdlib Require Import ZArith Lia ZifyBool List Bool String Ascii.
From stdpp Require Import gmap strings list pretty.
Local Open Scope Z_scope.

(** * ECMAScript time values

    A [Date] object wraps a time value: the number of milliseconds since
    1970-01-01T00:00:00Z.  The calendar functions below follow the
    ECMAScript abstract operations of the same names, on the proleptic
    Gregorian calendar. *)

Definition msPerDay : Z := 86400000.
Definition msPerMinute : Z := 60000.

Definition Day (t : Z) : Z := t / msPerDay.
Definition TimeWithinDay (t : Z) : Z := t mod msPerDay.

(** Day number of a civil date ([m] in 1..12), counted from 1970-01-01. *)
Definition days_from_civil (y m d : Z) : Z :=
  let y' := if m <=? 2 then y - 1 else y in
  let era := y' / 400 in
  let yoe := y' - era * 400 in
  let mp := if m >? 2 then m - 3 else m + 9 in
  let doy := (153 * mp + 2) / 5 + d - 1 in
  let doe := yoe * 365 + yoe / 4 - yoe / 100 + doy in
  era * 146097 + doe - 719468.

(** Civil date (year, month in 1..12, day of month) of a day number. *)
Definition civil_from_days (z : Z) : Z * Z * Z :=
  let z' := z + 719468 in
  let era := z' / 146097 in
  let doe := z' - era * 146097 in
  let yoe := (doe - doe / 1460 + doe / 36524 - doe / 146096) / 365 in
  let doy := doe - (365 * yoe + yoe / 4 - yoe / 100) in
  let mp := (5 * doy + 2) / 153 in
  let d := doy - (153 * mp + 2) / 5 + 1 in
  let m := if mp <? 10 then mp + 3 else mp - 9 in
  let y := yoe + era * 400 in
  ((if m <=? 2 then y + 1 else y), m, d).

Definition YearFromTime (t : Z) : Z := fst (fst (civil_from_days (Day t))).
(** Months are numbered from 0 (January) to 11. *)
Definition MonthFromTime (t : Z) : Z := snd (fst (civil_from_days (Day t))) - 1.
Definition DateFromTime (t : Z) : Z := snd (civil_from_days (Day t)).
(** 0 is Sunday; 1970-01-01 was a Thursday. *)
Definition WeekDay (t : Z) : Z := (Day t + 4) mod 7.

(** [MakeDay year month date]: [month] is zero-based and may lie outside
    0..11, [date] may lie outside the month; both overflow into the
    neighbouring months and years. *)
Definition MakeDay (year month date : Z) : Z :=
  let ym := year + month / 12 in
  let mn := month mod 12 in
  days_from_civil ym (mn + 1) 1 + date - 1.

Definition MakeDate (day time : Z) : Z := day * msPerDay + time.

(** * The [Date] object

    A date is its time value.  [tza] is the offset of local time from UTC
    in milliseconds (ECMAScript's LocalTZA), taken constant: a zone without
    daylight-saving transitions, such as UTC ([0]) or Asia/Tokyo
    ([32400000]).  Zones whose offset changes are the subject of [Zone]
    and [Zoned] further down, where the same operations take the offset
    from the time value.  Time values stay far inside the range where
    TimeClip would produce an invalid date. *)

Definition LocalTime (tza t : Z) : Z := t + tza.
Definition UTC (tza t : Z) : Z := t - tza.

Definition getTime (t : Z) : Z := t.
Definition getDay (tza t : Z) : Z := WeekDay (LocalTime tza t).
Definition getDate (tza t : Z) : Z := DateFromTime (LocalTime tza t).
Definition getMonth (tza t : Z) : Z := MonthFromTime (LocalTime tza t).
Definition getFullYear (tza t : Z) : Z := YearFromTime (LocalTime tza t).

Definition setDate (tza t dt : Z) : Z :=
  let t' := LocalTime tza t in
  UTC tza (MakeDate (MakeDay (YearFromTime t') (MonthFromTime t') dt)
                    (TimeWithinDay t')).

Definition setMonth (tza t month : Z) : Z :=
  let t' := LocalTime tza t in
  UTC tza (MakeDate (MakeDay (YearFromTime t') month (DateFromTime t'))
                    (TimeWithinDay t')).

(** [String.prototype.padStart] with a one-character filler. *)
Definition padStart (n : nat) (c : ascii) (s : string) : string :=
  String.app (string_of_list_ascii (repeat c (n - String.length s)%nat)) s.

(** The year of [Date.prototype.toISOString]: four digits for the years
    0..9999, otherwise a sign and six digits. *)
Definition isoYear (y : Z) : string :=
  if (0 <=? y) && (y <=? 9999) then padStart 4 "0" (pretty y)
  else String.app (if y <? 0 then "-" else "+") (padStart 6 "0" (pretty (Z.abs y))).

(** [d.toISOString().split('T')[0]] *)
Definition toISODate (t : Z) : string :=
  String.app (isoYear (YearFromTime t))
    (String.app "-" (String.app (padStart 2 "0" (pretty (MonthFromTime t + 1)))
    (String.app "-" (padStart 2 "0" (pretty (DateFromTime t)))))).

(** [`${d.getFullYear()}-${String(d.getMonth() + 1).padStart(2, '0')}-01`] *)
Definition monthKey (tza t : Z) : string :=
  String.app (pretty (getFullYear tza t))
    (String.app "-" (String.app (padStart 2 "0" (pretty (getMonth tza t + 1))) "-01")).

Definition digit_val (c : ascii) : option Z :=
  let n := Z.of_N (N_of_ascii c) in
  if (48 <=? n) && (n <=? 57) then Some (n - 48) else None.

Definition isLeapYear (y : Z) : bool :=
  (y mod 4 =? 0) && (negb (y mod 100 =? 0) || (y mod 400 =? 0)).

Definition daysInMonth (y m : Z) : Z :=
  if m =? 2 then (if isLeapYear y then 29 else 28)
  else if (m =? 4) || (m =? 6) || (m =? 9) || (m =? 11) then 30 else 31.

Definition num2 (a b : ascii) : option Z :=
  match digit_val a, digit_val b with
  | Some x, Some y => Some (10 * x + y)
  | _, _ => None
  end.

(** The fields of a date-only string [YYYY-MM-DD] that names a calendar
    date. *)
Definition parseDateOnly (s : string) : option (Z * Z * Z) :=
  match s with
  | String y1 (String y2 (String y3 (String y4 (String s1
      (String m1 (String m2 (String s2 (String d1 (String d2 EmptyString))))))))) =>
      if Ascii.eqb s1 "-" && Ascii.eqb s2 "-" then
        match num2 y1 y2, num2 y3 y4, num2 m1 m2, num2 d1 d2 with
        | Some yh, Some yl, Some m, Some d =>
            let y := 100 * yh + yl in
            if (1 <=? m) && (m <=? 12) && (1 <=? d) && (d <=? daysInMonth y m)
            then Some (y, m, d)
            else None
        | _, _, _, _ => None
        end
      else None
  | _ => None
  end.

(** [new Date(s)] for a date-only string: midnight UTC of that date.
    Every other string is outside the model ([None]); the date strings of
    this program are columns of SQL type DATE and values of date inputs,
    which have this form. *)
Definition newDate (s : string) : option Z :=
  match parseDateOnly s with
  | Some (y, m, d) => Some (MakeDate (MakeDay y (m - 1) d) 0)
  | None => None
  end.

(** * The chart's aggregation (RankChart) *)

Inductive TimeAggregation := daily | weekly | monthly.

Record RankingData := mkRankingData { date : string; rank : Z }.

Record AggregatedData := mkAggregatedData {
  agg_date : string;
  agg_rank : option Z;
  avgRank : Z;
  minRank : Z;
  maxRank : Z;
  dataPoints : Z;
  isOutOfRange : bool
}.

(** A loop [while (cond s) s = body s], run for at most [fuel] rounds;
    [None] when the bound is exceeded. *)
Fixpoint while_loop {S : Type} (fuel : nat) (cond : S -> bool) (body : S -> S)
    (s : S) : option S :=
  match fuel with
  | O => None
  | Datatypes.S n => if cond s then while_loop n cond body (body s) else Some s
  end.

(** [generateDateRange]: the state is the pair of [currentDate] and
    [dates].  One round per calendar day from [start] to [end] suffices,
    which [generateDateRange_eq] establishes. *)
Definition generateDateRange (tza start end_ : Z) : option (list string) :=
  snd <$> while_loop (S (Z.to_nat (Day end_ - Day start + 1)))
    (fun '(currentDate, dates) => currentDate <=? end_)
    (fun '(currentDate, dates) =>
       (setDate tza currentDate (getDate tza currentDate + 1),
        dates ++ [toISODate currentDate]))
    (start, []).

Inductive PeriodType := period_weekly | period_monthly.

Definition mondayOffset (day : Z) : Z := if day =? 0 then -6 else 1.

Definition generatePeriodRange (tza start end_ : Z) (type : PeriodType)
    : option (list string) :=
  let fuel := S (S (Z.to_nat (Day end_ - Day start + 1))) in
  match type with
  | period_weekly =>
      let day := getDay tza start in
      let diff := getDate tza start - day + mondayOffset day in
      let current := setDate tza start diff in
      snd <$> while_loop fuel
        (fun '(current, periods) => current <=? end_)
        (fun '(current, periods) =>
           (setDate tza current (getDate tza current + 7),
            periods ++ [toISODate current]))
        (current, [])
  | period_monthly =>
      let current := setDate tza start 1 in
      snd <$> while_loop fuel
        (fun '(current, periods) => current <=? end_)
        (fun '(current, periods) =>
           (setMonth tza current (getMonth tza current + 1),
            periods ++ [monthKey tza current]))
        (current, [])
  end.

(** [[...data].sort((a, b) => new Date(a.date).getTime() - new Date(b.date).getTime())]:
    a stable sort on the time value; items are paired with their parsed
    date. *)
Fixpoint insert_sorted (x : Z * RankingData) (l : list (Z * RankingData))
    : list (Z * RankingData) :=
  match l with
  | [] => [x]
  | y :: l' => if fst x <=? fst y then x :: l else y :: insert_sorted x l'
  end.

Definition sort_by_time (l : list (Z * RankingData)) : list (Z * RankingData) :=
  foldr insert_sorted [] l.

Definition with_time (item : RankingData) : option (Z * RankingData) :=
  t ← newDate (date item); Some (t, item).

(** JavaScript truthiness of an optional string prop. *)
Definition truthy (s : option string) : option string :=
  match s with
  | Some EmptyString => None
  | other => other
  end.

Definition outOfRangePoint (key : string) : AggregatedData :=
  mkAggregatedData key None 101 101 101 0 true.

Definition dailyPoint (dataMap : gmap string RankingData) (d : string)
    : AggregatedData :=
  match dataMap !! d with
  | Some existingData =>
      mkAggregatedData (date existingData) (Some (rank existingData))
        (rank existingData) (rank existingData) (rank existingData) 1 false
  | None => outOfRangePoint d
  end.

(** Start of the week of [t]: [startOfWeek.setDate(diff)], serialised. *)
Definition weekKey (tza t : Z) : string :=
  let day := getDay tza t in
  let diff := getDate tza t - day + mondayOffset day in
  toISODate (setDate tza t diff).

Definition groupKey (tza : Z) (aggregation : TimeAggregation) (t : Z) : string :=
  match aggregation with
  | weekly => weekKey tza t
  | _ => monthKey tza t
  end.

Definition addToGroup (tza : Z) (aggregation : TimeAggregation)
    (groups : gmap string (list RankingData)) (titem : Z * RankingData)
    : gmap string (list RankingData) :=
  let key := groupKey tza aggregation (fst titem) in
  <[key := default [] (groups !! key) ++ [snd titem]]> groups.

Definition sum_ranks (ranks : list Z) : Z := foldl Z.add 0 ranks.

(** [Math.round(sum / n)] for [n > 0]: the quotient rounded to the nearest
    integer, halves upwards. *)
Definition round_div (sum n : Z) : Z := (2 * sum + n) / (2 * n).

(** [Math.min(...ranks)] and [Math.max(...ranks)] of a non-empty list. *)
Definition math_min (ranks : list Z) : Z :=
  match ranks with
  | [] => 0
  | r :: rs => foldl Z.min r rs
  end.

Definition math_max (ranks : list Z) : Z :=
  match ranks with
  | [] => 0
  | r :: rs => foldl Z.max r rs
  end.

Definition periodPoint (groups : gmap string (list RankingData)) (periodKey : string)
    : AggregatedData :=
  match groups !! periodKey with
  | Some (item :: items) =>
      let ranks := map rank (item :: items) in
      let avg := round_div (sum_ranks ranks) (Z.of_nat (length ranks)) in
      mkAggregatedData periodKey (Some avg) avg (math_min ranks) (math_max ranks)
        (Z.of_nat (length ranks)) false
  | _ => outOfRangePoint periodKey
  end.

Definition periodTypeOf (aggregation : TimeAggregation) : PeriodType :=
  match aggregation with
  | monthly => period_monthly
  | _ => period_weekly
  end.

(** [aggregatedData]: the memoised series of the chart.  [None] only for
    inputs outside the model (a date string that is not [YYYY-MM-DD]). *)
Definition aggregatedData (tza : Z) (data : list RankingData)
    (aggregation : TimeAggregation) (startDate endDate : option string)
    : option (list AggregatedData) :=
  timed ← mapM with_time data;
  let sortedData := sort_by_time timed in
  range ←
    match truthy startDate, truthy endDate with
    | Some s, Some e =>
        dateRangeStart ← newDate s; dateRangeEnd ← newDate e;
        Some (Some (dateRangeStart, dateRangeEnd))
    | _, _ =>
        match sortedData with
        | first :: _ => Some (Some (fst first, fst (List.last sortedData first)))
        | [] => Some None
        end
    end;
  match range with
  | None => Some []
  | Some (dateRangeStart, dateRangeEnd) =>
      match aggregation with
      | daily =>
          let dataMap :=
            foldl (fun m titem => <[date (snd titem) := snd titem]> m) ∅ sortedData in
          allDates ← generateDateRange tza dateRangeStart dateRangeEnd;
          Some (map (dailyPoint dataMap) allDates)
      | _ =>
          let groups := foldl (addToGroup tza aggregation) ∅ sortedData in
          allPeriods ← generatePeriodRange tza dateRangeStart dateRangeEnd
                          (periodTypeOf aggregation);
          Some (map (periodPoint groups) allPeriods)
      end
  end.

(** The upper end of the Y axis: a number or the chart library's ['auto']. *)
Inductive AxisBound := AxisAuto | AxisNumber (n : Z).

Definition validRanks (aggregated : list AggregatedData) : list Z :=
  omap (fun item => if negb (isOutOfRange item) then agg_rank item else None) aggregated.

Definition yAxisDomain (aggregated : list AggregatedData) : Z * AxisBound :=
  match aggregated with
  | [] => (1, AxisAuto)
  | _ =>
      match validRanks aggregated with
      | [] => (1, AxisNumber 100)
      | ranks => (1, AxisNumber (math_max ranks + 5))
      end
  end.

(** The values a loop variable takes: [c], [next c], ... ([n] of them). *)
Fixpoint orbit {A : Type} (n : nat) (next : A -> A) (c : A) : list A :=
  match n with
  | O => []
  | Datatypes.S n' => c :: orbit n' next (next c)
  end.

(** Number of values [start], [start + step], ... that are at most [end_]. *)
Definition steps_upto (start end_ step : Z) : nat :=
  Z.to_nat ((end_ - start) / step + 1).

(** The character of a decimal digit. *)
Definition dchar (n : Z) : ascii := pretty_N_char (Z.to_N n).

(** Day number of the Monday on or before day [d]. *)
Definition monday_of (d : Z) : Z := d - (d + 3) mod 7.

(** Months counted from January of year 0: the first day of month [mi]. *)
Definition first_of_month (mi : Z) : Z := days_from_civil (mi / 12) (mi mod 12 + 1) 1.

(** The month key of month [mi], as the monthly branch spells it. *)
Definition monthKeyOf (mi : Z) : string :=
  String.app (pretty (mi / 12))
    (String.app "-" (String.app (padStart 2 "0" (pretty (mi mod 12 + 1))) "-01")).

(** The items grouped under a key: those whose group key it is, in order. *)
Definition itemsOf (tza : Z) (aggregation : TimeAggregation) (key : string)
    (l : list (Z * RankingData)) : list RankingData :=
  map snd (filter (fun tf => groupKey tza aggregation (fst tf) = key) l).

(** The month, counted from January of year 0, that day [d] lies in. *)
Definition monthIndex (d : Z) : Z :=
  let '(y, m, _) := civil_from_days d in 12 * y + m - 1.

(** A date on the first of local month [mi], at any time of day. *)
Definition onFirstOf (tza mi c : Z) : Prop := Day (LocalTime tza c) = first_of_month mi.

(** The optional range props are either absent (or empty) or date-only
    strings. *)
Definition wellFormedRange (startDate endDate : option string) : Prop :=
  match truthy startDate, truthy endDate with
  | Some s, Some e => is_Some (newDate s) /\ is_Some (newDate e)
  | _, _ => True
  end.

(** The bucket a fact falls into: its date under daily aggregation, the
    group key of its date otherwise. *)
Definition bucketKey (tza : Z) (aggregation : TimeAggregation) (f : RankingData)
    : option string :=
  match aggregation with
  | daily => Some (date f)
  | _ => groupKey tza aggregation <$> newDate (date f)
  end.

(** The coherence of an aggregated point over the facts [data]: the three
    out-of-range signals agree, an out-of-range point carries the sentinel
    statistics, a bucket with a fact is in range, and the statistics of a
    point in range are those of a non-empty list of facts of its bucket. *)
Definition coherentPoint (tza : Z) (aggregation : TimeAggregation)
    (data : list RankingData) (p : AggregatedData) : Prop :=
  (agg_rank p = None <-> isOutOfRange p = true)
  /\ (isOutOfRange p = true <-> dataPoints p = 0)
  /\ (dataPoints p = 0 -> avgRank p = 101 /\ minRank p = 101 /\ maxRank p = 101)
  /\ ((exists f, f ∈ data /\ bucketKey tza aggregation f = Some (agg_date p)) ->
      isOutOfRange p = false /\ 1 <= dataPoints p)
  /\ (isOutOfRange p = false ->
      exists items,
        items <> []
        /\ (forall f, f ∈ items ->
              f ∈ data /\ bucketKey tza aggregation f = Some (agg_date p))
        /\ dataPoints p = Z.of_nat (length items)
        /\ avgRank p = round_div (sum_ranks (map rank items)) (Z.of_nat (length items))
        /\ minRank p = math_min (map rank items)
        /\ maxRank p = math_max (map rank items)
        /\ agg_rank p = Some (avgRank p)).

(** * Strings

    A JavaScript string is modelled by the UTF-8 encoding of its text.
    Splitting at an ASCII character, substring search, trimming of white
    space and ASCII case mapping commute with that encoding for
    well-formed text. *)

Definition byte_of (c : ascii) : Z := Z.of_N (N_of_ascii c).

(** [String.prototype.split] at a separator character. *)
Fixpoint split (sep : ascii) (s : string) : list string :=
  match s with
  | EmptyString => [EmptyString]
  | String c s' =>
      if Ascii.eqb c sep then EmptyString :: split sep s'
      else match split sep s' with
           | cur :: rest => String c cur :: rest
           | [] => [String c EmptyString]
           end
  end.

(** White space and line terminators of ECMAScript, by their encodings of
    one, two and three bytes. *)
Definition is_ws1 (c : ascii) : bool :=
  let n := byte_of c in ((9 <=? n) && (n <=? 13)) || (n =? 32).

Definition is_ws2 (c1 c2 : ascii) : bool :=
  (byte_of c1 =? 194) && (byte_of c2 =? 160).

Definition is_ws3 (c1 c2 c3 : ascii) : bool :=
  let a := byte_of c1 in let b := byte_of c2 in let c := byte_of c3 in
  ((a =? 225) && (b =? 154) && (c =? 128))
  || ((a =? 226) && (b =? 128)
      && (((128 <=? c) && (c <=? 138)) || (c =? 168) || (c =? 169) || (c =? 175)))
  || ((a =? 226) && (b =? 129) && (c =? 159))
  || ((a =? 227) && (b =? 128) && (c =? 128))
  || ((a =? 239) && (b =? 187) && (c =? 191)).

Fixpoint trimStart (s : string) : string :=
  match s with
  | EmptyString => s
  | String c1 s1 =>
      if is_ws1 c1 then trimStart s1 else
      match s1 with
      | EmptyString => s
      | String c2 s2 =>
          if is_ws2 c1 c2 then trimStart s2 else
          match s2 with
          | EmptyString => s
          | String c3 s3 => if is_ws3 c1 c2 c3 then trimStart s3 else s
          end
      end
  end.

(** The same from the end, on the reversed string. *)
Fixpoint trimStartRev (s : string) : string :=
  match s with
  | EmptyString => s
  | String c1 s1 =>
      if is_ws1 c1 then trimStartRev s1 else
      match s1 with
      | EmptyString => s
      | String c2 s2 =>
          if is_ws2 c2 c1 then trimStartRev s2 else
          match s2 with
          | EmptyString => s
          | String c3 s3 => if is_ws3 c3 c2 c1 then trimStartRev s3 else s
          end
      end
  end.

Definition trimEnd (s : string) : string := String.rev (trimStartRev (String.rev s)).

Definition trim (s : string) : string := trimEnd (trimStart s).

(** [hay.includes(needle)] *)
Fixpoint includes (needle hay : string) : bool :=
  String.prefix needle hay
  || match hay with
     | EmptyString => false
     | String _ hay' => includes needle hay'
     end.

(** [toLowerCase].  The letters A..Z are lowered, and KELVIN SIGN
    (U+212A, the bytes E2 84 AA) is lowered to [k].  The header tests look
    for words of ASCII letters in the lowered text; no other character
    outside ASCII contributes to such a word (LATIN CAPITAL LETTER I WITH
    DOT ABOVE lowers to [i] followed by a combining mark, and no tested
    word ends in [i]), so the other characters are left as they are. *)
Definition lower_char (c : ascii) : ascii :=
  let n := byte_of c in
  if (65 <=? n) && (n <=? 90) then ascii_of_N (Z.to_N (n + 32)) else c.

Fixpoint toLowerCase (s : string) : string :=
  match s with
  | EmptyString => EmptyString
  | String c s' =>
      match s' with
      | String c2 (String c3 rest) =>
          if (byte_of c =? 226) && (byte_of c2 =? 132) && (byte_of c3 =? 170)
          then String "k" (toLowerCase rest)
          else String (lower_char c) (toLowerCase s')
      | _ => String (lower_char c) (toLowerCase s')
      end
  end.

(** Value of a digit in a radix up to 16. *)
Definition radix_digit (radix : Z) (c : ascii) : option Z :=
  let n := byte_of c in
  let v := if (48 <=? n) && (n <=? 57) then Some (n - 48)
           else if (97 <=? n) && (n <=? 102) then Some (n - 87)
           else if (65 <=? n) && (n <=? 70) then Some (n - 55)
           else None in
  match v with
  | Some d => if d <? radix then Some d else None
  | None => None
  end.

(** The digits of the longest prefix of [s] made of digits. *)
Fixpoint digitsPrefix (radix : Z) (s : string) : list Z :=
  match s with
  | EmptyString => []
  | String c s' =>
      match radix_digit radix c with
      | Some d => d :: digitsPrefix radix s'
      | None => []
      end
  end.

Definition digitsValue (radix : Z) (ds : list Z) : Z :=
  foldl (fun acc d => acc * radix + d) 0 ds.

(** [parseInt(s)] without a radix; [None] is NaN.  The value is the exact
    integer that the digits spell.  The runtime returns a double: the
    same number for values up to 2^53 in magnitude, a rounded one beyond,
    and Infinity for the longest digit strings.  Whether a cell holds an
    integer, and its sign, are the same in both; the value is the same
    on the cells whose value is at most 2^53 in magnitude, which
    [exactRows] below names. *)
Definition parseInt (s : string) : option Z :=
  let s1 := trimStart s in
  let '(sign, s2) :=
    match s1 with
    | String c rest =>
        if Ascii.eqb c "-" then (-1, rest)
        else if Ascii.eqb c "+" then (1, rest)
        else (1, s1)
    | EmptyString => (1, s1)
    end in
  let '(radix, s3) :=
    match s2 with
    | String c1 (String c2 rest) =>
        if Ascii.eqb c1 "0" && (Ascii.eqb c2 "x" || Ascii.eqb c2 "X")
        then (16, rest) else (10, s2)
    | _ => (10, s2)
    end in
  match digitsPrefix radix s3 with
  | [] => None
  | ds => Some (sign * digitsValue radix ds)
  end.

(** * The Pascal CSV parser (pascalCsvParser) *)

Record PascalKeywordData := mkPascalKeywordData {
  pascal_id : Z;
  keyword_text : string;
  monthly_search_volume : option Z;
  domain_url : option string;
  site_name : option string;
  rank_type : option string;
  area : option string;
  device_type : option string;
  landing_page : option string
}.

Record PascalRankingData := mkPascalRankingData {
  r_pascal_id : Z;
  r_date : string;
  r_rank : option Z
}.

Record PascalCsvData := mkPascalCsvData {
  keywords : list PascalKeywordData;
  rankings : list PascalRankingData
}.

(** What a [throw] carries: an [Error] with its message, or anything
    else. *)
Inductive Thrown := ErrorObject (message : string) | OtherValue.

(** A computation that returns or throws. *)
Inductive Outcome (A : Type) := Returned (a : A) | Threw (e : Thrown).
Arguments Returned {A} a.
Arguments Threw {A} e.

(** The keys of [columnMap]. *)
Inductive Field :=
  | f_pascal_id | f_keyword | f_search_volume | f_domain_url | f_site_name
  | f_rank_type | f_area | f_device_type | f_landing_page.

Definition Field_eqb (a b : Field) : bool :=
  match a, b with
  | f_pascal_id, f_pascal_id | f_keyword, f_keyword
  | f_search_volume, f_search_volume | f_domain_url, f_domain_url
  | f_site_name, f_site_name | f_rank_type, f_rank_type | f_area, f_area
  | f_device_type, f_device_type | f_landing_page, f_landing_page => true
  | _, _ => false
  end.

Definition all_fields : list Field :=
  [f_pascal_id; f_keyword; f_search_volume; f_domain_url; f_site_name;
   f_rank_type; f_area; f_device_type; f_landing_page].

(** The test of one branch of the header chain. *)
Definition fieldTest (f : Field) (h : string) : bool :=
  let lowerHeader := toLowerCase h in
  match f with
  | f_pascal_id => includes "Pascal ID" h || includes "pascal id" h
  | f_keyword => includes "キーワード" h || includes "keyword" lowerHeader
  | f_search_volume => includes "月間検索数" h || includes "search volume" lowerHeader
  | f_domain_url => includes "ドメイン" h || includes "domain" lowerHeader
  | f_site_name => includes "サイト名" h || includes "site" lowerHeader
  | f_rank_type => includes "順位取得" h || includes "rank type" lowerHeader
  | f_area => includes "エリア" h || includes "area" lowerHeader
  | f_device_type => includes "種別" h || includes "device" lowerHeader
  | f_landing_page => includes "ランディング" h || includes "landing" lowerHeader
  end.

(** The [if / else if] chain over one header cell: the key it sets. *)
Definition classifyHeader (h : string) : option Field :=
  if fieldTest f_pascal_id h then Some f_pascal_id
  else if fieldTest f_keyword h then Some f_keyword
  else if fieldTest f_search_volume h then Some f_search_volume
  else if fieldTest f_domain_url h then Some f_domain_url
  else if fieldTest f_site_name h then Some f_site_name
  else if fieldTest f_rank_type h then Some f_rank_type
  else if fieldTest f_area h then Some f_area
  else if fieldTest f_device_type h then Some f_device_type
  else if fieldTest f_landing_page h then Some f_landing_page
  else None.

Definition ColumnMap := Field -> option nat.

Definition setColumn (columnMap : ColumnMap) (f : Field) (index : nat) : ColumnMap :=
  fun g => if Field_eqb g f then Some index else columnMap g.

(** [headers.forEach((h, index) => ...)]: every matching cell assigns its
    index to its key. *)
Fixpoint resolveColumns_from (index : nat) (headers : list string)
    (columnMap : ColumnMap) : ColumnMap :=
  match headers with
  | [] => columnMap
  | h :: rest =>
      resolveColumns_from (S index) rest
        (match classifyHeader h with
         | Some f => setColumn columnMap f index
         | None => columnMap
         end)
  end.

Definition resolveColumns (headers : list string) : ColumnMap :=
  resolveColumns_from 0 headers (fun _ => None).

(** [Object.values(columnMap)] *)
Definition columnValues (columnMap : ColumnMap) : list nat :=
  omap columnMap all_fields.

(** ** Date columns *)

Definition is_digit (c : ascii) : bool :=
  (48 <=? byte_of c) && (byte_of c <=? 57).

(** Exactly [n] digits at the start of [s], and the rest. *)
Fixpoint takeDigits (n : nat) (s : string) : option (string * string) :=
  match n with
  | O => Some (EmptyString, s)
  | S n' =>
      match s with
      | String c s' =>
          if is_digit c then
            match takeDigits n' s' with
            | Some (ds, rest) => Some (String c ds, rest)
            | None => None
            end
          else None
      | EmptyString => None
      end
  end.

Fixpoint stripPrefix (p s : string) : option string :=
  match p with
  | EmptyString => Some s
  | String a p' =>
      match s with
      | String b s' => if Ascii.eqb a b then stripPrefix p' s' else None
      | EmptyString => None
      end
  end.

(** The three date notations: year, [sep1], month, [sep2], day, [tail]. *)
Record DatePattern := mkDatePattern { sep1 : string; sep2 : string; tail : string }.

Definition datePatterns : list DatePattern :=
  [mkDatePattern "年" "月" "日"; mkDatePattern "/" "/" ""; mkDatePattern "-" "-" ""].

(** A greedy [\d{1,2}] followed by the rest of the pattern [k]: two digits
    if the rest then matches, else one. *)
Definition digits12 {A : Type} (s : string) (k : string -> string -> option A)
    : option A :=
  match (match takeDigits 2 s with Some (ds, rest) => k ds rest | None => None end) with
  | Some a => Some a
  | None => match takeDigits 1 s with Some (ds, rest) => k ds rest | None => None end
  end.

(** A match of the pattern at the start of [s]: the three captures. *)
Definition matchAt (p : DatePattern) (s : string) : option (string * string * string) :=
  match takeDigits 4 s with
  | Some (y, r1) =>
      match stripPrefix (sep1 p) r1 with
      | Some r2 =>
          digits12 r2 (fun m r3 =>
            match stripPrefix (sep2 p) r3 with
            | Some r4 =>
                digits12 r4 (fun d r5 =>
                  match stripPrefix (tail p) r5 with
                  | Some _ => Some (y, m, d)
                  | None => None
                  end)
            | None => None
            end)
      | None => None
      end
  | None => None
  end.

(** [header.match(pattern)]: the leftmost match. *)
Fixpoint matchPattern (p : DatePattern) (s : string) : option (string * string * string) :=
  match matchAt p s with
  | Some m => Some m
  | None =>
      match s with
      | EmptyString => None
      | String _ s' => matchPattern p s'
      end
  end.

(** The first pattern, in order, that matches the header. *)
Fixpoint firstMatch (patterns : list DatePattern) (header : string)
    : option (string * string * string) :=
  match patterns with
  | [] => None
  | p :: rest =>
      match matchPattern p header with
      | Some m => Some m
      | None => firstMatch rest header
      end
  end.

(** [Date.UTC(year, month, day)]: years 0..99 stand for 1900..1999. *)
Definition DateUTC (year month day : Z) : Z :=
  let yr := if (0 <=? year) && (year <=? 99) then 1900 + year else year in
  MakeDate (MakeDay yr month day) 0.

Definition headerDate (header : string) : option string :=
  match firstMatch datePatterns header with
  | Some (y, m, d) =>
      match parseInt y, parseInt m, parseInt d with
      | Some year, Some month, Some day =>
          Some (toISODate (DateUTC year (month - 1) day))
      | _, _, _ => None
      end
  | None => None
  end.

Fixpoint dateColumns_from (index : nat) (headers : list string) : list (nat * string) :=
  match headers with
  | [] => []
  | header :: rest =>
      match headerDate header with
      | Some dateString => (index, dateString) :: dateColumns_from (S index) rest
      | None => dateColumns_from (S index) rest
      end
  end.

Definition findDateColumns (headers : list string) : list (nat * string) :=
  dateColumns_from 0 headers.

(** ** Rows *)

(** [values[i] || undefined]: a cell that is absent or empty is absent. *)
Definition nonEmpty (cell : option string) : option string :=
  match cell with
  | Some EmptyString => None
  | other => other
  end.

Definition cellAt (values : list string) (column : option nat) : option string :=
  match column with
  | Some i => values !! i
  | None => None
  end.

(** The rank a date cell yields, if it yields a fact. *)
Definition cellRank (rankValue : option string) : option Z :=
  match nonEmpty rankValue with
  | Some v =>
      if String.eqb v "-" then None
      else match parseInt v with
           | Some rank => if 0 <? rank then Some rank else None
           | None => None
           end
  | None => None
  end.

Definition rowRankings (pascalId : Z) (values : list string)
    (dateColumns : list (nat * string)) : list PascalRankingData :=
  omap (fun '(index, date) =>
          match cellRank (values !! index) with
          | Some rank => Some (mkPascalRankingData pascalId date (Some rank))
          | None => None
          end) dateColumns.

Definition searchVolume (columnMap : ColumnMap) (values : list string) : option Z :=
  match nonEmpty (cellAt values (columnMap f_search_volume)) with
  | Some volume => if String.eqb volume "-" then None else parseInt volume
  | None => None
  end.

(** [Math.max(...Object.values(columnMap))] for a map with a value. *)
Definition maxColumn (columnMap : ColumnMap) : nat :=
  foldr Nat.max 0%nat (columnValues columnMap).

(** One round of the row loop: [None] when the row is skipped. *)
Definition parseRow (columnMap : ColumnMap) (dateColumns : list (nat * string))
    (values : list string) : option (PascalKeywordData * list PascalRankingData) :=
  if (length values <? maxColumn columnMap + 1)%nat then None else
  match cellAt values (columnMap f_pascal_id) with
  | None => None
  | Some idCell =>
      match parseInt idCell with
      | None => None
      | Some pascalId =>
          match nonEmpty (cellAt values (columnMap f_keyword)) with
          | None => None
          | Some keywordText =>
              Some (mkPascalKeywordData pascalId keywordText
                      (searchVolume columnMap values)
                      (nonEmpty (cellAt values (columnMap f_domain_url)))
                      (nonEmpty (cellAt values (columnMap f_site_name)))
                      (nonEmpty (cellAt values (columnMap f_rank_type)))
                      (nonEmpty (cellAt values (columnMap f_area)))
                      (nonEmpty (cellAt values (columnMap f_device_type)))
                      (nonEmpty (cellAt values (columnMap f_landing_page))),
                    rowRankings pascalId values dateColumns)
          end
      end
  end.

Definition cellsOf (line : string) : list string := map trim (split "," line).

Definition parseRows (columnMap : ColumnMap) (dateColumns : list (nat * string))
    (rows : list string) : PascalCsvData :=
  let parsed := omap (fun line => parseRow columnMap dateColumns (cellsOf line)) rows in
  mkPascalCsvData (map fst parsed) (concat (map snd parsed)).

Definition parsePascalCsv (csvContent : string) : Outcome PascalCsvData :=
  match split "010" (trim csvContent) with
  | header :: row :: rows =>
      let headers := cellsOf header in
      let columnMap := resolveColumns headers in
      let dateColumns := findDateColumns headers in
      match columnMap f_pascal_id, columnMap f_keyword with
      | Some _, Some _ =>
          match dateColumns with
          | [] => Threw (ErrorObject "No date columns found in CSV")
          | _ => Returned (parseRows columnMap dateColumns (row :: rows))
          end
      | _, _ => Threw (ErrorObject "CSV must contain Pascal ID and キーワード columns")
      end
  | _ => Threw (ErrorObject "CSV must contain at least header and one data row")
  end.

(** ** Validation *)

Definition hasDate (h : string) : bool :=
  existsb (fun p => bool_decide (is_Some (matchPattern p h))) datePatterns.

Record Validation := mkValidation { isValid : bool; validation_errors : list string }.

Fixpoint sampleErrors (i : nat) (nheaders : nat) (sampleRows : list string) : list string :=
  match sampleRows with
  | [] => []
  | row :: rest =>
      (if (2 * length (split "," row) <? nheaders)%nat
       then [String.app "Row " (String.app (pretty (Z.of_nat (i + 2))) ": Insufficient data")]
       else [])
      ++ sampleErrors (S i) nheaders rest
  end.

Definition validatePascalCsv (csvContent : string) : Validation :=
  match split "010" (trim csvContent) with
  | header :: row :: rows =>
      let headers := cellsOf header in
      let errs :=
        (if existsb (fieldTest f_pascal_id) headers then []
         else ["CSV must contain Pascal ID column"])
        ++ (if existsb (fieldTest f_keyword) headers then []
            else ["CSV must contain キーワード column"])
        ++ (if existsb hasDate headers then []
            else ["CSV must contain date columns (format: YYYY年M月D日)"])
        ++ sampleErrors 0 (length headers) (take 3 (row :: rows)) in
      mkValidation (bool_decide (errs = [])) errs
  | _ => mkValidation false ["CSV must contain at least header and one data row"]
  end.

(** The three conditions under which a row yields an entity. *)
Definition rowHasColumns (columnMap : ColumnMap) (values : list string) : bool :=
  negb (length values <? maxColumn columnMap + 1)%nat.

Definition idParses (columnMap : ColumnMap) (values : list string) : bool :=
  match cellAt values (columnMap f_pascal_id) with
  | Some idCell => bool_decide (is_Some (parseInt idCell))
  | None => false
  end.

Definition keywordNonEmpty (columnMap : ColumnMap) (values : list string) : bool :=
  bool_decide (is_Some (nonEmpty (cellAt values (columnMap f_keyword)))).

(** Position of a key in the header chain. *)
Definition fieldOrder (f : Field) : nat :=
  match f with
  | f_pascal_id => 0 | f_keyword => 1 | f_search_volume => 2 | f_domain_url => 3
  | f_site_name => 4 | f_rank_type => 5 | f_area => 6 | f_device_type => 7
  | f_landing_page => 8
  end.

(** * Persistence (pascalSupabase) *)

(** A row of [pascal_keywords]: the surrogate id and the columns of the
    entity.  Identifiers are drawn from a counter; timestamps are not
    modelled. *)
Record PascalKeyword := mkPascalKeyword { id : nat; row_data : PascalKeywordData }.

(** A row of a bulk upsert into [pascal_daily_rankings]. *)
Record RankingRow := mkRankingRow {
  pascal_keyword_id : nat;
  row_date : string;
  row_rank : option Z
}.

(** Modelled from the spec: the store behind the Supabase client, which
    is not part of the sources.  Its two tables are those of the SQL
    schema, each indexed by its unique key: [pascal_keywords] by
    [pascal_id], [pascal_daily_rankings] by [(pascal_keyword_id, date)]. *)
Record Db := mkDb {
  pascal_keywords : gmap Z PascalKeyword;
  pascal_daily_rankings : gmap (nat * string) (option Z);
  next_id : nat
}.

(** What the store refuses: for a request, the error the client throws,
    if any. *)
Record Gateway := mkGateway {
  keywordRejected : Db -> PascalKeywordData -> option Thrown;
  rankingsRejected : Db -> list RankingRow -> option Thrown
}.

(** The world of an import: the store, the number of persistence calls
    issued, and the progress reports received by the sink. *)
Record World := mkWorld {
  db : Db;
  calls : nat;
  progress : list (Z * Z * string)
}.

(** Modelled from the spec: [upsertEntity], insert or overwrite of the
    scalar columns, keyed on [pascal_id]; the row keeps its id. *)
Definition upsertKeywordRow (keyword : PascalKeywordData) (d : Db) : PascalKeyword * Db :=
  match pascal_keywords d !! pascal_id keyword with
  | Some old =>
      let row := mkPascalKeyword (id old) keyword in
      (row, mkDb (<[pascal_id keyword := row]> (pascal_keywords d))
                 (pascal_daily_rankings d) (next_id d))
  | None =>
      let row := mkPascalKeyword (next_id d) keyword in
      (row, mkDb (<[pascal_id keyword := row]> (pascal_keywords d))
                 (pascal_daily_rankings d) (S (next_id d)))
  end.

(** Modelled from the spec: [bulkUpsertFacts], insert or replace of the
    rank, keyed on [(pascal_keyword_id, date)]. *)
Definition upsertRankingRows (rows : list RankingRow) (d : Db) : Db :=
  mkDb (pascal_keywords d)
       (foldl (fun m r => <[(pascal_keyword_id r, row_date r) := row_rank r]> m)
          (pascal_daily_rankings d) rows)
       (next_id d).

(** [pascalKeywordService.upsert] *)
Definition keywordService_upsert (gw : Gateway) (keyword : PascalKeywordData)
    (w : World) : Outcome PascalKeyword * World :=
  match keywordRejected gw (db w) keyword with
  | Some error => (Threw error, mkWorld (db w) (S (calls w)) (progress w))
  | None =>
      let '(row, d) := upsertKeywordRow keyword (db w) in
      (Returned row, mkWorld d (S (calls w)) (progress w))
  end.

(** [pascalRankingService.bulkUpsertRankings] *)
Definition rankingService_bulkUpsertRankings (gw : Gateway) (rows : list RankingRow)
    (w : World) : Outcome unit * World :=
  match rankingsRejected gw (db w) rows with
  | Some error => (Threw error, mkWorld (db w) (S (calls w)) (progress w))
  | None =>
      (Returned tt, mkWorld (upsertRankingRows rows (db w)) (S (calls w)) (progress w))
  end.

(** * The import (importPascalCsv) *)

Record PascalImportResult := mkPascalImportResult {
  success : bool;
  totalKeywords : Z;
  importedKeywords : Z;
  updatedKeywords : Z;
  totalRankings : Z;
  importedRankings : Z;
  errors : list string;
  summary : string
}.

(** The state of a run: the result object under construction and the
    world. *)
Record Run := mkRun { result : PascalImportResult; world : World }.

Definition withErrors (errs : list string) (r : PascalImportResult) : PascalImportResult :=
  mkPascalImportResult (success r) (totalKeywords r) (importedKeywords r)
    (updatedKeywords r) (totalRankings r) (importedRankings r) errs (summary r).

Definition pushError (msg : string) (st : Run) : Run :=
  mkRun (withErrors (errors (result st) ++ [msg]) (result st)) (world st).

Definition withTotals (nk nr : Z) (r : PascalImportResult) : PascalImportResult :=
  mkPascalImportResult (success r) nk (importedKeywords r)
    (updatedKeywords r) nr (importedRankings r) (errors r) (summary r).

Definition addImportedKeywords (n : Z) (r : PascalImportResult) : PascalImportResult :=
  mkPascalImportResult (success r) (totalKeywords r) (importedKeywords r + n)
    (updatedKeywords r) (totalRankings r) (importedRankings r) (errors r) (summary r).

Definition addImportedRankings (n : Z) (r : PascalImportResult) : PascalImportResult :=
  mkPascalImportResult (success r) (totalKeywords r) (importedKeywords r)
    (updatedKeywords r) (totalRankings r) (importedRankings r + n) (errors r) (summary r).

Definition finish (r : PascalImportResult) : PascalImportResult :=
  mkPascalImportResult (bool_decide (errors r = [])) (totalKeywords r)
    (importedKeywords r) (updatedKeywords r) (totalRankings r) (importedRankings r)
    (errors r)
    ("Keywords: " +:+ pretty (importedKeywords r) +:+ "/" +:+ pretty (totalKeywords r)
     +:+ ", Rankings: " +:+ pretty (importedRankings r) +:+ "/"
     +:+ pretty (totalRankings r)).

(** [progressCallback?.(current, total, message)]; [cb] tells whether a
    callback was given.  The sink only records. *)
Definition report (cb : bool) (current total : Z) (message : string) (st : Run) : Run :=
  if cb then
    mkRun (result st)
      (mkWorld (db (world st)) (calls (world st))
         (progress (world st) ++ [(current, total, message)]))
  else st.

(** [error instanceof Error ? error.message : 'Unknown error'] *)
Definition errorMessage (e : Thrown) : string :=
  match e with
  | ErrorObject message => message
  | OtherValue => "Unknown error"
  end.

(** The list cut into consecutive batches of [size] elements. *)
Fixpoint chunks_fuel {A : Type} (fuel size : nat) (l : list A) : list (list A) :=
  match fuel, l with
  | _, [] => []
  | O, _ => [l]
  | S fuel', _ => take size l :: chunks_fuel fuel' size (drop size l)
  end.

Definition chunks {A : Type} (size : nat) (l : list A) : list (list A) :=
  chunks_fuel (length l) size l.

Definition KEYWORD_BATCH_SIZE : nat := 50.
Definition RANKING_BATCH_SIZE : nat := 100.

(** One member of a keyword batch: upsert, then record the id or the
    error. *)
Definition importKeyword (gw : Gateway) (keywordData : PascalKeywordData)
    (acc : gmap Z nat * Run) : gmap Z nat * Run :=
  let '(keywordIdMap, st) := acc in
  match keywordService_upsert gw keywordData (world st) with
  | (Returned keyword, w) =>
      (<[pascal_id keywordData := id keyword]> keywordIdMap,
       mkRun (addImportedKeywords 1 (result st)) w)
  | (Threw error, w) =>
      (keywordIdMap,
       pushError (String.app "Failed to import keyword Pascal ID "
                    (String.app (pretty (pascal_id keywordData))
                    (String.app ": " (errorMessage error))))
         (mkRun (result st) w))
  end.

(** The batch loop over the keywords; the members of a batch are taken in
    order. *)
Fixpoint importKeywordBatches (gw : Gateway) (cb : bool) (total : nat) (i : nat)
    (batches : list (list PascalKeywordData)) (acc : gmap Z nat * Run)
    : gmap Z nat * Run :=
  match batches with
  | [] => acc
  | batch :: rest =>
      let '(keywordIdMap, st) := foldl (fun a k => importKeyword gw k a) acc batch in
      let keywordProgress := Z.min 7 (3 + (Z.of_nat i * 4) / Z.of_nat total) in
      let st := report cb keywordProgress 10
                  (String.app "キーワード "
                    (String.app (pretty (Z.of_nat (Nat.min (i + KEYWORD_BATCH_SIZE) total)))
                    (String.app "/" (String.app (pretty (Z.of_nat total)) " 登録完了")))) st in
      importKeywordBatches gw cb total (i + KEYWORD_BATCH_SIZE) rest (keywordIdMap, st)
  end.

(** [rankingsByKeyword]: a Map in insertion order. *)
Fixpoint addRanking (ranking : PascalRankingData)
    (groups : list (Z * list PascalRankingData)) : list (Z * list PascalRankingData) :=
  match groups with
  | [] => [(r_pascal_id ranking, [ranking])]
  | (pid, rs) :: rest =>
      if pid =? r_pascal_id ranking then (pid, rs ++ [ranking]) :: rest
      else (pid, rs) :: addRanking ranking rest
  end.

Definition groupRankings (rankings : list PascalRankingData)
    : list (Z * list PascalRankingData) :=
  foldl (fun groups r => addRanking r groups) [] rankings.

(** The batches of one keyword, inside its [try]: [inl e] when a batch
    throws, which ends the loop. *)
Fixpoint importRankingBatches (gw : Gateway) (keywordId : nat)
    (batches : list (list PascalRankingData)) (st : Run) : option Thrown * Run :=
  match batches with
  | [] => (None, st)
  | batch :: rest =>
      let rankingData :=
        map (fun r => mkRankingRow keywordId (r_date r) (r_rank r)) batch in
      match rankingService_bulkUpsertRankings gw rankingData (world st) with
      | (Returned _, w) =>
          importRankingBatches gw keywordId rest
            (mkRun (addImportedRankings (Z.of_nat (length rankingData)) (result st)) w)
      | (Threw error, w) => (Some error, mkRun (result st) w)
      end
  end.

(** The loop over the keywords with rankings; the state carries
    [processedKeywords]. *)
Fixpoint importRankingGroups (gw : Gateway) (cb : bool) (keywordIdMap : gmap Z nat)
    (totalKeywordsWithRankings : nat)
    (groups : list (Z * list PascalRankingData)) (processedKeywords : nat) (st : Run)
    : Run :=
  match groups with
  | [] => st
  | (pascalId, rankings) :: rest =>
      match keywordIdMap !! pascalId with
      | None =>
          importRankingGroups gw cb keywordIdMap totalKeywordsWithRankings rest
            processedKeywords
            (pushError (String.app "Keyword not found for Pascal ID "
                          (String.app (pretty pascalId) ", skipping rankings")) st)
      | Some keywordId =>
          match importRankingBatches gw keywordId (chunks RANKING_BATCH_SIZE rankings) st with
          | (None, st') =>
              let processed := S processedKeywords in
              let rankingProgress :=
                8 + (Z.of_nat processed * 2) / Z.of_nat totalKeywordsWithRankings in
              importRankingGroups gw cb keywordIdMap totalKeywordsWithRankings rest
                processed
                (report cb rankingProgress 10
                   (String.app "順位データ "
                     (String.app (pretty (Z.of_nat processed))
                     (String.app "/"
                     (String.app (pretty (Z.of_nat totalKeywordsWithRankings))
                        " キーワード完了")))) st')
          | (Some error, st') =>
              importRankingGroups gw cb keywordIdMap totalKeywordsWithRankings rest
                processedKeywords
                (pushError (String.app "Failed to import rankings for Pascal ID "
                              (String.app (pretty pascalId)
                              (String.app ": " (errorMessage error)))) st')
          end
      end
  end.

(** How a block ends: it runs to its end, returns, or throws. *)
Inductive Completion := Normal | Return | Throw (e : Thrown).

(** The body of the [try] block. *)
Definition importBody (gw : Gateway) (cb : bool) (csvContent : string) (st : Run)
    : Completion * Run :=
  let st := report cb 1 10 "CSV形式を検証中..." st in
  let validation := validatePascalCsv csvContent in
  if negb (isValid validation) then
    (Return, mkRun (withErrors (validation_errors validation) (result st)) (world st))
  else
    let st := report cb 2 10 "CSVデータを解析中..." st in
    match parsePascalCsv csvContent with
    | Threw e => (Throw e, st)
    | Returned csvData =>
        let st := mkRun (withTotals (Z.of_nat (length (keywords csvData)))
                           (Z.of_nat (length (rankings csvData))) (result st))
                    (world st) in
        match keywords csvData with
        | [] => (Return, pushError "No valid keywords found in CSV" st)
        | _ =>
            let st := report cb 3 10
                        (String.app (pretty (totalKeywords (result st)))
                           "件のキーワードを登録中...") st in
            let '(keywordIdMap, st) :=
              importKeywordBatches gw cb (length (keywords csvData)) 0
                (chunks KEYWORD_BATCH_SIZE (keywords csvData)) (∅, st) in
            let st := report cb 7 10
                        (String.app (pretty (totalRankings (result st)))
                           "件の順位データを処理中...") st in
            let rankingsByKeyword := groupRankings (rankings csvData) in
            let st := importRankingGroups gw cb keywordIdMap (length rankingsByKeyword)
                        rankingsByKeyword 0 st in
            let st := report cb 10 10 "インポート完了" st in
            (Return, mkRun (finish (result st)) (world st))
        end
    end.

Definition emptyResult : PascalImportResult :=
  mkPascalImportResult false 0 0 0 0 0 [] EmptyString.

(** [importPascalCsv]: the [try] block and its [catch]. *)
Definition importPascalCsv (gw : Gateway) (cb : bool) (csvContent : string) (w : World)
    : Outcome PascalImportResult * World :=
  match importBody gw cb csvContent (mkRun emptyResult w) with
  | (Throw error, st) =>
      (Returned (result (pushError (String.app "Import failed: " (errorMessage error)) st)),
       world st)
  | (_, st) => (Returned (result st), world st)
  end.

(** A store that refuses nothing, and the empty world. *)
Definition acceptAll : Gateway := mkGateway (fun _ _ => None) (fun _ _ => None).
Definition emptyWorld : World := mkWorld (mkDb ∅ ∅ 0) 0 [].

(** A store whose refusals depend on the request alone (a violated
    constraint), not on what it holds. *)
Definition requestDetermined (gw : Gateway) : Prop :=
  (forall d d' k, keywordRejected gw d k = keywordRejected gw d' k)
  /\ (forall d d' rows, rankingsRejected gw d rows = rankingsRejected gw d' rows).

(** The effect of one keyword of a batch on the id map and the store. *)
Definition keywordStep (gw : Gateway) (acc : gmap Z nat * Db) (k : PascalKeywordData)
    : gmap Z nat * Db :=
  match keywordRejected gw (snd acc) k with
  | Some _ => acc
  | None =>
      let '(row, d) := upsertKeywordRow k (snd acc) in
      (<[pascal_id k := id row]> (fst acc), d)
  end.

(** The keyword that wrote last under natural key [p]. *)
Fixpoint lastOf (l : list PascalKeywordData) (p : Z) : option PascalKeywordData :=
  match l with
  | [] => None
  | k :: rest =>
      match lastOf rest p with
      | Some k' => Some k'
      | None => if pascal_id k =? p then Some k else None
      end
  end.

(** The rows of the batches of one keyword that reach the store: those of
    the batches before the first refused one. *)
Fixpoint acceptedBatches (gw : Gateway) (d : Db) (keywordId : nat)
    (batches : list (list PascalRankingData)) : list RankingRow :=
  match batches with
  | [] => []
  | batch :: rest =>
      let rows := map (fun r => mkRankingRow keywordId (r_date r) (r_rank r)) batch in
      match rankingsRejected gw d rows with
      | Some _ => []
      | None => rows ++ acceptedBatches gw d keywordId rest
      end
  end.

(** The rows of a whole run that reach the store, in order. *)
Fixpoint acceptedRows (gw : Gateway) (d : Db) (keywordIdMap : gmap Z nat)
    (groups : list (Z * list PascalRankingData)) : list RankingRow :=
  match groups with
  | [] => []
  | (pascalId, rankings) :: rest =>
      match keywordIdMap !! pascalId with
      | None => acceptedRows gw d keywordIdMap rest
      | Some keywordId =>
          acceptedBatches gw d keywordId (chunks RANKING_BATCH_SIZE rankings)
          ++ acceptedRows gw d keywordIdMap rest
      end
  end.

(** The keywords the store does not refuse, in order. *)
Definition accepted (gw : Gateway) (d0 : Db) (l : list PascalKeywordData)
    : list PascalKeywordData :=
  List.filter (fun k => bool_decide (keywordRejected gw d0 k = None)) l.

(** * Zones with daylight saving

    The [Date] operations above take the offset of local time as a
    constant.  A zone whose offset changes is given by ECMAScript's
    LocalTZA in its two readings: [offsetAtUTC t] is the offset in force
    at the time value [t], and [offsetAtLocal t] is the offset with which
    a local time is read; a local time that a transition repeats or skips
    is read with the offset before the transition.  The operations and
    the chart's aggregation are repeated here over such a zone; over
    [fixedZone tza] they are the ones above. *)

Record Zone := mkZone { offsetAtUTC : Z -> Z; offsetAtLocal : Z -> Z }.

Definition fixedZone (tza : Z) : Zone := mkZone (fun _ => tza) (fun _ => tza).

Module Zoned.

Definition LocalTime (z : Zone) (t : Z) : Z := t + offsetAtUTC z t.
Definition UTC (z : Zone) (t : Z) : Z := t - offsetAtLocal z t.

Definition getDay (z : Zone) (t : Z) : Z := WeekDay (LocalTime z t).
Definition getDate (z : Zone) (t : Z) : Z := DateFromTime (LocalTime z t).
Definition getMonth (z : Zone) (t : Z) : Z := MonthFromTime (LocalTime z t).
Definition getFullYear (z : Zone) (t : Z) : Z := YearFromTime (LocalTime z t).

Definition setDate (z : Zone) (t dt : Z) : Z :=
  let t' := LocalTime z t in
  UTC z (MakeDate (MakeDay (YearFromTime t') (MonthFromTime t') dt)
                  (TimeWithinDay t')).

Definition setMonth (z : Zone) (t month : Z) : Z :=
  let t' := LocalTime z t in
  UTC z (MakeDate (MakeDay (YearFromTime t') month (DateFromTime t'))
                  (TimeWithinDay t')).

Definition monthKey (z : Zone) (t : Z) : string :=
  String.app (pretty (getFullYear z t))
    (String.app "-" (String.app (padStart 2 "0" (pretty (getMonth z t + 1))) "-01")).

(** [generateDateRange]; a round moves the local date on by one day,
    which across a transition is an hour more or less than a day of
    time. *)
Definition generateDateRange (z : Zone) (start end_ : Z) : option (list string) :=
  snd <$> while_loop (S (Z.to_nat (Day end_ - Day start + 1)))
    (fun '(currentDate, dates) => currentDate <=? end_)
    (fun '(currentDate, dates) =>
       (setDate z currentDate (getDate z currentDate + 1),
        dates ++ [toISODate currentDate]))
    (start, []).

Definition generatePeriodRange (z : Zone) (start end_ : Z) (type : PeriodType)
    : option (list string) :=
  let fuel := S (S (Z.to_nat (Day end_ - Day start + 1))) in
  match type with
  | period_weekly =>
      let day := getDay z start in
      let diff := getDate z start - day + mondayOffset day in
      let current := setDate z start diff in
      snd <$> while_loop fuel
        (fun '(current, periods) => current <=? end_)
        (fun '(current, periods) =>
           (setDate z current (getDate z current + 7),
            periods ++ [toISODate current]))
        (current, [])
  | period_monthly =>
      let current := setDate z start 1 in
      snd <$> while_loop fuel
        (fun '(current, periods) => current <=? end_)
        (fun '(current, periods) =>
           (setMonth z current (getMonth z current + 1),
            periods ++ [monthKey z current]))
        (current, [])
  end.

Definition weekKey (z : Zone) (t : Z) : string :=
  let day := getDay z t in
  let diff := getDate z t - day + mondayOffset day in
  toISODate (setDate z t diff).

Definition groupKey (z : Zone) (aggregation : TimeAggregation) (t : Z) : string :=
  match aggregation with
  | weekly => weekKey z t
  | _ => monthKey z t
  end.

Definition addToGroup (z : Zone) (aggregation : TimeAggregation)
    (groups : gmap string (list RankingData)) (titem : Z * RankingData)
    : gmap string (list RankingData) :=
  let key := groupKey z aggregation (fst titem) in
  <[key := default [] (groups !! key) ++ [snd titem]]> groups.

Definition aggregatedData (z : Zone) (data : list RankingData)
    (aggregation : TimeAggregation) (startDate endDate : option string)
    : option (list AggregatedData) :=
  timed ← mapM with_time data;
  let sortedData := sort_by_time timed in
  range ←
    match truthy startDate, truthy endDate with
    | Some s, Some e =>
        dateRangeStart ← newDate s; dateRangeEnd ← newDate e;
        Some (Some (dateRangeStart, dateRangeEnd))
    | _, _ =>
        match sortedData with
        | first :: _ => Some (Some (fst first, fst (List.last sortedData first)))
        | [] => Some None
        end
    end;
  match range with
  | None => Some []
  | Some (dateRangeStart, dateRangeEnd) =>
      match aggregation with
      | daily =>
          let dataMap :=
            foldl (fun m titem => <[date (snd titem) := snd titem]> m) ∅ sortedData in
          allDates ← generateDateRange z dateRangeStart dateRangeEnd;
          Some (map (dailyPoint dataMap) allDates)
      | _ =>
          let groups := foldl (addToGroup z aggregation) ∅ sortedData in
          allPeriods ← generatePeriodRange z dateRangeStart dateRangeEnd
                          (periodTypeOf aggregation);
          Some (map (periodPoint groups) allPeriods)
      end
  end.

End Zoned.

(** Europe/London in 2025: British Summer Time, an hour ahead of UTC,
    from 2025-03-30T01:00Z to 2025-10-26T01:00Z; in local time, from 02:00
    on 30 March up to 02:00 on 26 October. *)
Definition london2025 : Zone :=
  mkZone
    (fun t => if (MakeDate (MakeDay 2025 2 30) 3600000 <=? t)
                 && (t <? MakeDate (MakeDay 2025 9 26) 3600000)
              then 3600000 else 0)
    (fun t => if (MakeDate (MakeDay 2025 2 30) 7200000 <=? t)
                 && (t <? MakeDate (MakeDay 2025 9 26) 7200000)
              then 3600000 else 0).

(** America/New_York in 2025: five hours behind UTC, four during
    daylight time, from 2025-03-09T07:00Z to 2025-11-02T06:00Z; in local
    time, from 03:00 on 9 March up to 02:00 on 2 November. *)
Definition newYork2025 : Zone :=
  mkZone
    (fun t => if (MakeDate (MakeDay 2025 2 9) 25200000 <=? t)
                 && (t <? MakeDate (MakeDay 2025 10 2) 21600000)
              then -14400000 else -18000000)
    (fun t => if (MakeDate (MakeDay 2025 2 9) 10800000 <=? t)
                 && (t <? MakeDate (MakeDay 2025 10 2) 7200000)
              then -14400000 else -18000000).

(** * The dashboard (Dashboard) *)



Definition setFullYear (tza t year : Z) : Z :=
  let t' := LocalTime tza t in
  UTC tza (MakeDate (MakeDay year (MonthFromTime t') (DateFromTime t'))
                    (TimeWithinDay t')).

(** [calculatePeriod]; [today] is the time value of [new Date()].  The
    result is [None] for ['all_time'] (null) and for any other label
    (undefined). *)
Definition calculatePeriod (tza today : Z) (periodType : string)
    : option (string * string) :=
  let endDate := today in
  let startDate := today in
  if String.eqb periodType "this_week" then
    let dayOfWeek := getDay tza today in
    let daysToMonday := if dayOfWeek =? 0 then 6 else dayOfWeek - 1 in
    let startDate := setDate tza startDate (getDate tza today - daysToMonday) in
    Some (toISODate startDate, toISODate endDate)
  else if String.eqb periodType "last_week" then
    let lastWeekEnd := today in
    let daysToLastSunday := if getDay tza today =? 0 then 0 else getDay tza today in
    let lastWeekEnd := setDate tza lastWeekEnd (getDate tza today - daysToLastSunday) in
    let endDate := getTime lastWeekEnd in
    let startDate := setDate tza startDate (getDate tza lastWeekEnd - 6) in
    Some (toISODate startDate, toISODate endDate)
  else if String.eqb periodType "past_1_month" then
    let startDate := setMonth tza startDate (getMonth tza today - 1) in
    Some (toISODate startDate, toISODate endDate)
  else if String.eqb periodType "past_3_months" then
    let startDate := setMonth tza startDate (getMonth tza today - 3) in
    Some (toISODate startDate, toISODate endDate)
  else if String.eqb periodType "past_6_months" then
    let startDate := setMonth tza startDate (getMonth tza today - 6) in
    Some (toISODate startDate, toISODate endDate)
  else if String.eqb periodType "past_1_year" then
    let startDate := setFullYear tza startDate (getFullYear tza today - 1) in
    Some (toISODate startDate, toISODate endDate)
  else None.

(** * The chart, continued (RankChart) *)

(** [spansMultipleYears]: the years of the points are collected in a
    set. *)
Definition spansMultipleYears (tza : Z) (aggregatedData : list AggregatedData)
    : option bool :=
  match aggregatedData with
  | [] => Some false
  | _ =>
      years ← mapM (fun item => getFullYear tza <$> newDate (agg_date item)) aggregatedData;
      Some (1 <? size (list_to_set years : gset Z))%nat
  end.

(** * Auxiliary notions of the statements *)

(** A string of decimal digits. *)
Fixpoint all_digits (s : string) : bool :=
  match s with
  | EmptyString => true
  | String c s' => is_digit c && all_digits s'
  end.

(** The captures of a date pattern are digits: four, then one or two,
    then one or two. *)
Definition captured (c : string * string * string) : Prop :=
  let '(y, m, d) := c in
  (all_digits y = true /\ String.length y = 4%nat)
  /\ (all_digits m = true /\ (String.length m = 1 \/ String.length m = 2)%nat)
  /\ (all_digits d = true /\ (String.length d = 1 \/ String.length d = 2)%nat).

(** Progress reports whose [current] values do not decrease and lie
    between [lo] and [hi], out of a [total] of ten. *)
Definition currents (reports : list (Z * Z * string)) : list Z :=
  map (fun x => fst (fst x)) reports.

Definition nondecreasing (l : list Z) : Prop :=
  forall i j a b, (i <= j)%nat -> l !! i = Some a -> l !! j = Some b -> a <= b.

Definition steps (lo hi : Z) (reports : list (Z * Z * string)) : Prop :=
  nondecreasing (currents reports)
  /\ Forall (fun x => lo <= fst (fst x) <= hi /\ snd (fst x) = 10) reports.

(** ** Cells within the exact range of the runtime's numbers *)



(** * Theorems *)

(** * Calendar arithmetic *)

Ltac zdiv := Z.div_mod_to_equations; lia.

(** Case analysis on a number that lies in a short list of values. *)
Ltac cases_in x l :=
  let H := fresh "Hin" in
  assert (H : x ∈ l) by (rewrite ?elem_of_cons, elem_of_nil; lia);
  repeat (apply elem_of_cons in H as [-> | H]);
  [.. | apply elem_of_nil in H; destruct H].

(** Case analysis on the conditions of the goal, innermost first. *)
Ltac case_ifs :=
  repeat match goal with
  | |- context [if ?b then _ else _] =>
      lazymatch b with
      | context [if _ then _ else _] => fail
      | _ => let E := fresh "E" in destruct b eqn:E
      end
  end.

Lemma days_from_civil_day y m d :
  days_from_civil y m d = days_from_civil y m 1 + d - 1.
Proof. unfold days_from_civil. cbv zeta. lia. Qed.

Lemma civil_from_days_inv n :
  let '(y, m, d) := civil_from_days n in days_from_civil y m d = n.
Proof.
  unfold civil_from_days, days_from_civil. cbv zeta.
  case_ifs; zdiv.
Qed.

Lemma civil_from_days_month n :
  1 <= snd (fst (civil_from_days n)) <= 12.
Proof.
  unfold civil_from_days. cbv zeta. cbn [fst snd].
  case_ifs; zdiv.
Qed.

Lemma civil_from_days_day n :
  let '(y, m, d) := civil_from_days n in 1 <= d <= daysInMonth y m.
Proof.
  unfold civil_from_days, daysInMonth, isLeapYear. cbv zeta.
  case_ifs; zdiv.
Qed.

Lemma month_of_doy mp d :
  0 <= mp <= 11 -> 1 <= d <= (153 * (mp + 1) + 2) / 5 - (153 * mp + 2) / 5 ->
  (5 * ((153 * mp + 2) / 5 + d - 1) + 2) / 153 = mp.
Proof.
  intros Hmp Hd.
  cases_in mp [0; 1; 2; 3; 4; 5; 6; 7; 8; 9; 10; 11]; zdiv.
Qed.

Lemma days_from_civil_inv y m d :
  1 <= m <= 12 -> 1 <= d <= daysInMonth y m ->
  civil_from_days (days_from_civil y m d) = (y, m, d).
Proof.
  intros Hm Hd. unfold days_from_civil. cbv zeta.
  set (y' := if m <=? 2 then y - 1 else y).
  set (mp := if m >? 2 then m - 3 else m + 9).
  set (era := y' / 400). set (yoe := y' - era * 400).
  set (doy := (153 * mp + 2) / 5 + d - 1).
  set (doe := yoe * 365 + yoe / 4 - yoe / 100 + doy).
  assert (Hyoe : 0 <= yoe <= 399) by (subst yoe era; zdiv).
  assert (Hmp : 0 <= mp <= 11) by (subst mp; case_ifs; lia).
  assert (Hm' : m = if mp <? 10 then mp + 3 else mp - 9)
    by (subst mp; case_ifs; lia).
  assert (Hdim : d <= (153 * (mp + 1) + 2) / 5 - (153 * mp + 2) / 5).
  { unfold daysInMonth in Hd. subst mp. revert Hd. case_ifs; intros; zdiv. }
  assert (Hmonth : (5 * doy + 2) / 153 = mp)
    by (apply month_of_doy; lia).
  assert (Hdoy : 0 <= doy) by (subst doy; zdiv).
  assert (Hleap : doe < 365 * (yoe + 1) + (yoe + 1) / 4 - (yoe + 1) / 100 + (yoe + 1) / 400).
  { unfold daysInMonth, isLeapYear in Hd. subst doe doy yoe era y' mp.
    revert Hd. case_ifs; intros; zdiv. }
  assert (Hdoe : 0 <= doe < 146097) by (subst doe; zdiv).
  unfold civil_from_days. cbv zeta.
  replace (era * 146097 + doe - 719468 + 719468) with (doe + era * 146097) by lia.
  rewrite Z.div_add by lia. rewrite (Z.div_small doe) by lia.
  replace (doe + era * 146097 - (0 + era) * 146097) with doe by lia.
  set (yoe' := (doe - doe / 1460 + doe / 36524 - doe / 146096) / 365).
  assert (Hy : yoe' = yoe).
  { subst yoe' doe. clearbody yoe doy. clear -Hyoe Hdoy Hleap. zdiv. }
  rewrite Hy.
  replace (doe - (365 * yoe + yoe / 4 - yoe / 100)) with doy by (subst doe; lia).
  rewrite Hmonth, <- Hm'.
  replace (doy - (153 * mp + 2) / 5 + 1) with d by (subst doy; lia).
  repeat apply f_equal2; try reflexivity.
  subst yoe y'. case_ifs; lia.
Qed.

(** * Time values and the [Date] methods *)

Lemma msPerDay_pos : 0 < msPerDay.
Proof. reflexivity. Qed.

Lemma MakeDate_Day t : MakeDate (Day t) (TimeWithinDay t) = t.
Proof. unfold MakeDate, Day, TimeWithinDay, msPerDay. zdiv. Qed.

Lemma Day_MakeDate d tm : 0 <= tm < msPerDay -> Day (MakeDate d tm) = d.
Proof. unfold MakeDate, Day, msPerDay. intros. zdiv. Qed.

Lemma Day_shift t k : Day (t + k * msPerDay) = Day t + k.
Proof. unfold Day. apply Z.div_add. discriminate. Qed.

Lemma TimeWithinDay_shift t k : TimeWithinDay (t + k * msPerDay) = TimeWithinDay t.
Proof. unfold TimeWithinDay. apply Z.mod_add. discriminate. Qed.

Lemma civil_of_time t :
  civil_from_days (Day t) = (YearFromTime t, MonthFromTime t + 1, DateFromTime t).
Proof.
  unfold YearFromTime, MonthFromTime, DateFromTime.
  destruct (civil_from_days (Day t)) as [[y m] d]. cbn. f_equal. f_equal. lia.
Qed.

Lemma MonthFromTime_range t : 0 <= MonthFromTime t <= 11.
Proof.
  unfold MonthFromTime. pose proof (civil_from_days_month (Day t)). lia.
Qed.

Lemma DateFromTime_range t : 1 <= DateFromTime t <= 31.
Proof.
  pose proof (civil_from_days_day (Day t)) as H.
  rewrite civil_of_time in H. unfold daysInMonth in H.
  revert H. case_ifs; lia.
Qed.

(** [MakeDay] on the fields of a time value moves by whole days. *)
Lemma MakeDay_of_time t dt :
  MakeDay (YearFromTime t) (MonthFromTime t) dt = Day t + dt - DateFromTime t.
Proof.
  pose proof (MonthFromTime_range t) as Hm.
  pose proof (civil_from_days_inv (Day t)) as Hinv.
  rewrite civil_of_time in Hinv.
  unfold MakeDay. cbv zeta.
  rewrite Z.div_small, Z.mod_small, Z.add_0_r by lia.
  rewrite days_from_civil_day in Hinv. lia.
Qed.

(** [d.setDate(n)] moves the time value by [n - d.getDate()] days, in every
    zone. *)
Lemma setDate_shift tza t dt :
  setDate tza t dt = t + (dt - getDate tza t) * msPerDay.
Proof.
  unfold setDate, getDate, UTC. cbv zeta.
  rewrite MakeDay_of_time. unfold MakeDate.
  pose proof (MakeDate_Day (LocalTime tza t)) as H. unfold MakeDate in H.
  unfold LocalTime in *. lia.
Qed.
(** * Loops *)

Lemma orbit_length {A} n (next : A -> A) c : length (orbit n next c) = n.
Proof. revert c. induction n; intros; cbn; auto. Qed.

Lemma orbit_ext {A} n (f g : A -> A) c :
  (forall x, f x = g x) -> orbit n f c = orbit n g c.
Proof.
  intros Hfg. revert c. induction n as [|n IH]; intros c; cbn; [reflexivity|].
  rewrite Hfg. f_equal. apply IH.
Qed.

Lemma orbit_lookup {A} n (next : A -> A) c i :
  (i < n)%nat -> orbit n next c !! i = Some (Nat.iter i next c).
Proof.
  revert c i. induction n as [|n IH]; intros c i Hi; [lia|].
  destruct i as [|i]; cbn [orbit]; [reflexivity|].
  cbn [lookup list_lookup]. rewrite IH by lia. rewrite Nat.iter_succ_r. reflexivity.
Qed.

(** A loop that advances [c] by [next] while [cond c], collecting [f c],
    stops as soon as [cond] fails, given fuel for the rounds it makes. *)
Lemma while_orbit {A B} (cond : A -> bool) (next : A -> A) (f : A -> B) n :
  forall fuel c acc,
    (n < fuel)%nat ->
    (forall i, (i < n)%nat -> cond (Nat.iter i next c) = true) ->
    cond (Nat.iter n next c) = false ->
    while_loop fuel (fun '(c, _) => cond c)
      (fun '(c, acc) => (next c, acc ++ [f c])) (c, acc)
    = Some (Nat.iter n next c, acc ++ map f (orbit n next c)).
Proof.
  induction n as [|n IH]; intros fuel c acc Hfuel Htrue Hfalse.
  - destruct fuel as [|fuel]; [lia|]. cbn in *. rewrite Hfalse.
    rewrite app_nil_r. reflexivity.
  - destruct fuel as [|fuel]; [lia|]. cbn [while_loop].
    pose proof (Htrue 0%nat ltac:(lia)) as H0. cbn in H0. rewrite H0.
    rewrite IH.
    + rewrite Nat.iter_succ_r. cbn [orbit map]. rewrite <- app_assoc. reflexivity.
    + lia.
    + intros i Hi. rewrite <- Nat.iter_succ_r. apply Htrue. lia.
    + rewrite <- Nat.iter_succ_r. exact Hfalse.
Qed.

Lemma iter_ext {A} n (f g : A -> A) c :
  (forall x, f x = g x) -> Nat.iter n f c = Nat.iter n g c.
Proof.
  intros Hfg. induction n as [|n IH]; [reflexivity|].
  rewrite !Nat.iter_succ, IH. apply Hfg.
Qed.

Lemma iter_add_days i c : Nat.iter i (fun x => x + msPerDay) c = c + Z.of_nat i * msPerDay.
Proof.
  induction i as [|i IH]; [cbn; lia|].
  rewrite Nat.iter_succ, IH. lia.
Qed.

Lemma iter_add_step k i c : Nat.iter i (fun x => x + k) c = c + Z.of_nat i * k.
Proof.
  induction i as [|i IH]; [cbn; lia|].
  rewrite Nat.iter_succ, IH. lia.
Qed.

Lemma generateDateRange_eq tza start end_ :
  generateDateRange tza start end_ =
  Some (map toISODate
          (orbit (steps_upto start end_ msPerDay) (fun c => c + msPerDay) start)).
Proof.
  unfold generateDateRange.
  set (n := steps_upto start end_ msPerDay).
  rewrite (while_orbit (fun c => c <=? end_)
             (fun c => setDate tza c (getDate tza c + 1)) toISODate n).
  - rewrite (orbit_ext _ _ (fun c => c + msPerDay))
      by (intros; rewrite setDate_shift; lia).
    reflexivity.
  - subst n. unfold steps_upto, Day, msPerDay. zdiv.
  - intros i Hi.
    rewrite (iter_ext _ _ (fun x => x + msPerDay))
      by (intros; rewrite setDate_shift; lia).
    rewrite iter_add_step. subst n. unfold steps_upto, msPerDay in *.
    apply Z.leb_le. zdiv.
  - rewrite (iter_ext _ _ (fun x => x + msPerDay))
      by (intros; rewrite setDate_shift; lia).
    rewrite iter_add_step. subst n. unfold steps_upto, msPerDay in *.
    apply Z.leb_gt. zdiv.
Qed.
(** * Decimal rendering *)

Lemma pretty_digit n : 0 <= n <= 9 ->
  pretty n = String (pretty_N_char (Z.to_N n)) EmptyString.
Proof.
  intros H.
  cases_in n [0; 1; 2; 3; 4; 5; 6; 7; 8; 9]; reflexivity.
Qed.

Lemma pretty_pos_go n : 0 < n ->
  pretty n = pretty_N_go (Z.to_N n) EmptyString.
Proof.
  intros H. destruct n as [|p|p]; try lia.
  unfold pretty, pretty_Z, pretty, pretty_positive, pretty, pretty_N.
  destruct (decide (N.pos p = 0%N)); [discriminate|reflexivity].
Qed.

Lemma pretty_N_go_digit n s : (0 < n < 10)%N ->
  pretty_N_go n s = String (pretty_N_char n) s.
Proof.
  intros H. rewrite pretty_N_go_step by lia.
  rewrite N.div_small, N.mod_small by lia. apply pretty_N_go_0.
Qed.

Lemma pretty_2 n : 10 <= n <= 99 ->
  pretty n = String (dchar (n / 10)) (String (dchar (n mod 10)) EmptyString).
Proof.
  intros H. rewrite pretty_pos_go by lia.
  rewrite pretty_N_go_step by lia.
  rewrite pretty_N_go_digit.
  - unfold dchar. rewrite Z2N.inj_div, Z2N.inj_mod by lia. reflexivity.
  - change 10%N with (Z.to_N 10). rewrite <- Z2N.inj_div by lia. zdiv.
Qed.

Lemma pretty_3 n : 100 <= n <= 999 ->
  pretty n = String (dchar (n / 100)) (String (dchar (n / 10 mod 10))
               (String (dchar (n mod 10)) EmptyString)).
Proof.
  intros H. rewrite pretty_pos_go by lia.
  rewrite pretty_N_go_step by lia.
  rewrite pretty_N_go_step
    by (change 10%N with (Z.to_N 10); rewrite <- Z2N.inj_div by lia; zdiv).
  rewrite pretty_N_go_digit.
  - unfold dchar. change 10%N with (Z.to_N 10).
    rewrite <- !Z2N.inj_div, <- !Z2N.inj_mod by zdiv.
    rewrite Z.div_div by lia. reflexivity.
  - change 10%N with (Z.to_N 10). rewrite <- !Z2N.inj_div by zdiv. zdiv.
Qed.

Lemma pretty_4 n : 1000 <= n <= 9999 ->
  pretty n = String (dchar (n / 1000)) (String (dchar (n / 100 mod 10))
               (String (dchar (n / 10 mod 10)) (String (dchar (n mod 10)) EmptyString))).
Proof.
  intros H. rewrite pretty_pos_go by lia.
  rewrite pretty_N_go_step by lia.
  rewrite pretty_N_go_step
    by (change 10%N with (Z.to_N 10); rewrite <- Z2N.inj_div by lia; zdiv).
  rewrite pretty_N_go_step
    by (change 10%N with (Z.to_N 10); rewrite <- !Z2N.inj_div by zdiv; zdiv).
  rewrite pretty_N_go_digit.
  - unfold dchar. change 10%N with (Z.to_N 10).
    rewrite <- !Z2N.inj_div, <- !Z2N.inj_mod by zdiv.
    rewrite !Z.div_div by lia. reflexivity.
  - change 10%N with (Z.to_N 10). rewrite <- !Z2N.inj_div by zdiv. zdiv.
Qed.

Lemma isoYear_digits y : 0 <= y <= 9999 ->
  isoYear y = String (dchar (y / 1000)) (String (dchar (y / 100 mod 10))
                (String (dchar (y / 10 mod 10)) (String (dchar (y mod 10)) EmptyString))).
Proof.
  intros H. unfold isoYear.
  replace ((0 <=? y) && (y <=? 9999)) with true by lia.
  assert (Hc : y <= 9 \/ 10 <= y <= 99 \/ 100 <= y <= 999 \/ 1000 <= y) by lia.
  destruct Hc as [Hc|[Hc|[Hc|Hc]]].
  - rewrite pretty_digit by lia. cbn.
    replace (y / 1000) with 0 by zdiv. replace (y / 100 mod 10) with 0 by zdiv.
    replace (y / 10 mod 10) with 0 by zdiv. replace (y mod 10) with y by zdiv.
    reflexivity.
  - rewrite pretty_2 by lia. cbn.
    replace (y / 1000) with 0 by zdiv. replace (y / 100 mod 10) with 0 by zdiv.
    replace (y / 10 mod 10) with (y / 10) by zdiv. reflexivity.
  - rewrite pretty_3 by lia. cbn.
    replace (y / 1000) with 0 by zdiv. replace (y / 100 mod 10) with (y / 100) by zdiv.
    reflexivity.
  - rewrite pretty_4 by lia. reflexivity.
Qed.

Lemma pad2_digits n : 0 <= n <= 99 ->
  padStart 2 "0" (pretty n) = String (dchar (n / 10)) (String (dchar (n mod 10)) EmptyString).
Proof.
  intros H. destruct (Z_lt_le_dec n 10).
  - rewrite pretty_digit by lia. cbn.
    replace (n / 10) with 0 by zdiv. replace (n mod 10) with n by zdiv. reflexivity.
  - rewrite pretty_2 by lia. reflexivity.
Qed.

Lemma digit_val_dchar n : 0 <= n <= 9 -> digit_val (dchar n) = Some n.
Proof.
  intros H.
  cases_in n [0; 1; 2; 3; 4; 5; 6; 7; 8; 9]; reflexivity.
Qed.

Lemma num2_dchar a b : 0 <= a <= 9 -> 0 <= b <= 9 ->
  num2 (dchar a) (dchar b) = Some (10 * a + b).
Proof.
  intros Ha Hb. unfold num2. rewrite !digit_val_dchar by lia. reflexivity.
Qed.

Lemma append_cons c s s' : String.app (String c s) s' = String c (String.app s s').
Proof. reflexivity. Qed.

Lemma append_nil s : String.app EmptyString s = s.
Proof. reflexivity. Qed.

(** The serialised date of a time value in the years 0..9999 reads back
    as the calendar date of its day. *)
Lemma parseDateOnly_toISODate t :
  0 <= YearFromTime t <= 9999 ->
  parseDateOnly (toISODate t) = Some (YearFromTime t, MonthFromTime t + 1, DateFromTime t).
Proof.
  intros Hy. pose proof (MonthFromTime_range t) as Hm.
  pose proof (DateFromTime_range t) as Hd.
  pose proof (civil_from_days_day (Day t)) as Hdim. rewrite civil_of_time in Hdim.
  unfold toISODate. rewrite isoYear_digits, !pad2_digits by lia.
  rewrite !append_cons, !append_nil. cbn [parseDateOnly].
  rewrite !num2_dchar by zdiv.
  replace (100 * (10 * (YearFromTime t / 1000) + YearFromTime t / 100 mod 10)
           + (10 * (YearFromTime t / 10 mod 10) + YearFromTime t mod 10))
    with (YearFromTime t) by zdiv.
  replace (10 * ((MonthFromTime t + 1) / 10) + (MonthFromTime t + 1) mod 10)
    with (MonthFromTime t + 1) by zdiv.
  replace (10 * (DateFromTime t / 10) + DateFromTime t mod 10)
    with (DateFromTime t) by zdiv.
  replace (_ && _ && _ && _) with true by lia.
  reflexivity.
Qed.

Lemma newDate_toISODate t :
  0 <= YearFromTime t <= 9999 -> newDate (toISODate t) = Some (MakeDate (Day t) 0).
Proof.
  intros Hy. unfold newDate. rewrite parseDateOnly_toISODate by exact Hy.
  f_equal. f_equal.
  replace (MonthFromTime t + 1 - 1) with (MonthFromTime t) by lia.
  rewrite MakeDay_of_time. lia.
Qed.
Lemma year_range n :
  days_from_civil 0 1 1 <= n <= days_from_civil 9999 12 31 ->
  0 <= fst (fst (civil_from_days n)) <= 9999.
Proof.
  change (days_from_civil 0 1 1) with (-719528).
  change (days_from_civil 9999 12 31) with 2932896.
  unfold civil_from_days. cbv zeta. cbn [fst snd]. intros H.
  case_ifs; zdiv.
Qed.

Lemma days_from_civil_mono_year y m d :
  0 <= y <= 9999 -> 1 <= m <= 12 -> 1 <= d <= 31 ->
  days_from_civil 0 1 1 <= days_from_civil y m d <= days_from_civil 9999 12 31.
Proof.
  change (days_from_civil 0 1 1) with (-719528).
  change (days_from_civil 9999 12 31) with 2932896.
  unfold days_from_civil. cbv zeta. intros Hy Hm Hd.
  case_ifs; zdiv.
Qed.

Lemma digit_val_range c v : digit_val c = Some v -> 0 <= v <= 9.
Proof.
  unfold digit_val. cbv zeta. case_ifs; [|discriminate].
  intros [= <-]. lia.
Qed.

Lemma num2_range a b v : num2 a b = Some v -> 0 <= v <= 99.
Proof.
  unfold num2.
  destruct (digit_val a) as [x|] eqn:Ha; [|discriminate].
  destruct (digit_val b) as [y|] eqn:Hb; [|discriminate].
  apply digit_val_range in Ha, Hb. intros [= <-]. lia.
Qed.

Lemma parseDateOnly_range s y m d :
  parseDateOnly s = Some (y, m, d) ->
  0 <= y <= 9999 /\ 1 <= m <= 12 /\ 1 <= d <= daysInMonth y m.
Proof.
  unfold parseDateOnly.
  do 10 (destruct s as [|? s]; [discriminate|]).
  destruct s; [|discriminate].
  destruct (_ && _); [|discriminate].
  repeat match goal with
  | |- context [num2 ?a ?b] =>
      let E := fresh "E" in destruct (num2 a b) eqn:E; try discriminate
  end.
  cbv zeta.
  match goal with
  | |- (if ?c then _ else _) = _ -> _ =>
      let E := fresh "E" in destruct c eqn:E; try discriminate
  end.
  intros [= <- <- <-].
  repeat match goal with H : num2 _ _ = Some _ |- _ => apply num2_range in H end.
  lia.
Qed.
(** What [new Date(s)] denotes: midnight UTC of the calendar date that the
    string spells. *)
Lemma newDate_spec s t :
  newDate s = Some t ->
  exists y m d,
    parseDateOnly s = Some (y, m, d)
    /\ t = MakeDate (days_from_civil y m d) 0
    /\ Day t = days_from_civil y m d
    /\ civil_from_days (Day t) = (y, m, d)
    /\ 0 <= y <= 9999.
Proof.
  unfold newDate. destruct (parseDateOnly s) as [[[y m] d]|] eqn:Hp; [|discriminate].
  intros [= <-]. apply parseDateOnly_range in Hp as Hr. destruct Hr as (Hy & Hm & Hd).
  exists y, m, d.
  assert (HMD : MakeDay y (m - 1) d = days_from_civil y m d).
  { unfold MakeDay. cbv zeta. rewrite Z.div_small, Z.mod_small by lia.
    rewrite (days_from_civil_day y m d). f_equal. f_equal. f_equal; lia. }
  rewrite HMD. rewrite Day_MakeDate by (unfold msPerDay; lia).
  repeat split; try lia. apply days_from_civil_inv; assumption.
Qed.

Lemma newDate_midnight s t : newDate s = Some t -> t = MakeDate (Day t) 0.
Proof.
  intros H. apply newDate_spec in H as (y & m & d & _ & Ht & HD & _).
  rewrite HD. exact Ht.
Qed.

Lemma newDate_year_range s t : newDate s = Some t ->
  days_from_civil 0 1 1 <= Day t <= days_from_civil 9999 12 31.
Proof.
  intros H. apply newDate_spec in H as (y & m & d & Hp & _ & HD & _ & Hy).
  apply parseDateOnly_range in Hp as (_ & Hm & Hd). rewrite HD.
  apply days_from_civil_mono_year; try lia.
  unfold daysInMonth in Hd. revert Hd. case_ifs; lia.
Qed.

(** Serialising is injective on the days of the years 0..9999. *)
Lemma toISODate_inj_days a b :
  days_from_civil 0 1 1 <= a <= days_from_civil 9999 12 31 ->
  days_from_civil 0 1 1 <= b <= days_from_civil 9999 12 31 ->
  toISODate (MakeDate a 0) = toISODate (MakeDate b 0) -> a = b.
Proof.
  intros Ha Hb Heq.
  assert (Hda : Day (MakeDate a 0) = a) by (apply Day_MakeDate; unfold msPerDay; lia).
  assert (Hdb : Day (MakeDate b 0) = b) by (apply Day_MakeDate; unfold msPerDay; lia).
  pose proof (newDate_toISODate (MakeDate a 0)) as Pa.
  pose proof (newDate_toISODate (MakeDate b 0)) as Pb.
  unfold YearFromTime in Pa, Pb. rewrite Hda in Pa. rewrite Hdb in Pb.
  specialize (Pa (year_range a Ha)). specialize (Pb (year_range b Hb)).
  rewrite Heq in Pa. rewrite Pa in Pb. injection Pb as Pb. unfold MakeDate in Pb.
  unfold msPerDay in Pb. lia.
Qed.

(** * Sorting and the lookup tables *)

Lemma insert_sorted_perm x l : insert_sorted x l ≡ₚ x :: l.
Proof.
  induction l as [|y l IH]; cbn; [reflexivity|].
  destruct (fst x <=? fst y); [reflexivity|].
  rewrite IH. apply Permutation_swap.
Qed.

Lemma sort_by_time_perm l : sort_by_time l ≡ₚ l.
Proof.
  induction l as [|x l IH]; cbn; [reflexivity|].
  unfold sort_by_time in IH. rewrite insert_sorted_perm, IH. reflexivity.
Qed.

Lemma with_time_all data :
  Forall (fun f => is_Some (newDate (date f))) data ->
  exists timed, mapM with_time data = Some timed
    /\ map snd timed = data
    /\ Forall (fun tf => newDate (date (snd tf)) = Some (fst tf)) timed.
Proof.
  induction 1 as [|f data [t Ht] _ (timed & Hm & Hs & Hall)].
  - exists []. repeat split; constructor.
  - exists ((t, f) :: timed). apply mapM_Some in Hm. repeat split.
    + apply mapM_Some. constructor; [|exact Hm].
      unfold with_time. rewrite Ht. reflexivity.
    + cbn. f_equal. exact Hs.
    + constructor; [exact Ht|exact Hall].
Qed.
Lemma dataMap_lookup_None (l : list (Z * RankingData)) (m : gmap string RankingData) k :
  foldl (fun m titem => <[date (snd titem) := snd titem]> m) m l !! k = None <->
  m !! k = None /\ forall x, x ∈ l -> date (snd x) <> k.
Proof.
  revert m. induction l as [|x l IH]; intros m; cbn [foldl].
  - split; [intros H; split; [exact H|]|intros [H _]; exact H].
    intros x Hx. inversion Hx.
  - rewrite IH. split.
    + intros [Hm Hl].
      destruct (decide (date (snd x) = k)) as [Heq|Hne].
      * subst k. rewrite lookup_insert_eq in Hm. discriminate.
      * rewrite lookup_insert_ne in Hm by exact Hne. split; [exact Hm|].
        intros y Hy. apply elem_of_cons in Hy as [->|Hy]; [exact Hne|apply Hl, Hy].
    + intros [Hm Hl]. split.
      * rewrite lookup_insert_ne; [exact Hm|]. apply Hl. left.
      * intros y Hy. apply Hl. right. exact Hy.
Qed.

Lemma dataMap_lookup_Some (l : list (Z * RankingData)) (m : gmap string RankingData) k v :
  foldl (fun m titem => <[date (snd titem) := snd titem]> m) m l !! k = Some v ->
  m !! k = Some v \/ (v ∈ map snd l /\ date v = k).
Proof.
  revert m. induction l as [|x l IH]; intros m; cbn [foldl]; [auto|].
  intros H. apply IH in H as [H|[H1 H2]].
  - destruct (decide (date (snd x) = k)) as [Heq|Hne].
    + subst k. rewrite lookup_insert_eq in H. injection H as <-.
      right. split; [left|reflexivity].
    + rewrite lookup_insert_ne in H by exact Hne. left. exact H.
  - right. split; [right; exact H1|exact H2].
Qed.

Lemma dailyPoint_date (dataMap : gmap string RankingData) d :
  (forall k v, dataMap !! k = Some v -> date v = k) ->
  agg_date (dailyPoint dataMap d) = d.
Proof.
  intros Hk. unfold dailyPoint. destruct (dataMap !! d) as [v|] eqn:E; [|reflexivity].
  cbn. apply Hk. exact E.
Qed.

(** The daily series in closed form: one point per step of one day from
    the start, for every constant zone offset. *)
Lemma aggregatedData_daily_eq tza data startDate endDate s e :
  newDate startDate = Some s -> newDate endDate = Some e ->
  Forall (fun f => is_Some (newDate (date f))) data ->
  exists dataMap,
    aggregatedData tza data daily (Some startDate) (Some endDate) =
      Some (map (dailyPoint dataMap)
              (map toISODate (orbit (steps_upto s e msPerDay) (fun c => c + msPerDay) s)))
    /\ (forall k, dataMap !! k = None <-> forall f, f ∈ data -> date f <> k)
    /\ (forall k v, dataMap !! k = Some v -> v ∈ data /\ date v = k).
Proof.
  intros Hs He Hdata.
  destruct (with_time_all data Hdata) as (timed & Hm & Hsnd & _).
  exists (foldl (fun m titem => <[date (snd titem) := snd titem]> m) ∅ (sort_by_time timed)).
  split; [|split].
  - unfold aggregatedData. rewrite Hm. cbn [mbind option_bind].
    assert (Ht1 : truthy (Some startDate) = Some startDate).
    { destruct startDate; [discriminate Hs|reflexivity]. }
    assert (Ht2 : truthy (Some endDate) = Some endDate).
    { destruct endDate; [discriminate He|reflexivity]. }
    rewrite Ht1, Ht2, Hs, He. cbn [mbind option_bind].
    rewrite generateDateRange_eq. reflexivity.
  - intros k. rewrite dataMap_lookup_None. split.
    + intros [_ H] f Hf. subst data. apply list_elem_of_fmap in Hf as (x & -> & Hx).
      apply H. rewrite sort_by_time_perm. exact Hx.
    + intros H. split; [apply lookup_empty|]. intros x Hx. apply H.
      subst data. apply list_elem_of_fmap. exists x. split; [reflexivity|].
      rewrite <- sort_by_time_perm. exact Hx.
  - intros k v H. apply dataMap_lookup_Some in H as [H|[H1 H2]].
    + rewrite lookup_empty in H. discriminate.
    + split; [|exact H2]. subst data.
      apply list_elem_of_fmap in H1 as (x & -> & Hx).
      apply list_elem_of_fmap. exists x. split; [reflexivity|].
      rewrite <- sort_by_time_perm. exact Hx.
Qed.
Lemma steps_upto_days s e :
  s = MakeDate (Day s) 0 -> e = MakeDate (Day e) 0 -> s <= e ->
  Z.of_nat (steps_upto s e msPerDay) = Day e - Day s + 1.
Proof.
  unfold steps_upto, MakeDate, Day, msPerDay. intros Hs He Hle. zdiv.
Qed.

Lemma dailyPoints_dates (dataMap : gmap string RankingData) l :
  (forall k v, dataMap !! k = Some v -> date v = k) ->
  map agg_date (map (dailyPoint dataMap) l) = l.
Proof.
  intros Hk. induction l as [|d l IH]; cbn; [reflexivity|].
  rewrite dailyPoint_date by exact Hk. f_equal. exact IH.
Qed.

(** X26: in a runtime zone of constant offset [tza], for every start date
    and end date with start <= end and every fact list, the daily
    aggregation yields exactly one point per calendar date of the range,
    in order and without gaps: as many points as there are days between
    start and end, plus one; the point of the i-th day carries that day's
    date; it is the out-of-range sentinel point when no fact has that date
    and carries the rank of a fact of that date otherwise; no date occurs
    twice.  Where the offset changes within the range this fails. *)
Theorem daily_series_dense tza data startDate endDate s e :
  newDate startDate = Some s -> newDate endDate = Some e -> s <= e ->
  Forall (fun f => is_Some (newDate (date f))) data ->
  exists pts,
    aggregatedData tza data daily (Some startDate) (Some endDate) = Some pts
    /\ Z.of_nat (length pts) = Day e - Day s + 1
    /\ (forall i, 0 <= i <= Day e - Day s ->
        exists p, pts !! Z.to_nat i = Some p
          /\ agg_date p = toISODate (MakeDate (Day s + i) 0)
          /\ ((forall f, f ∈ data -> date f <> agg_date p) ->
              p = outOfRangePoint (agg_date p))
          /\ ((exists f, f ∈ data /\ date f = agg_date p) ->
              exists g, g ∈ data /\ date g = agg_date p
                /\ p = mkAggregatedData (date g) (Some (rank g))
                         (rank g) (rank g) (rank g) 1 false))
    /\ NoDup (map agg_date pts).
Proof.
  intros Hs He Hle Hdata.
  destruct (aggregatedData_daily_eq tza data startDate endDate s e Hs He Hdata)
    as (dataMap & Heq & HNone & HSome).
  pose proof (newDate_midnight _ _ Hs) as Hs0.
  pose proof (newDate_midnight _ _ He) as He0.
  pose proof (steps_upto_days s e Hs0 He0 Hle) as Hn.
  set (n := steps_upto s e msPerDay) in *.
  assert (Hkey : forall k v, dataMap !! k = Some v -> date v = k)
    by (intros k v H; apply (HSome k v H)).
  eexists. split; [exact Heq|]. split; [|split].
  - rewrite !length_map, orbit_length. exact Hn.
  - intros i Hi.
    assert (Hlt : (Z.to_nat i < n)%nat) by lia.
    exists (dailyPoint dataMap (toISODate (MakeDate (Day s + i) 0))).
    assert (Hd : agg_date (dailyPoint dataMap (toISODate (MakeDate (Day s + i) 0)))
                 = toISODate (MakeDate (Day s + i) 0))
      by (apply dailyPoint_date, Hkey).
    split; [|split; [exact Hd|split]].
    + rewrite !list_lookup_fmap, orbit_lookup by exact Hlt.
      rewrite iter_add_step. cbn. do 3 f_equal.
      rewrite Z2Nat.id by lia. unfold MakeDate in *. lia.
    + rewrite Hd. intros Hno. apply HNone in Hno.
      unfold dailyPoint. rewrite Hno. reflexivity.
    + rewrite Hd. intros (f & Hf & Hfd).
      unfold dailyPoint.
      destruct (dataMap !! toISODate (MakeDate (Day s + i) 0)) as [v|] eqn:E.
      * destruct (HSome _ _ E) as [Hin Hdv]. exists v.
        split; [exact Hin|]. split; [exact Hdv|reflexivity].
      * exfalso. apply (proj1 (HNone _) E f Hf Hfd).
  - rewrite dailyPoints_dates by exact Hkey.
    apply NoDup_alt. intros i j x Hi Hj.
    pose proof (lookup_lt_Some _ _ _ Hi) as Li. pose proof (lookup_lt_Some _ _ _ Hj) as Lj.
    rewrite length_map, orbit_length in Li, Lj.
    rewrite list_lookup_fmap, orbit_lookup, iter_add_step in Hi, Hj by assumption.
    cbn in Hi, Hj. injection Hi as Hi. injection Hj as Hj.
    pose proof (newDate_year_range _ _ Hs) as Rs.
    pose proof (newDate_year_range _ _ He) as Re.
    assert (Day s + Z.of_nat i = Day s + Z.of_nat j); [|lia].
    apply toISODate_inj_days; try lia.
    replace (MakeDate (Day s + Z.of_nat i) 0) with (s + Z.of_nat i * msPerDay)
      by (unfold MakeDate in *; lia).
    replace (MakeDate (Day s + Z.of_nat j) 0) with (s + Z.of_nat j * msPerDay)
      by (unfold MakeDate in *; lia).
    congruence.
Qed.
(** * Weekly buckets *)

Lemma WeekDay_range t : 0 <= WeekDay t <= 6.
Proof. unfold WeekDay. zdiv. Qed.

(** [startOfWeek.setDate(diff)] moves back to the Monday of the local week. *)
Lemma week_start_shift tza t :
  let day := getDay tza t in
  setDate tza t (getDate tza t - day + mondayOffset day)
  = t - ((Day (LocalTime tza t) + 3) mod 7) * msPerDay.
Proof.
  cbv zeta. rewrite setDate_shift. unfold getDay, WeekDay, mondayOffset, msPerDay.
  case_ifs; zdiv.
Qed.

Lemma weekKey_eq tza t :
  weekKey tza t = toISODate (t - ((Day (LocalTime tza t) + 3) mod 7) * msPerDay).
Proof. unfold weekKey. cbv zeta. rewrite week_start_shift. reflexivity. Qed.

Lemma generatePeriodRange_weekly_eq tza start end_ :
  let c0 := start - ((Day (LocalTime tza start) + 3) mod 7) * msPerDay in
  generatePeriodRange tza start end_ period_weekly =
  Some (map toISODate
          (orbit (steps_upto c0 end_ (7 * msPerDay)) (fun c => c + 7 * msPerDay) c0)).
Proof.
  cbv zeta. unfold generatePeriodRange. cbv zeta. rewrite week_start_shift.
  set (c0 := start - _ * msPerDay).
  set (n := steps_upto c0 end_ (7 * msPerDay)).
  rewrite (while_orbit (fun c => c <=? end_)
             (fun c => setDate tza c (getDate tza c + 7)) toISODate n).
  - rewrite (orbit_ext _ _ (fun c => c + 7 * msPerDay))
      by (intros; rewrite setDate_shift; lia).
    reflexivity.
  - subst n c0. unfold steps_upto, Day, LocalTime, msPerDay. zdiv.
  - intros i Hi.
    rewrite (iter_ext _ _ (fun x => x + 7 * msPerDay))
      by (intros; rewrite setDate_shift; lia).
    rewrite iter_add_step. subst n. unfold steps_upto, msPerDay in *.
    apply Z.leb_le. zdiv.
  - rewrite (iter_ext _ _ (fun x => x + 7 * msPerDay))
      by (intros; rewrite setDate_shift; lia).
    rewrite iter_add_step. subst n. unfold steps_upto, msPerDay in *.
    apply Z.leb_gt. zdiv.
Qed.
Lemma groups_lookup tza aggregation (l : list (Z * RankingData)) key :
  foldl (addToGroup tza aggregation) ∅ l !! key =
  match itemsOf tza aggregation key l with
  | [] => None
  | items => Some items
  end.
Proof.
  induction l as [|x l IH] using rev_ind; [apply lookup_empty|].
  rewrite foldl_app. cbn [foldl]. unfold addToGroup at 1.
  unfold itemsOf in *. rewrite filter_app, map_app.
  destruct (decide (groupKey tza aggregation (fst x) = key)) as [Heq|Hne].
  - rewrite Heq, lookup_insert_eq, IH.
    rewrite filter_cons_True by exact Heq. cbn.
    destruct (map snd (filter _ l)); reflexivity.
  - rewrite lookup_insert_ne by exact Hne. rewrite IH.
    rewrite filter_cons_False by exact Hne. cbn. rewrite app_nil_r. reflexivity.
Qed.

Lemma periodPoint_date (groups : gmap string (list RankingData)) key :
  agg_date (periodPoint groups key) = key.
Proof.
  unfold periodPoint. destruct (groups !! key) as [[|? ?]|]; reflexivity.
Qed.

Lemma periodPoints_dates (groups : gmap string (list RankingData)) l :
  map agg_date (map (periodPoint groups) l) = l.
Proof.
  induction l as [|k l IH]; cbn; [reflexivity|].
  rewrite periodPoint_date. f_equal. exact IH.
Qed.

(** The weekly and monthly series: the points of the generated periods,
    over the facts grouped by key. *)
Lemma aggregatedData_periods_eq tza data aggregation startDate endDate s e periods :
  aggregation <> daily ->
  newDate startDate = Some s -> newDate endDate = Some e ->
  Forall (fun f => is_Some (newDate (date f))) data ->
  generatePeriodRange tza s e (periodTypeOf aggregation) = Some periods ->
  exists timed,
    mapM with_time data = Some timed
    /\ aggregatedData tza data aggregation (Some startDate) (Some endDate) =
       Some (map (periodPoint (foldl (addToGroup tza aggregation) ∅ (sort_by_time timed)))
               periods).
Proof.
  intros Hagg Hs He Hdata Hper.
  destruct (with_time_all data Hdata) as (timed & Hm & Hsnd & _).
  exists timed. split; [exact Hm|].
  unfold aggregatedData. rewrite Hm. cbn [mbind option_bind].
  assert (Ht1 : truthy (Some startDate) = Some startDate).
  { destruct startDate; [discriminate Hs|reflexivity]. }
  assert (Ht2 : truthy (Some endDate) = Some endDate).
  { destruct endDate; [discriminate He|reflexivity]. }
  rewrite Ht1, Ht2, Hs, He. cbn [mbind option_bind].
  destruct aggregation; [contradiction| |]; rewrite Hper; reflexivity.
Qed.
(** * Monthly buckets *)

Lemma daysInMonth_range y m : 28 <= daysInMonth y m <= 31.
Proof. unfold daysInMonth. case_ifs; lia. Qed.

(** Decide the conditions of the goal that are closed terms. *)
Ltac decide_ifs :=
  repeat match goal with
  | |- context [if ?b then ?x else ?y] =>
      let v := eval vm_compute in b in
      lazymatch v with
      | true => change (if b then x else y) with x
      | false => change (if b then x else y) with y
      end
  end.

Lemma first_of_month_succ mi :
  first_of_month (mi + 1) = first_of_month mi + daysInMonth (mi / 12) (mi mod 12 + 1).
Proof.
  unfold first_of_month.
  assert (Hc : mi mod 12 = 11 \/ 0 <= mi mod 12 <= 10) by zdiv.
  destruct Hc as [Hc|Hc].
  - replace ((mi + 1) / 12) with (mi / 12 + 1) by zdiv.
    replace ((mi + 1) mod 12) with 0 by zdiv.
    rewrite Hc. set (y := mi / 12). clearbody y. clear.
    unfold days_from_civil, daysInMonth. cbv zeta. decide_ifs. zdiv.
  - replace ((mi + 1) / 12) with (mi / 12) by zdiv.
    replace ((mi + 1) mod 12) with (mi mod 12 + 1) by zdiv.
    set (y := mi / 12). set (m := mi mod 12) in *. clearbody y m. clear -Hc.
    unfold days_from_civil, daysInMonth, isLeapYear.
    cases_in m [0; 1; 2; 3; 4; 5; 6; 7; 8; 9; 10]; cbv zeta; decide_ifs;
      case_ifs; zdiv.
Qed.

Lemma first_of_month_civil mi :
  civil_from_days (first_of_month mi) = (mi / 12, mi mod 12 + 1, 1).
Proof.
  unfold first_of_month. apply days_from_civil_inv; [zdiv|].
  pose proof (daysInMonth_range (mi / 12) (mi mod 12 + 1)). lia.
Qed.

Lemma first_of_month_grows a k : 0 <= k -> first_of_month a + k <= first_of_month (a + k).
Proof.
  intros Hk. revert k Hk. apply natlike_ind.
  - rewrite !Z.add_0_r. lia.
  - intros k Hk IH. replace (a + Z.succ k) with (a + k + 1) by lia.
    rewrite first_of_month_succ.
    pose proof (daysInMonth_range ((a + k) / 12) ((a + k) mod 12 + 1)). lia.
Qed.

Lemma first_of_month_mono a b : a <= b -> first_of_month a <= first_of_month b.
Proof.
  intros H. pose proof (first_of_month_grows a (b - a) ltac:(lia)) as G.
  replace (a + (b - a)) with b in G by lia. lia.
Qed.

Lemma monthIndex_bracket d :
  first_of_month (monthIndex d) <= d < first_of_month (monthIndex d + 1).
Proof.
  rewrite first_of_month_succ.
  pose proof (civil_from_days_inv d) as Hinv.
  pose proof (civil_from_days_month d) as Hm.
  pose proof (civil_from_days_day d) as Hd.
  unfold monthIndex, first_of_month.
  destruct (civil_from_days d) as [[y m] dd]. cbn [fst snd] in *.
  replace ((12 * y + m - 1) / 12) with y by zdiv.
  replace ((12 * y + m - 1) mod 12 + 1) with m by zdiv.
  rewrite days_from_civil_day in Hinv. lia.
Qed.

Lemma first_of_month_le_iff mi d : first_of_month mi <= d <-> mi <= monthIndex d.
Proof.
  pose proof (monthIndex_bracket d) as [Hlo Hhi]. split; intros H.
  - destruct (Z_le_gt_dec mi (monthIndex d)) as [|Hgt]; [assumption|].
    pose proof (first_of_month_mono (monthIndex d + 1) mi ltac:(lia)). lia.
  - pose proof (first_of_month_mono mi (monthIndex d) H). lia.
Qed.

Lemma monthIndex_first mi : monthIndex (first_of_month mi) = mi.
Proof.
  unfold monthIndex. rewrite first_of_month_civil. zdiv.
Qed.

Lemma monthIndex_gap a b : monthIndex a - monthIndex b <= Z.max 0 (a - b).
Proof.
  pose proof (monthIndex_bracket a) as [Ha _].
  pose proof (monthIndex_bracket b) as [_ Hb].
  destruct (Z_le_gt_dec (monthIndex a) (monthIndex b)) as [|Hgt]; [lia|].
  pose proof (first_of_month_grows (monthIndex b + 1) (monthIndex a - monthIndex b - 1)
                ltac:(lia)) as G.
  replace (monthIndex b + 1 + (monthIndex a - monthIndex b - 1)) with (monthIndex a) in G by lia.
  lia.
Qed.

Lemma civil_on_first tza mi c : onFirstOf tza mi c ->
  getFullYear tza c = mi / 12 /\ getMonth tza c = mi mod 12 /\ getDate tza c = 1.
Proof.
  unfold onFirstOf, getFullYear, getMonth, getDate. intros H.
  pose proof (civil_of_time (LocalTime tza c)) as Hc.
  rewrite H, first_of_month_civil in Hc. injection Hc as H1 H2 H3.
  repeat split; lia.
Qed.

Lemma setMonth_next tza mi c : onFirstOf tza mi c ->
  setMonth tza c (getMonth tza c + 1) = c + (first_of_month (mi + 1) - first_of_month mi) * msPerDay.
Proof.
  intros H. destruct (civil_on_first tza mi c H) as (Hy & Hm & Hd).
  unfold setMonth. cbv zeta. unfold getFullYear, getMonth, getDate in *.
  rewrite Hy, Hd, Hm.
  assert (HMD : MakeDay (mi / 12) (mi mod 12 + 1) 1 = first_of_month (mi + 1)).
  { unfold MakeDay, first_of_month. cbv zeta. rewrite Z.add_simpl_r.
    f_equal; zdiv. }
  rewrite HMD. unfold UTC, MakeDate.
  pose proof (MakeDate_Day (LocalTime tza c)) as HD. unfold MakeDate in HD.
  red in H. rewrite H in HD. unfold LocalTime in *. lia.
Qed.

Lemma setMonth_next_first tza mi c : onFirstOf tza mi c ->
  onFirstOf tza (mi + 1) (setMonth tza c (getMonth tza c + 1)).
Proof.
  intros H. rewrite (setMonth_next tza mi c H). unfold onFirstOf in *.
  unfold LocalTime in *.
  replace (c + (first_of_month (mi + 1) - first_of_month mi) * msPerDay + tza)
    with (c + tza + (first_of_month (mi + 1) - first_of_month mi) * msPerDay) by lia.
  rewrite Day_shift, H. lia.
Qed.

Lemma monthKey_on_first tza mi c : onFirstOf tza mi c -> monthKey tza c = monthKeyOf mi.
Proof.
  intros H. destruct (civil_on_first tza mi c H) as (Hy & Hm & _).
  unfold monthKey, monthKeyOf. rewrite Hy, Hm. reflexivity.
Qed.

(** The month key of any date is that of its local month. *)
Lemma monthKey_eq tza t : monthKey tza t = monthKeyOf (monthIndex (Day (LocalTime tza t))).
Proof.
  unfold monthKey, monthKeyOf, getFullYear, getMonth, monthIndex.
  rewrite civil_of_time.
  pose proof (MonthFromTime_range (LocalTime tza t)).
  replace ((12 * YearFromTime (LocalTime tza t) + (MonthFromTime (LocalTime tza t) + 1) - 1) / 12)
    with (YearFromTime (LocalTime tza t)) by zdiv.
  replace ((12 * YearFromTime (LocalTime tza t) + (MonthFromTime (LocalTime tza t) + 1) - 1) mod 12)
    with (MonthFromTime (LocalTime tza t)) by zdiv.
  reflexivity.
Qed.

Lemma setDate_first tza c :
  onFirstOf tza (monthIndex (Day (LocalTime tza c))) (setDate tza c 1).
Proof.
  unfold onFirstOf. rewrite setDate_shift. unfold LocalTime.
  replace (c + (1 - getDate tza c) * msPerDay + tza)
    with (c + tza + (1 - getDate tza c) * msPerDay) by lia.
  rewrite Day_shift. unfold getDate, LocalTime.
  pose proof (civil_from_days_inv (Day (c + tza))) as Hinv.
  unfold monthIndex, first_of_month, DateFromTime.
  pose proof (civil_from_days_month (Day (c + tza))) as Hm.
  destruct (civil_from_days (Day (c + tza))) as [[y m] d]. cbn [fst snd] in *.
  replace ((12 * y + m - 1) / 12) with y by zdiv.
  replace ((12 * y + m - 1) mod 12 + 1) with m by zdiv.
  rewrite days_from_civil_day in Hinv. lia.
Qed.
Lemma orbit_map_rel {A B C} (R : A -> B -> Prop) (next : A -> A) (next' : B -> B)
    (f : A -> C) (g : B -> C) n :
  (forall c m, R c m -> R (next c) (next' m)) ->
  (forall c m, R c m -> f c = g m) ->
  forall c m, R c m -> map f (orbit n next c) = map g (orbit n next' m).
Proof.
  intros Hnext Hfg. induction n as [|n IH]; intros c m HR; cbn; [reflexivity|].
  rewrite (Hfg c m HR). f_equal. apply IH. apply Hnext, HR.
Qed.

Lemma monthly_iter tza c0 mi0 i :
  onFirstOf tza mi0 c0 ->
  let ci := Nat.iter i (fun c => setMonth tza c (getMonth tza c + 1)) c0 in
  onFirstOf tza (mi0 + Z.of_nat i) ci
  /\ ci = c0 + (first_of_month (mi0 + Z.of_nat i) - first_of_month mi0) * msPerDay.
Proof.
  intros H0. cbv zeta. induction i as [|i [IH1 IH2]].
  - cbn [Nat.iter nat_rect]. rewrite Z.add_0_r. split; [exact H0|lia].
  - rewrite Nat.iter_succ.
    replace (mi0 + Z.of_nat (S i)) with (mi0 + Z.of_nat i + 1) by lia. split.
    + apply setMonth_next_first, IH1.
    + rewrite (setMonth_next tza _ _ IH1). rewrite IH2 at 1. lia.
Qed.

(** The monthly periods, in every zone: the keys of the local months from
    that of [start] up to the last one whose first day, at the local time
    of day of [start], is not after [end_]. *)
Lemma generatePeriodRange_monthly_eq tza start end_ :
  let mi0 := monthIndex (Day (LocalTime tza start)) in
  let last := monthIndex (Day (LocalTime tza end_ - TimeWithinDay (LocalTime tza start))) in
  generatePeriodRange tza start end_ period_monthly =
  Some (map monthKeyOf (orbit (Z.to_nat (last - mi0 + 1)) Z.succ mi0)).
Proof.
  cbv zeta. unfold generatePeriodRange. cbv zeta.
  set (mi0 := monthIndex (Day (LocalTime tza start))).
  set (tod := TimeWithinDay (LocalTime tza start)).
  set (last := monthIndex (Day (LocalTime tza end_ - tod))).
  set (c0 := setDate tza start 1).
  set (next := fun c => setMonth tza c (getMonth tza c + 1)).
  assert (H0 : onFirstOf tza mi0 c0) by apply setDate_first.
  assert (Hc0 : LocalTime tza c0 = MakeDate (first_of_month mi0) tod).
  { pose proof (MakeDate_Day (LocalTime tza c0)) as HD.
    red in H0. rewrite H0 in HD. rewrite <- HD. f_equal.
    subst c0 tod. rewrite setDate_shift. unfold LocalTime.
    replace (start + (1 - getDate tza start) * msPerDay + tza)
      with (start + tza + (1 - getDate tza start) * msPerDay) by lia.
    apply TimeWithinDay_shift. }
  assert (Htod : 0 <= tod < msPerDay) by (subst tod; unfold TimeWithinDay, msPerDay; zdiv).
  assert (Hcond : forall i, (Nat.iter i next c0 <=? end_) = true <->
                            mi0 + Z.of_nat i <= last).
  { intros i. destruct (monthly_iter tza c0 mi0 i H0) as [_ Hci].
    fold next in Hci. rewrite Hci. subst last.
    rewrite <- first_of_month_le_iff. rewrite Z.leb_le.
    generalize (first_of_month (mi0 + Z.of_nat i)) (first_of_month mi0) Hc0 Htod.
    generalize tod c0. clear. intros tod c0 Fi F0.
    unfold LocalTime, MakeDate, Day, msPerDay. intros Hc0 Htod. zdiv. }
  set (n := Z.to_nat (last - mi0 + 1)).
  rewrite (while_orbit (fun c => c <=? end_) next (monthKey tza) n).
  - cbn [fmap option_fmap option_map snd app].
    f_equal.
    apply (orbit_map_rel (fun c m => onFirstOf tza m c)); [| |exact H0].
    + intros c m Hc. unfold Z.succ. apply setMonth_next_first, Hc.
    + intros c m Hc. apply monthKey_on_first, Hc.
  - subst n.
    pose proof (monthIndex_gap (Day (LocalTime tza end_ - tod)) (Day (LocalTime tza start))) as G.
    fold last mi0 in G.
    assert (Day (LocalTime tza end_ - tod) - Day (LocalTime tza start) <= Day end_ - Day start + 1).
    { generalize Htod. generalize tod. clear. intros tod.
      unfold LocalTime, Day, msPerDay. intros Htod. zdiv. }
    lia.
  - intros i Hi. apply Hcond. lia.
  - destruct (Nat.iter n next c0 <=? end_) eqn:E; [|reflexivity].
    apply Hcond in E. lia.
Qed.
(** Every period range is produced: the loop bound is never reached. *)
Lemma generatePeriodRange_total tza start end_ type :
  exists periods, generatePeriodRange tza start end_ type = Some periods.
Proof.
  destruct type.
  - eexists. apply generatePeriodRange_weekly_eq.
  - eexists. apply generatePeriodRange_monthly_eq.
Qed.

Lemma monday_of_spec d :
  (monday_of d + 4) mod 7 = 1 /\ monday_of d <= d < monday_of d + 7.
Proof. unfold monday_of. zdiv. Qed.

Lemma WeekDay_midnight d : WeekDay (MakeDate d 0) = (d + 4) mod 7.
Proof. unfold WeekDay. rewrite Day_MakeDate by (unfold msPerDay; lia). reflexivity. Qed.

Lemma Day_local_east tza t :
  0 <= tza < msPerDay -> t = MakeDate (Day t) 0 -> Day (LocalTime tza t) = Day t.
Proof. unfold LocalTime, MakeDate, Day, msPerDay. intros. zdiv. Qed.

Lemma Day_local_west tza t :
  - msPerDay <= tza < 0 -> t = MakeDate (Day t) 0 -> Day (LocalTime tza t) = Day t - 1.
Proof. unfold LocalTime, MakeDate, Day, msPerDay. intros. zdiv. Qed.

(** East of Greenwich (and in UTC) the week key of a date is the Monday on
    or before it. *)
Lemma weekKey_east tza t :
  0 <= tza < msPerDay -> t = MakeDate (Day t) 0 ->
  weekKey tza t = toISODate (MakeDate (monday_of (Day t)) 0).
Proof.
  intros Htz Ht. rewrite weekKey_eq, Day_local_east by assumption.
  f_equal. unfold monday_of, MakeDate in *. lia.
Qed.

(** West of Greenwich the week key of every date is a Tuesday: the day
    after the Monday on or before the previous day. *)
Lemma weekKey_west tza t :
  - msPerDay <= tza < 0 -> t = MakeDate (Day t) 0 ->
  weekKey tza t = toISODate (MakeDate (monday_of (Day t - 1) + 1) 0)
  /\ WeekDay (MakeDate (monday_of (Day t - 1) + 1) 0) = 2.
Proof.
  intros Htz Ht. rewrite weekKey_eq, Day_local_west by assumption. split.
  - f_equal. unfold monday_of, MakeDate in *. lia.
  - rewrite WeekDay_midnight. unfold monday_of. zdiv.
Qed.

Lemma orbit_days_times n k d :
  map toISODate (orbit n (fun c => c + k * msPerDay) (MakeDate d 0))
  = map (fun d => toISODate (MakeDate d 0)) (orbit n (fun d => d + k) d).
Proof.
  apply (orbit_map_rel (fun c d => c = MakeDate d 0)); [| |reflexivity].
  - intros c m ->. unfold MakeDate. lia.
  - intros c m ->. reflexivity.
Qed.

(** Weekly aggregation east of Greenwich: the buckets are the Mondays from
    the one on or before the start date, every seven days, up to the end
    date, and every fact is grouped under the Monday on or before its
    date. *)
Lemma weekly_buckets_east tza data startDate endDate s e :
  0 <= tza < msPerDay ->
  newDate startDate = Some s -> newDate endDate = Some e ->
  Forall (fun f => is_Some (newDate (date f))) data ->
  exists pts,
    aggregatedData tza data weekly (Some startDate) (Some endDate) = Some pts
    /\ map agg_date pts =
       map (fun d => toISODate (MakeDate d 0))
         (orbit (steps_upto (monday_of (Day s)) (Day e) 7) (fun d => d + 7)
            (monday_of (Day s)))
    /\ (forall f t, f ∈ data -> newDate (date f) = Some t ->
        groupKey tza weekly t = toISODate (MakeDate (monday_of (Day t)) 0)).
Proof.
  intros Htz Hs He Hdata.
  pose proof (newDate_midnight _ _ Hs) as Hs0.
  pose proof (newDate_midnight _ _ He) as He0.
  pose proof (generatePeriodRange_weekly_eq tza s e) as Hper. cbv zeta in Hper.
  rewrite Day_local_east in Hper by assumption.
  destruct (aggregatedData_periods_eq tza data weekly startDate endDate s e _
              ltac:(discriminate) Hs He Hdata Hper) as (timed & _ & Heq).
  eexists. split; [exact Heq|]. split.
  - rewrite periodPoints_dates.
    replace (s - (Day s + 3) mod 7 * msPerDay) with (MakeDate (monday_of (Day s)) 0)
      by (unfold monday_of, MakeDate in *; lia).
    replace (steps_upto (MakeDate (monday_of (Day s)) 0) e (7 * msPerDay))
      with (steps_upto (monday_of (Day s)) (Day e) 7).
    + apply orbit_days_times.
    + unfold steps_upto. f_equal. f_equal.
      rewrite He0 at 2. unfold MakeDate, msPerDay. zdiv.
  - intros f t _ Ht. cbn [groupKey]. apply weekKey_east; [exact Htz|].
    apply (newDate_midnight _ _ Ht).
Qed.
Lemma monthIndex_of_civil y m d :
  1 <= m <= 12 -> 1 <= d <= daysInMonth y m ->
  monthIndex (days_from_civil y m d) = 12 * y + m - 1.
Proof.
  intros Hm Hd. unfold monthIndex. rewrite days_from_civil_inv by assumption.
  reflexivity.
Qed.

(** The month key of month [m] of year [y]: the year, a dash, the month on
    two digits, and day 01. *)
Lemma monthKeyOf_civil y m :
  1 <= m <= 12 ->
  monthKeyOf (12 * y + m - 1)
  = String.app (pretty y) (String.app "-" (String.app (padStart 2 "0" (pretty m)) "-01")).
Proof.
  intros Hm. unfold monthKeyOf.
  replace ((12 * y + m - 1) / 12) with y by zdiv.
  replace ((12 * y + m - 1) mod 12 + 1) with m by zdiv.
  reflexivity.
Qed.

(** East of Greenwich the month key of a date [YYYY-MM-DD] is the first
    day of its own month. *)
Lemma monthKey_east tza str t y m d :
  0 <= tza < msPerDay ->
  newDate str = Some t -> parseDateOnly str = Some (y, m, d) ->
  monthKey tza t
  = String.app (pretty y) (String.app "-" (String.app (padStart 2 "0" (pretty m)) "-01")).
Proof.
  intros Htz Ht Hp.
  pose proof (newDate_midnight _ _ Ht) as Ht0.
  apply newDate_spec in Ht as (y' & m' & d' & Hp' & _ & HD & _ & _).
  rewrite Hp in Hp'. injection Hp' as <- <- <-.
  apply parseDateOnly_range in Hp as (_ & Hm & Hd).
  rewrite monthKey_eq, Day_local_east, HD by assumption.
  rewrite monthIndex_of_civil by assumption. apply monthKeyOf_civil, Hm.
Qed.

(** Monthly aggregation east of Greenwich: one bucket per month from the
    month of the start date through the month of the end date, and every
    fact is grouped under its own month. *)
Lemma monthly_buckets_east tza data startDate endDate s e :
  0 <= tza < msPerDay ->
  newDate startDate = Some s -> newDate endDate = Some e ->
  Forall (fun f => is_Some (newDate (date f))) data ->
  exists pts,
    aggregatedData tza data monthly (Some startDate) (Some endDate) = Some pts
    /\ map agg_date pts =
       map monthKeyOf
         (orbit (Z.to_nat (monthIndex (Day e) - monthIndex (Day s) + 1)) Z.succ
            (monthIndex (Day s)))
    /\ (forall f t, f ∈ data -> newDate (date f) = Some t ->
        groupKey tza monthly t = monthKeyOf (monthIndex (Day t))).
Proof.
  intros Htz Hs He Hdata.
  pose proof (newDate_midnight _ _ Hs) as Hs0.
  pose proof (newDate_midnight _ _ He) as He0.
  pose proof (generatePeriodRange_monthly_eq tza s e) as Hper. cbv zeta in Hper.
  rewrite Day_local_east in Hper by assumption.
  replace (Day (LocalTime tza e - TimeWithinDay (LocalTime tza s))) with (Day e) in Hper.
  2:{ rewrite Hs0, He0. unfold LocalTime, TimeWithinDay, MakeDate, Day, msPerDay in *.
      generalize (s `div` 86400000) (e `div` 86400000). clear -Htz. intros. zdiv. }
  destruct (aggregatedData_periods_eq tza data monthly startDate endDate s e _
              ltac:(discriminate) Hs He Hdata Hper) as (timed & _ & Heq).
  eexists. split; [exact Heq|]. split.
  - apply periodPoints_dates.
  - intros f t _ Ht. cbn [groupKey]. rewrite monthKey_eq, Day_local_east; auto.
    apply (newDate_midnight _ _ Ht).
Qed.

(** C2: weekly bucket keys west of Greenwich.  In a zone five hours behind
    UTC the series for 2025-01-01..2025-01-07 starts on 2024-12-31, a
    Tuesday, and the fact dated 2025-01-03 (a Friday) is grouped under it
    rather than under Monday 2024-12-30; in UTC and in Tokyo the same fact
    is grouped under 2024-12-30. *)
Theorem weekly_key_west_of_greenwich :
  aggregatedData (-18000000) [mkRankingData "2025-01-03" 5] weekly
    (Some "2025-01-01") (Some "2025-01-07")
  = Some [mkAggregatedData "2024-12-31" (Some 5) 5 5 5 1 false;
          outOfRangePoint "2025-01-07"]
  /\ (weekKey (-18000000) <$> newDate "2025-01-03") = Some "2024-12-31"
  /\ (WeekDay <$> newDate "2024-12-31") = Some 2
  /\ (weekKey 0 <$> newDate "2025-01-03") = Some "2024-12-30"
  /\ (weekKey 32400000 <$> newDate "2025-01-03") = Some "2024-12-30".
Proof. repeat split; vm_compute; reflexivity. Qed.

(** C8: monthly bucket keys west of Greenwich.  In a zone five hours
    behind UTC a fact dated 2025-02-01 is grouped under 2025-01-01, and the
    series for 2025-02-01..2025-03-01 has the buckets of January and
    February instead of February and March; the dates 2025-02-05 and
    2025-02-28 resolve to 2025-02-01 there as everywhere. *)
Theorem monthly_key_west_of_greenwich :
  aggregatedData (-18000000) [mkRankingData "2025-02-01" 7] monthly
    (Some "2025-02-01") (Some "2025-03-01")
  = Some [mkAggregatedData "2025-01-01" (Some 7) 7 7 7 1 false;
          outOfRangePoint "2025-02-01"]
  /\ (monthKey (-18000000) <$> newDate "2025-02-01") = Some "2025-01-01"
  /\ (monthKey (-18000000) <$> newDate "2025-02-05") = Some "2025-02-01"
  /\ (monthKey (-18000000) <$> newDate "2025-02-28") = Some "2025-02-01"
  /\ (monthKey 0 <$> newDate "2025-02-01") = Some "2025-02-01".
Proof. repeat split; vm_compute; reflexivity. Qed.
(** * The points of the series *)

(** Every well-formed query is answered, and its points are the empty
    list, daily points over the table of facts by date, or period points
    over the table of facts by group key. *)
Lemma aggregatedData_shape tza data aggregation startDate endDate :
  Forall (fun f => is_Some (newDate (date f))) data ->
  wellFormedRange startDate endDate ->
  exists timed,
    map snd timed = data
    /\ Forall (fun tf => newDate (date (snd tf)) = Some (fst tf)) timed
    /\ (aggregatedData tza data aggregation startDate endDate = Some []
        \/ (aggregation = daily /\ exists dates,
              aggregatedData tza data aggregation startDate endDate =
              Some (map (dailyPoint
                      (foldl (fun m titem => <[date (snd titem) := snd titem]> m) ∅
                         (sort_by_time timed))) dates))
        \/ (aggregation <> daily /\ exists periods,
              aggregatedData tza data aggregation startDate endDate =
              Some (map (periodPoint
                      (foldl (addToGroup tza aggregation) ∅ (sort_by_time timed)))
                      periods))).
Proof.
  intros Hdata Hrange.
  destruct (with_time_all data Hdata) as (timed & Hm & Hsnd & Hall).
  exists timed. split; [exact Hsnd|]. split; [exact Hall|].
  unfold aggregatedData. rewrite Hm. cbn [mbind option_bind].
  assert (Hr : exists range,
    match truthy startDate, truthy endDate with
    | Some s, Some e =>
        dateRangeStart ← newDate s; dateRangeEnd ← newDate e;
        Some (Some (dateRangeStart, dateRangeEnd))
    | _, _ =>
        match sort_by_time timed with
        | first :: _ => Some (Some (fst first, fst (List.last (sort_by_time timed) first)))
        | [] => Some None
        end
    end = Some range).
  { unfold wellFormedRange in Hrange.
    destruct (truthy startDate) as [s|], (truthy endDate) as [e|];
      try (destruct (sort_by_time timed); eexists; reflexivity).
    destruct Hrange as [[s' ->] [e' ->]]. eexists. reflexivity. }
  destruct Hr as [range ->]. cbn [mbind option_bind].
  destruct range as [[dateRangeStart dateRangeEnd]|]; [|left; reflexivity].
  right. destruct aggregation.
  - left. split; [reflexivity|]. rewrite generateDateRange_eq.
    eexists. reflexivity.
  - right. split; [discriminate|].
    destruct (generatePeriodRange_total tza dateRangeStart dateRangeEnd period_weekly)
      as [periods Hp].
    cbn [periodTypeOf]. rewrite Hp. eexists. reflexivity.
  - right. split; [discriminate|].
    destruct (generatePeriodRange_total tza dateRangeStart dateRangeEnd period_monthly)
      as [periods Hp].
    cbn [periodTypeOf]. rewrite Hp. eexists. reflexivity.
Qed.

Lemma sorted_timed_facts timed data tf :
  map snd timed = data ->
  Forall (fun tf => newDate (date (snd tf)) = Some (fst tf)) timed ->
  tf ∈ sort_by_time timed ->
  snd tf ∈ data /\ newDate (date (snd tf)) = Some (fst tf).
Proof.
  intros Hsnd Hall Hin. rewrite sort_by_time_perm in Hin. split.
  - subst data. apply list_elem_of_fmap. exists tf. split; [reflexivity|exact Hin].
  - rewrite Forall_forall in Hall. apply Hall, Hin.
Qed.

Lemma round_div_one r : round_div r 1 = r.
Proof. unfold round_div. zdiv. Qed.
Lemma dailyPoint_coherent tza data (dataMap : gmap string RankingData) d :
  (forall k, dataMap !! k = None <-> forall f, f ∈ data -> date f <> k) ->
  (forall k v, dataMap !! k = Some v -> v ∈ data /\ date v = k) ->
  coherentPoint tza daily data (dailyPoint dataMap d).
Proof.
  intros HNone HSome. unfold coherentPoint, dailyPoint.
  destruct (dataMap !! d) as [v|] eqn:E;
    cbn [agg_date agg_rank avgRank minRank maxRank dataPoints isOutOfRange outOfRangePoint].
  - destruct (HSome _ _ E) as [Hin Hd].
    split; [split; discriminate|]. split; [split; discriminate|].
    split; [discriminate|]. split; [intros _; split; [reflexivity|lia]|].
    intros _. exists [v]. split; [discriminate|]. split.
    + intros f Hf. apply list_elem_of_singleton in Hf. subst f.
      split; [exact Hin|]. cbn [bucketKey]. congruence.
    + cbn [length map sum_ranks foldl math_min math_max Z.of_nat Pos.of_succ_nat].
      rewrite Z.add_0_l, round_div_one. repeat split.
  - split; [split; reflexivity|]. split; [split; reflexivity|].
    split; [intros _; repeat split|]. split; [|discriminate].
    intros (f & Hf & Hk). injection Hk as Hk.
    exfalso. apply (proj1 (HNone d) E f Hf Hk).
Qed.

Lemma periodPoint_coherent tza aggregation data timed key :
  aggregation <> daily ->
  map snd timed = data ->
  Forall (fun tf => newDate (date (snd tf)) = Some (fst tf)) timed ->
  coherentPoint tza aggregation data
    (periodPoint (foldl (addToGroup tza aggregation) ∅ (sort_by_time timed)) key).
Proof.
  intros Hagg Hsnd Hall. unfold coherentPoint, periodPoint.
  rewrite groups_lookup.
  assert (Hitems : forall f, f ∈ itemsOf tza aggregation key (sort_by_time timed) ->
            f ∈ data /\ bucketKey tza aggregation f = Some key).
  { intros f Hf. unfold itemsOf in Hf.
    apply list_elem_of_fmap in Hf as (tf & -> & Htf).
    apply list_elem_of_filter in Htf as [Hk Htf].
    destruct (sorted_timed_facts timed data tf Hsnd Hall Htf) as [Hin Ht].
    split; [exact Hin|].
    destruct aggregation; [contradiction|..]; cbn [bucketKey]; rewrite Ht;
      cbn [fmap option_fmap option_map]; congruence. }
  assert (Hne : (exists f, f ∈ data /\ bucketKey tza aggregation f = Some key) ->
            itemsOf tza aggregation key (sort_by_time timed) <> []).
  { intros (f & Hf & Hk) Hnil. subst data.
    apply list_elem_of_fmap in Hf as (tf & -> & Htf).
    rewrite Forall_forall in Hall. pose proof (Hall tf Htf) as Ht.
    assert (Hg : groupKey tza aggregation (fst tf) = key).
    { destruct aggregation; [contradiction|..]; cbn [bucketKey] in Hk;
        rewrite Ht in Hk; cbn [fmap option_fmap option_map] in Hk; congruence. }
    assert (Hin : snd tf ∈ itemsOf tza aggregation key (sort_by_time timed)).
    { unfold itemsOf. apply list_elem_of_fmap. exists tf. split; [reflexivity|].
      apply list_elem_of_filter. split; [exact Hg|].
      rewrite sort_by_time_perm. exact Htf. }
    rewrite Hnil in Hin. inversion Hin. }
  destruct (itemsOf tza aggregation key (sort_by_time timed)) as [|item items] eqn:E;
    cbn [agg_date agg_rank avgRank minRank maxRank dataPoints isOutOfRange outOfRangePoint].
  - split; [split; reflexivity|]. split; [split; reflexivity|].
    split; [intros _; repeat split|]. split; [|discriminate].
    intros Hex. exfalso. apply (Hne Hex). reflexivity.
  - split; [split; discriminate|].
    rewrite !length_map.
    split; [split; [discriminate|cbn [length]; lia]|].
    split; [cbn [length]; lia|].
    split; [intros _; split; [reflexivity|cbn [length]; lia]|].
    intros _. exists (item :: items). split; [discriminate|].
    split; [exact Hitems|].
    split; [reflexivity|]. split; [reflexivity|]. split; [reflexivity|].
    split; reflexivity.
Qed.

Lemma aggregatedData_empty_coherent tza aggregation data (p : AggregatedData) :
  p ∈ @nil AggregatedData -> coherentPoint tza aggregation data p.
Proof. intros H. inversion H. Qed.

(** C10 (as amended): every well-formed query is answered and every point
    of the answer, at any granularity and in any zone, is coherent: rank is
    null exactly when isOutOfRange is true, exactly when dataPoints is 0,
    and in that case avgRank, minRank and maxRank all equal the sentinel
    101; a bucket that contains a fact has isOutOfRange false and
    dataPoints >= 1, and the statistics of a point in range are computed
    from a non-empty list of facts of its bucket. *)
Theorem aggregated_points_coherent tza data aggregation startDate endDate :
  Forall (fun f => is_Some (newDate (date f))) data ->
  wellFormedRange startDate endDate ->
  exists pts,
    aggregatedData tza data aggregation startDate endDate = Some pts
    /\ forall p, p ∈ pts -> coherentPoint tza aggregation data p.
Proof.
  intros Hdata Hrange.
  destruct (aggregatedData_shape tza data aggregation startDate endDate Hdata Hrange)
    as (timed & Hsnd & Hall & [Heq|[[-> [dates Heq]]|[Hagg [periods Heq]]]]).
  - exists []. split; [exact Heq|]. intros p Hp. inversion Hp.
  - eexists. split; [exact Heq|]. intros p Hp.
    apply list_elem_of_fmap in Hp as (d & -> & _).
    apply dailyPoint_coherent.
    + intros k. rewrite dataMap_lookup_None. split.
      * intros [_ H] f Hf. subst data. apply list_elem_of_fmap in Hf as (x & -> & Hx).
        apply H. rewrite sort_by_time_perm. exact Hx.
      * intros H. split; [apply lookup_empty|]. intros x Hx.
        apply (sorted_timed_facts timed data x Hsnd Hall) in Hx as [Hx _].
        apply H, Hx.
    + intros k v H. apply dataMap_lookup_Some in H as [H|[H1 H2]].
      * rewrite lookup_empty in H. discriminate.
      * split; [|exact H2].
        apply list_elem_of_fmap in H1 as (x & -> & Hx).
        apply (sorted_timed_facts timed data x Hsnd Hall Hx).
  - eexists. split; [exact Heq|]. intros p Hp.
    apply list_elem_of_fmap in Hp as (k & -> & _).
    apply periodPoint_coherent; assumption.
Qed.
(** * The Y axis *)

Lemma max_list_spec r rs :
  math_max (r :: rs) ∈ r :: rs /\ forall x, x ∈ r :: rs -> x <= math_max (r :: rs).
Proof.
  cbn [math_max]. revert r. induction rs as [|s rs IH]; intros r; cbn [foldl].
  - split; [left|]. intros x Hx. apply list_elem_of_singleton in Hx. lia.
  - destruct (IH (Z.max r s)) as [Hin Hmax]. split.
    + apply elem_of_cons in Hin as [Heq|Hin].
      * rewrite Heq. destruct (Z.max_spec r s) as [[_ ->]|[_ ->]];
          [right; left|left].
      * right. right. exact Hin.
    + intros x Hx. apply elem_of_cons in Hx as [->|Hx].
      * pose proof (Hmax (Z.max r s) ltac:(left)). lia.
      * apply elem_of_cons in Hx as [->|Hx].
        -- pose proof (Hmax (Z.max r s) ltac:(left)). lia.
        -- apply Hmax. right. exact Hx.
Qed.

Lemma validRanks_spec aggregated r :
  r ∈ validRanks aggregated <->
  exists p, p ∈ aggregated /\ isOutOfRange p = false /\ agg_rank p = Some r.
Proof.
  unfold validRanks. rewrite list_elem_of_omap. split.
  - intros (p & Hp & H). exists p. destruct (isOutOfRange p); [discriminate|].
    auto.
  - intros (p & Hp & Ho & Hr). exists p. rewrite Ho. auto.
Qed.

(** C9 (as amended): for a series with at least one point, the axis scale
    is [1, 100] when no point in range exists, and otherwise [1, m + 5]
    for the maximum rank m among the points in range; points flagged out
    of range, which carry the sentinel 101, never contribute.  For the
    facts of ranks 3 and 45 in a four-day window with two gap days the
    upper bound is 50. *)
Theorem yAxisDomain_spec aggregated :
  aggregated <> [] ->
  (forall r, r ∈ validRanks aggregated <->
     exists p, p ∈ aggregated /\ isOutOfRange p = false /\ agg_rank p = Some r)
  /\ (validRanks aggregated = [] -> yAxisDomain aggregated = (1, AxisNumber 100))
  /\ (validRanks aggregated <> [] ->
      exists m, yAxisDomain aggregated = (1, AxisNumber (m + 5))
        /\ m ∈ validRanks aggregated
        /\ forall r, r ∈ validRanks aggregated -> r <= m)
  /\ (yAxisDomain <$>
        aggregatedData 0 [mkRankingData "2025-01-02" 3; mkRankingData "2025-01-04" 45]
          daily (Some "2025-01-01") (Some "2025-01-04")) = Some (1, AxisNumber 50).
Proof.
  intros Hne. split; [apply validRanks_spec|]. split; [|split].
  - intros Hv. unfold yAxisDomain. destruct aggregated; [contradiction|].
    rewrite Hv. reflexivity.
  - intros Hv. unfold yAxisDomain. destruct aggregated as [|a l]; [contradiction|].
    destruct (validRanks (a :: l)) as [|r rs]; [contradiction|].
    exists (math_max (r :: rs)). split; [reflexivity|]. apply max_list_spec.
  - vm_compute. reflexivity.
Qed.

(** The empty series has no point in range, and its scale is not the
    default range but [1, 'auto']; the chart produces the empty series
    when it has neither facts nor a date range. *)
Lemma yAxisDomain_empty_series :
  aggregatedData 0 [] daily None None = Some []
  /\ validRanks [] = []
  /\ yAxisDomain [] = (1, AxisAuto)
  /\ yAxisDomain [] <> (1, AxisNumber 100).
Proof. repeat split; try reflexivity. discriminate. Qed.

Lemma yAxisDomain_spec_witness :
  let series := [outOfRangePoint "2025-01-01";
                 mkAggregatedData "2025-01-02" (Some 3) 3 3 3 1 false] in
  series <> []
  /\ exists m, yAxisDomain series = (1, AxisNumber (m + 5)) /\ m ∈ validRanks series.
Proof.
  cbv zeta. split; [discriminate|].
  destruct (yAxisDomain_spec
              [outOfRangePoint "2025-01-01";
               mkAggregatedData "2025-01-02" (Some 3) 3 3 3 1 false]
              ltac:(discriminate)) as (_ & _ & H & _).
  destruct (H ltac:(discriminate)) as (m & Hm & Hin & _).
  exists m. split; assumption.
Defined.

(** A fact of rank 101 gives a point in range whose three statistics all
    equal 101: those values are not exclusive to out-of-range points. *)
Lemma sentinel_statistics_in_range :
  aggregatedData 0 [mkRankingData "2025-01-01" 101] daily
    (Some "2025-01-01") (Some "2025-01-01")
  = Some [mkAggregatedData "2025-01-01" (Some 101) 101 101 101 1 false]
  /\ ~ (forall p,
         aggregatedData 0 [mkRankingData "2025-01-01" 101] daily
           (Some "2025-01-01") (Some "2025-01-01") = Some [p] ->
         (avgRank p = 101 /\ minRank p = 101 /\ maxRank p = 101 -> isOutOfRange p = true)).
Proof.
  split; [vm_compute; reflexivity|].
  intros H.
  specialize (H (mkAggregatedData "2025-01-01" (Some 101) 101 101 101 1 false)
                ltac:(vm_compute; reflexivity)).
  cbn in H. specialize (H ltac:(repeat split)). discriminate.
Qed.

Lemma aggregated_points_coherent_witness :
  exists pts,
    aggregatedData 32400000 [mkRankingData "2025-01-03" 5] weekly
      (Some "2025-01-01") (Some "2025-01-07") = Some pts
    /\ forall p, p ∈ pts ->
         coherentPoint 32400000 weekly [mkRankingData "2025-01-03" 5] p.
Proof.
  apply (aggregated_points_coherent 32400000 [mkRankingData "2025-01-03" 5] weekly
           (Some "2025-01-01") (Some "2025-01-07")).
  - repeat constructor. vm_compute. eexists. reflexivity.
  - split; vm_compute; eexists; reflexivity.
Defined.

Lemma daily_series_dense_witness :
  exists pts,
    aggregatedData 32400000 [mkRankingData "2025-01-02" 3] daily
      (Some "2025-01-01") (Some "2025-01-04") = Some pts
    /\ Z.of_nat (length pts) = Day 1735948800000 - Day 1735689600000 + 1.
Proof.
  destruct (daily_series_dense 32400000 [mkRankingData "2025-01-02" 3]
              "2025-01-01" "2025-01-04" 1735689600000 1735948800000)
    as (pts & Heq & Hlen & _).
  - vm_compute. reflexivity.
  - vm_compute. reflexivity.
  - lia.
  - repeat constructor. vm_compute. eexists. reflexivity.
  - exists pts. split; assumption.
Defined.
(** * The schema mapper *)

Lemma Field_eqb_eq a b : Field_eqb a b = true <-> a = b.
Proof. destruct a, b; cbn; split; intros H; try reflexivity; discriminate. Qed.

Lemma header_chain_spec (test : Field -> bool) f :
  (if test f_pascal_id then Some f_pascal_id
   else if test f_keyword then Some f_keyword
   else if test f_search_volume then Some f_search_volume
   else if test f_domain_url then Some f_domain_url
   else if test f_site_name then Some f_site_name
   else if test f_rank_type then Some f_rank_type
   else if test f_area then Some f_area
   else if test f_device_type then Some f_device_type
   else if test f_landing_page then Some f_landing_page
   else None) = Some f <->
  test f = true /\ forall g, (fieldOrder g < fieldOrder f)%nat -> test g = false.
Proof.
  split.
  - intros H. split.
    + repeat match type of H with
      | (if ?b then _ else _) = _ => destruct b eqn:?
      end; try discriminate; injection H as <-; assumption.
    + intros g Hg.
      repeat match type of H with
      | (if ?b then _ else _) = _ => destruct b eqn:?
      end; try discriminate; injection H as <-;
      destruct g; try assumption; apply Nat.ltb_lt in Hg; discriminate Hg.
  - intros [Ht Hlt].
    repeat match goal with
    | |- (if ?b then _ else _) = _ => destruct b eqn:?
    end.
    all: destruct f; try reflexivity; try congruence; exfalso.
    all: match goal with
      | E : _ ?x = true |- _ =>
          rewrite (Hlt x) in E by (apply Nat.ltb_lt; reflexivity); discriminate
      end.
Qed.

Lemma classifyHeader_spec h f :
  classifyHeader h = Some f <->
  fieldTest f h = true
  /\ forall g, (fieldOrder g < fieldOrder f)%nat -> fieldTest g h = false.
Proof. exact (header_chain_spec (fun f => fieldTest f h) f). Qed.

Lemma setColumn_lookup columnMap f index g :
  setColumn columnMap f index g = if Field_eqb g f then Some index else columnMap g.
Proof. reflexivity. Qed.

(** The index a key ends up with: that of the last cell assigned to it,
    or the one it had when no cell is. *)
Lemma resolveColumns_from_spec headers :
  forall start (columnMap : ColumnMap) f i,
    resolveColumns_from start headers columnMap f = Some i <->
    (exists j h, i = (start + j)%nat /\ headers !! j = Some h
       /\ classifyHeader h = Some f
       /\ forall j' h', (j < j')%nat -> headers !! j' = Some h' ->
            classifyHeader h' <> Some f)
    \/ (columnMap f = Some i
        /\ forall h, h ∈ headers -> classifyHeader h <> Some f).
Proof.
  induction headers as [|h0 headers IH]; intros start columnMap f i; cbn [resolveColumns_from].
  - split.
    + intros H. right. split; [exact H|]. intros h Hh. inversion Hh.
    + intros [(j & h & _ & Hj & _)|[H _]]; [discriminate Hj|exact H].
  - rewrite IH. split.
    + intros [(j & h & -> & Hj & Hc & Hlast)|[Hm Hnone]].
      * left. exists (S j), h. repeat split; [lia|exact Hj|exact Hc|].
        intros [|j'] h' Hlt Hj'; [lia|]. apply (Hlast j' h'); [lia|exact Hj'].
      * destruct (classifyHeader h0) as [f0|] eqn:E0.
        -- rewrite setColumn_lookup in Hm.
           destruct (Field_eqb f f0) eqn:Ef.
           ++ apply Field_eqb_eq in Ef. subst f0. injection Hm as <-.
              left. exists 0%nat, h0. repeat split; [lia|exact E0|].
              intros [|j'] h' Hlt Hj'; [lia|]. apply Hnone.
              apply list_elem_of_lookup. exists j'. exact Hj'.
           ++ right. split; [exact Hm|]. intros h Hh.
              apply elem_of_cons in Hh as [->|Hh]; [|apply Hnone, Hh].
              rewrite E0. intros [= ->].
              assert (Field_eqb f f = true) by (apply Field_eqb_eq; reflexivity).
              congruence.
        -- right. split; [exact Hm|]. intros h Hh.
           apply elem_of_cons in Hh as [->|Hh]; [|apply Hnone, Hh].
           rewrite E0. discriminate.
    + intros [(j & h & -> & Hj & Hc & Hlast)|[Hm Hnone]].
      * destruct j as [|j].
        -- cbn in Hj. injection Hj as ->. right. split.
           ++ rewrite Hc, setColumn_lookup.
              assert (Field_eqb f f = true) as -> by (apply Field_eqb_eq; reflexivity).
              f_equal. lia.
           ++ intros h' Hh'. apply list_elem_of_lookup in Hh' as [j' Hj'].
              apply (Hlast (S j') h'); [lia|exact Hj'].
        -- left. exists j, h. repeat split; [lia|exact Hj|exact Hc|].
           intros j' h' Hlt Hj'. apply (Hlast (S j') h'); [lia|exact Hj'].
      * right. split.
        -- destruct (classifyHeader h0) as [f0|] eqn:E0; [|exact Hm].
           rewrite setColumn_lookup. destruct (Field_eqb f f0) eqn:Ef; [|exact Hm].
           apply Field_eqb_eq in Ef. subst f0. exfalso.
           apply (Hnone h0); [left|exact E0].
        -- intros h Hh. apply Hnone. right. exact Hh.
Qed.

(** C7 (as amended): when two or more header cells match the same fixed
    field, the schema mapper resolves the field to the last of them: a key
    of the column map holds index i exactly when cell i is assigned to the
    key and no later cell is; a cell is assigned to the first key, in the
    order identifier, keyword text, search volume, domain, site name, rank
    type, area, device type, landing page, whose test it passes. *)
Theorem resolveColumns_last_match headers f i :
  (resolveColumns headers f = Some i <->
   (exists h, headers !! i = Some h /\ classifyHeader h = Some f)
   /\ forall j h, (i < j)%nat -> headers !! j = Some h -> classifyHeader h <> Some f)
  /\ (forall h g, classifyHeader h = Some g <->
        fieldTest g h = true
        /\ forall g', (fieldOrder g' < fieldOrder g)%nat -> fieldTest g' h = false).
Proof.
  split; [|intros h g; apply classifyHeader_spec].
  unfold resolveColumns. rewrite resolveColumns_from_spec. split.
  - intros [(j & h & -> & Hj & Hc & Hlast)|[Hm _]]; [|discriminate Hm].
    split; [exists h; split; assumption|]. exact Hlast.
  - intros [(h & Hi & Hc) Hlast]. left. exists i, h. repeat split; assumption.
Qed.

(** Two cells that match the keyword field: the column map takes the
    second, not the first. *)
Lemma resolveColumns_not_first_match :
  let headers := ["Pascal ID"; "キーワード"; "検索キーワード"; "2025/1/1"] in
  fieldTest f_keyword "キーワード" = true
  /\ fieldTest f_keyword "検索キーワード" = true
  /\ classifyHeader "キーワード" = Some f_keyword
  /\ resolveColumns headers f_keyword = Some 2%nat
  /\ resolveColumns headers f_keyword <> Some 1%nat.
Proof. cbv zeta. repeat split; try (vm_compute; reflexivity). vm_compute. discriminate. Qed.
(** * The row loop *)

Lemma parseRow_accepts columnMap dateColumns values :
  is_Some (parseRow columnMap dateColumns values) <->
  rowHasColumns columnMap values && idParses columnMap values
    && keywordNonEmpty columnMap values = true.
Proof.
  unfold parseRow, rowHasColumns, idParses, keywordNonEmpty.
  destruct (length values <? maxColumn columnMap + 1)%nat; cbn [negb andb].
  { split; [intros [? [=]]|discriminate]. }
  destruct (cellAt values (columnMap f_pascal_id)) as [idCell|]; cbn [andb].
  2:{ split; [intros [? [=]]|discriminate]. }
  destruct (parseInt idCell) as [pascalId|].
  2:{ rewrite bool_decide_eq_false_2 by (intros [? [=]]).
      split; [intros [? [=]]|discriminate]. }
  rewrite bool_decide_eq_true_2 by eauto. cbn [andb].
  destruct (nonEmpty (cellAt values (columnMap f_keyword))) as [kw|].
  - rewrite bool_decide_eq_true_2 by eauto. split; eauto.
  - rewrite bool_decide_eq_false_2 by (intros [? [=]]).
    split; [intros [? [=]]|discriminate].
Qed.

Lemma omap_length_filter {A B} (f : A -> option B) (P : A -> bool) l :
  (forall x, is_Some (f x) <-> P x = true) ->
  length (omap f l) = length (List.filter P l).
Proof.
  intros H. induction l as [|x l IH]; [reflexivity|].
  cbn [omap list_omap List.filter].
  destruct (f x) as [y|] eqn:E; destruct (P x) eqn:EP.
  - cbn. f_equal. exact IH.
  - exfalso. assert (is_Some (f x)) as Hs by (rewrite E; eauto).
    apply H in Hs. congruence.
  - exfalso. apply H in EP. rewrite E in EP. destruct EP as [? [=]].
  - exact IH.
Qed.

Lemma parseRows_count columnMap dateColumns rows :
  length (keywords (parseRows columnMap dateColumns rows)) =
  length (List.filter (fun values => rowHasColumns columnMap values
                         && idParses columnMap values
                         && keywordNonEmpty columnMap values)
            (map cellsOf rows)).
Proof.
  unfold parseRows. cbn [keywords]. rewrite length_map.
  rewrite <- (omap_length_filter (parseRow columnMap dateColumns)).
  - clear. induction rows as [|r rows IH]; [reflexivity|].
    cbn [omap list_omap map]. destruct (parseRow _ _ _); cbn; rewrite IH; reflexivity.
  - intros values. apply parseRow_accepts.
Qed.

(** C6 (as amended): for any input with a header that resolves the
    identifier and keyword-text columns and at least one date column, and
    at least one data row, the parser returns, and the number of entities
    equals the number of data rows that have at least as many cells as the
    highest mapped column index plus one, whose identifier cell parses as
    an integer and whose keyword-text cell is non-empty. *)
Theorem parsed_entity_count csvContent header row rows :
  split "010" (trim csvContent) = header :: row :: rows ->
  is_Some (resolveColumns (cellsOf header) f_pascal_id) ->
  is_Some (resolveColumns (cellsOf header) f_keyword) ->
  findDateColumns (cellsOf header) <> [] ->
  exists data,
    parsePascalCsv csvContent = Returned data
    /\ length (keywords data) =
       length (List.filter
                 (fun values =>
                    rowHasColumns (resolveColumns (cellsOf header)) values
                    && idParses (resolveColumns (cellsOf header)) values
                    && keywordNonEmpty (resolveColumns (cellsOf header)) values)
                 (map cellsOf (row :: rows))).
Proof.
  intros Hlines [pid Hpid] [kw Hkw] Hdates.
  unfold parsePascalCsv. rewrite Hlines. cbv zeta. rewrite Hpid, Hkw.
  destruct (findDateColumns (cellsOf header)) as [|dc dcs] eqn:Edc; [contradiction|].
  eexists. split; [reflexivity|]. apply parseRows_count.
Qed.

(** A row with a valid identifier and a keyword text, but fewer cells than
    the highest mapped column, yields no entity. *)
Lemma short_row_not_counted :
  let csv := String.app "Pascal ID,キーワード,エリア,2025/1/1" (String "010" "7,foo") in
  let columnMap := resolveColumns (cellsOf "Pascal ID,キーワード,エリア,2025/1/1") in
  parsePascalCsv csv = Returned (mkPascalCsvData [] [])
  /\ idParses columnMap (cellsOf "7,foo") = true
  /\ keywordNonEmpty columnMap (cellsOf "7,foo") = true
  /\ length (List.filter (fun values => idParses columnMap values
                                        && keywordNonEmpty columnMap values)
               [cellsOf "7,foo"]) = 1%nat.
Proof. cbv zeta. repeat split; vm_compute; reflexivity. Qed.

Lemma parsed_entity_count_witness :
  exists data,
    parsePascalCsv (String.app "Pascal ID,キーワード,2025年1月1日" (String "010" "7,foo,5"))
      = Returned data
    /\ length (keywords data) = 1%nat.
Proof.
  destruct (parsed_entity_count
              (String.app "Pascal ID,キーワード,2025年1月1日" (String "010" "7,foo,5"))
              "Pascal ID,キーワード,2025年1月1日" "7,foo,5" [])
    as (data & Hd & Hlen).
  - vm_compute. reflexivity.
  - vm_compute. eexists. reflexivity.
  - vm_compute. eexists. reflexivity.
  - vm_compute. discriminate.
  - exists data. split; [exact Hd|]. rewrite Hlen. vm_compute. reflexivity.
Defined.
(** * Integer cells *)

Lemma trimStart_printable c rest :
  33 <= byte_of c <= 127 -> trimStart (String c rest) = String c rest.
Proof.
  intros Hc. cbn [trimStart].
  assert (H1 : is_ws1 c = false) by (unfold is_ws1; cbv zeta; lia).
  rewrite H1. destruct rest as [|c2 rest]; [reflexivity|].
  assert (H2 : is_ws2 c c2 = false) by (unfold is_ws2; lia).
  rewrite H2. destruct rest as [|c3 rest]; [reflexivity|].
  assert (H3 : is_ws3 c c2 c3 = false) by (unfold is_ws3; cbv zeta; lia).
  rewrite H3. reflexivity.
Qed.

Lemma eqb_byte_of a b : byte_of a <> byte_of b -> Ascii.eqb a b = false.
Proof.
  intros H. destruct (Ascii.eqb a b) eqn:E; [|reflexivity].
  apply Ascii.eqb_eq in E. subst. contradiction.
Qed.








Lemma cellRank_Some cell r :
  cellRank (Some cell) = Some r <->
  cell <> EmptyString /\ cell <> "-"%string /\ parseInt cell = Some r /\ 0 < r.
Proof.
  unfold cellRank, nonEmpty. destruct cell as [|c cell].
  { split; [discriminate|]. intros [H _]. contradiction. }
  destruct (String.eqb (String c cell) "-") eqn:E.
  { apply String.eqb_eq in E. split; [discriminate|]. intros (_ & H & _). contradiction. }
  apply String.eqb_neq in E.
  destruct (parseInt (String c cell)) as [n|].
  - destruct (0 <? n) eqn:En.
    + split.
      * intros [= <-]. repeat split; try assumption; try discriminate. lia.
      * intros (_ & _ & [= <-] & _). reflexivity.
    + split; [discriminate|]. intros (_ & _ & [= <-] & Hr). lia.
  - split; [discriminate|]. intros (_ & _ & H & _). discriminate.
Qed.



Lemma rowRankings_spec pascalId values dateColumns fact :
  fact ∈ rowRankings pascalId values dateColumns <->
  exists index date cell n,
    (index, date) ∈ dateColumns /\ values !! index = Some cell
    /\ cell <> EmptyString /\ cell <> "-"%string /\ parseInt cell = Some n /\ 0 < n
    /\ fact = mkPascalRankingData pascalId date (Some n).
Proof.
  unfold rowRankings. rewrite list_elem_of_omap. split.
  - intros ([index date] & Hin & H).
    destruct (cellRank (values !! index)) as [rank|] eqn:E; [|discriminate].
    injection H as <-.
    destruct (values !! index) as [cell|] eqn:Ev; [|discriminate E].
    apply cellRank_Some in E as (H1 & H2 & H3 & H4).
    exists index, date, cell, rank. repeat split; assumption.
  - intros (index & date & cell & n & Hin & Hv & H1 & H2 & H3 & H4 & ->).
    exists (index, date). split; [exact Hin|]. rewrite Hv.
    rewrite (proj2 (cellRank_Some cell n)) by (repeat split; assumption).
    reflexivity.
Qed.

(** * The import never throws *)

Lemma report_result cb c t m st : result (report cb c t m st) = result st.
Proof. unfold report. destruct cb; reflexivity. Qed.

Lemma report_db cb c t m st : db (world (report cb c t m st)) = db (world st).
Proof. unfold report. destruct cb; reflexivity. Qed.

Lemma report_calls cb c t m st : calls (world (report cb c t m st)) = calls (world st).
Proof. unfold report. destruct cb; reflexivity. Qed.

Lemma validation_errors_nonempty csvContent :
  isValid (validatePascalCsv csvContent) = false ->
  validation_errors (validatePascalCsv csvContent) <> [].
Proof.
  unfold validatePascalCsv.
  destruct (split "010" (trim csvContent)) as [|header [|row rows]]; cbn; try discriminate.
  intros H. apply bool_decide_eq_false in H. exact H.
Qed.

(** C5 (as amended): the import always returns a structured result and
    never throws.  When validation fails, when the parser throws, or when
    no entity is parsed, the result has success false and a non-empty error
    list, and no persistence call has been made: the store is as it
    was. *)
Theorem importPascalCsv_returns gw cb csvContent w :
  exists res w',
    importPascalCsv gw cb csvContent w = (Returned res, w')
    /\ ((isValid (validatePascalCsv csvContent) = false
         \/ (exists e, parsePascalCsv csvContent = Threw e)
         \/ (exists data, parsePascalCsv csvContent = Returned data
                          /\ keywords data = [])) ->
        success res = false /\ errors res <> []
        /\ calls w' = calls w /\ db w' = db w).
Proof.
  unfold importPascalCsv, importBody. cbv zeta.
  destruct (isValid (validatePascalCsv csvContent)) eqn:Ev; cbn [negb].
  2:{ eexists _, _. split; [reflexivity|]. intros _.
      cbn [result world withErrors success errors].
      rewrite report_result, report_db, report_calls. cbn.
      repeat split. apply validation_errors_nonempty, Ev. }
  destruct (parsePascalCsv csvContent) as [csvData|e] eqn:Ep.
  2:{ eexists _, _. split; [reflexivity|]. intros _.
      cbn [result world pushError withErrors success errors].
      rewrite !report_result, !report_db, !report_calls. cbn.
      repeat split. intros H.
    first [discriminate H | apply app_eq_nil in H as [_ H]; discriminate H]. }
  destruct (keywords csvData) as [|k ks] eqn:Ek.
  { eexists _, _. split; [reflexivity|]. intros _.
    cbn [result world pushError withErrors withTotals success errors].
    rewrite !report_result, !report_db, !report_calls. cbn.
    repeat split. intros H.
    first [discriminate H | apply app_eq_nil in H as [_ H]; discriminate H]. }
  destruct (importKeywordBatches _ _ _ _ _ _) as [keywordIdMap st] eqn:Eb.
  eexists _, _. split; [reflexivity|].
  intros [H|[[e H]|(data & H & Hk)]]; [discriminate|discriminate|].
  injection H as <-. rewrite Ek in Hk. discriminate.
Qed.

(** The abort cases come back as results, not as thrown errors: the empty
    input, a header without date columns, and a header that passes
    validation but makes the parser throw. *)
Lemma import_aborts_are_returned :
  importPascalCsv acceptAll false EmptyString emptyWorld
  = (Returned (mkPascalImportResult false 0 0 0 0 0
                 ["CSV must contain at least header and one data row"] EmptyString),
     emptyWorld)
  /\ parsePascalCsv (String.app "Pascal ID keyword,x,2025/1/1" (String "010" "1,2,3"))
     = Threw (ErrorObject "CSV must contain Pascal ID and キーワード columns")
  /\ importPascalCsv acceptAll false
       (String.app "Pascal ID keyword,x,2025/1/1" (String "010" "1,2,3")) emptyWorld
     = (Returned (mkPascalImportResult false 0 0 0 0 0
                    ["Import failed: CSV must contain Pascal ID and キーワード columns"]
                    EmptyString),
        emptyWorld)
  /\ ~ (exists e w, importPascalCsv acceptAll false EmptyString emptyWorld = (Threw e, w)).
Proof.
  split; [vm_compute; reflexivity|]. split; [vm_compute; reflexivity|].
  split; [vm_compute; reflexivity|].
  intros (e & w & H). vm_compute in H. discriminate.
Qed.
(** * Re-import *)

Lemma chunks_fuel_concat {A} fuel size (l : list A) :
  concat (chunks_fuel fuel size l) = l.
Proof.
  revert l. induction fuel as [|fuel IH]; intros l; destruct l as [|x l]; try reflexivity.
  - cbn. rewrite app_nil_r. reflexivity.
  - cbn [chunks_fuel concat]. rewrite IH. apply take_drop.
Qed.

Lemma chunks_concat {A} size (l : list A) : concat (chunks size l) = l.
Proof. apply chunks_fuel_concat. Qed.

Lemma importKeyword_step gw k idMap st :
  let '(idMap', st') := importKeyword gw k (idMap, st) in
  (idMap', db (world st')) = keywordStep gw (idMap, db (world st)) k.
Proof.
  unfold importKeyword, keywordStep, keywordService_upsert. cbn [fst snd].
  destruct (keywordRejected gw (db (world st)) k); [reflexivity|].
  destruct (upsertKeywordRow k (db (world st))) as [row d]. reflexivity.
Qed.

Lemma importKeyword_fold gw batch : forall idMap st,
  let '(idMap', st') := foldl (fun a k => importKeyword gw k a) (idMap, st) batch in
  (idMap', db (world st')) = foldl (keywordStep gw) (idMap, db (world st)) batch.
Proof.
  induction batch as [|k batch IH]; intros idMap st; [reflexivity|].
  cbn [foldl]. pose proof (importKeyword_step gw k idMap st) as Hs.
  destruct (importKeyword gw k (idMap, st)) as [idMap1 st1].
  rewrite <- Hs. apply IH.
Qed.

Lemma importKeywordBatches_db gw cb total batches : forall i idMap st,
  let '(idMap', st') := importKeywordBatches gw cb total i batches (idMap, st) in
  (idMap', db (world st')) = foldl (keywordStep gw) (idMap, db (world st)) (concat batches).
Proof.
  induction batches as [|batch batches IH]; intros i idMap st; [reflexivity|].
  cbn [importKeywordBatches concat]. rewrite foldl_app.
  pose proof (importKeyword_fold gw batch idMap st) as Hb.
  destruct (foldl (fun a k => importKeyword gw k a) (idMap, st) batch) as [idMap1 st1].
  rewrite <- Hb.
  specialize (IH (i + KEYWORD_BATCH_SIZE)%nat idMap1
                (report cb (Z.min 7 (3 + Z.of_nat i * 4 / Z.of_nat total)) 10
                   (String.app "キーワード "
                     (String.app (pretty (Z.of_nat (Nat.min (i + KEYWORD_BATCH_SIZE) total)))
                     (String.app "/" (String.app (pretty (Z.of_nat total)) " 登録完了")))) st1)).
  rewrite report_db in IH. exact IH.
Qed.

Lemma lookup_upsertKeywordRow k d p :
  pascal_keywords (snd (upsertKeywordRow k d)) !! p =
  if decide (pascal_id k = p)
  then Some (mkPascalKeyword
               (match pascal_keywords d !! pascal_id k with
                | Some old => id old | None => next_id d end) k)
  else pascal_keywords d !! p.
Proof.
  unfold upsertKeywordRow.
  destruct (pascal_keywords d !! pascal_id k) as [old|]; cbn [snd pascal_keywords];
    rewrite lookup_insert; destruct (decide (pascal_id k = p)); reflexivity.
Qed.

Lemma upsertKeywordRow_row k d :
  fst (upsertKeywordRow k d) =
  mkPascalKeyword (match pascal_keywords d !! pascal_id k with
                   | Some old => id old | None => next_id d end) k.
Proof.
  unfold upsertKeywordRow. destruct (pascal_keywords d !! pascal_id k); reflexivity.
Qed.

Lemma upsertKeywordRow_rankings k d :
  pascal_daily_rankings (snd (upsertKeywordRow k d)) = pascal_daily_rankings d.
Proof.
  unfold upsertKeywordRow. destruct (pascal_keywords d !! pascal_id k); reflexivity.
Qed.

Lemma upsertKeywordRow_next_id k d :
  is_Some (pascal_keywords d !! pascal_id k) ->
  next_id (snd (upsertKeywordRow k d)) = next_id d.
Proof.
  intros [old H]. unfold upsertKeywordRow. rewrite H. reflexivity.
Qed.

(** What a run of keyword upserts leaves: under a natural key written to,
    the last accepted keyword, with the id the row already had, and the
    same id in the id map; every other key untouched. *)
Lemma keyword_fold_spec gw d0 l :
  requestDetermined gw ->
  forall idMap d,
  let '(idMap', d') := foldl (keywordStep gw) (idMap, d) l in
  pascal_daily_rankings d' = pascal_daily_rankings d
  /\ (forall p,
        match lastOf (accepted gw d0 l) p with
        | Some k =>
            exists i, pascal_keywords d' !! p = Some (mkPascalKeyword i k)
              /\ idMap' !! p = Some i
              /\ (forall row, pascal_keywords d !! p = Some row -> i = id row)
        | None =>
            pascal_keywords d' !! p = pascal_keywords d !! p
            /\ idMap' !! p = idMap !! p
        end)
  /\ ((forall k, k ∈ accepted gw d0 l -> is_Some (pascal_keywords d !! pascal_id k)) ->
      next_id d' = next_id d).
Proof.
  intros [Hrd _]. induction l as [|k l IH]; intros idMap d.
  - cbn. repeat split; reflexivity.
  - cbn [foldl]. unfold keywordStep at 2. cbn [fst snd].
    unfold accepted. cbn [List.filter]. fold (accepted gw d0 l).
    rewrite (Hrd d d0 k).
    destruct (keywordRejected gw d0 k) as [e|] eqn:Er.
    + rewrite bool_decide_eq_false_2 by discriminate. apply IH.
    + rewrite bool_decide_eq_true_2 by reflexivity.
      pose proof (upsertKeywordRow_row k d) as Hrow.
      pose proof (lookup_upsertKeywordRow k d) as Hlook.
      pose proof (upsertKeywordRow_rankings k d) as Hrank.
      pose proof (upsertKeywordRow_next_id k d) as Hnext.
      destruct (upsertKeywordRow k d) as [row d1]. cbn [fst snd] in *.
      specialize (IH (<[pascal_id k := id row]> idMap) d1).
      destruct (foldl (keywordStep gw) (<[pascal_id k := id row]> idMap, d1) l)
        as [idMap' d'].
      destruct IH as (IHr & IHp & IHn). split; [congruence|]. split.
      * intros p. specialize (IHp p). cbn [lastOf].
        destruct (lastOf (accepted gw d0 l) p) as [k'|].
        -- destruct IHp as (i & H1 & H2 & H3). exists i.
           split; [exact H1|]. split; [exact H2|].
           intros old Hold. rewrite Hlook in H3.
           destruct (decide (pascal_id k = p)) as [<-|Hne].
           ++ rewrite Hold in H3. apply (H3 _ eq_refl).
           ++ apply H3, Hold.
        -- destruct IHp as [H1 H2]. rewrite Hlook in H1.
           destruct (decide (pascal_id k = p)) as [Heq|Hne].
           ++ rewrite (proj2 (Z.eqb_eq _ _) Heq). subst p.
              eexists. split; [exact H1|]. split.
              ** rewrite H2, lookup_insert_eq, Hrow. reflexivity.
              ** intros old Hold. rewrite Hold. reflexivity.
           ++ rewrite (proj2 (Z.eqb_neq _ _) Hne). split; [exact H1|].
              rewrite H2. apply lookup_insert_ne. exact Hne.
      * intros Hall. rewrite IHn.
        -- apply Hnext, Hall. left.
        -- intros k' Hk'. rewrite Hlook.
           destruct (decide (pascal_id k = pascal_id k')); [eauto|].
           apply Hall. right. exact Hk'.
Qed.

Lemma lastOf_Some_elem l p k : lastOf l p = Some k -> k ∈ l /\ pascal_id k = p.
Proof.
  induction l as [|x l IH]; [discriminate|]. cbn [lastOf].
  destruct (lastOf l p) as [k'|].
  - intros [= ->]. destruct (IH eq_refl) as [H1 H2]. split; [right; exact H1|exact H2].
  - destruct (pascal_id x =? p) eqn:E; [|discriminate].
    intros [= ->]. split; [left|]. apply Z.eqb_eq, E.
Qed.

Lemma lastOf_None_elem l p k : lastOf l p = None -> k ∈ l -> pascal_id k <> p.
Proof.
  induction l as [|x l IH]; intros H Hin; [inversion Hin|]. cbn [lastOf] in H.
  destruct (lastOf l p) as [k'|] eqn:El; [discriminate|].
  destruct (pascal_id x =? p) eqn:E; [discriminate|].
  apply elem_of_cons in Hin as [->|Hin]; [apply Z.eqb_neq, E|apply IH; auto].
Qed.
Lemma lastOf_accepted_elem l p k :
  k ∈ l -> pascal_id k = p -> is_Some (lastOf l p).
Proof.
  intros Hin Hp. destruct (lastOf l p) eqn:E; [eauto|].
  exfalso. apply (lastOf_None_elem l p k E Hin Hp).
Qed.

(** Running the keyword phase again on a store that kept its keyword
    table gives the same id map and leaves the table and the id counter
    as they are. *)
Lemma keyword_phase_rerun gw l d d1' :
  requestDetermined gw ->
  let '(m1, d1) := foldl (keywordStep gw) (∅, d) l in
  pascal_keywords d1' = pascal_keywords d1 -> next_id d1' = next_id d1 ->
  let '(m2, d2) := foldl (keywordStep gw) (∅, d1') l in
  m2 = m1 /\ pascal_keywords d2 = pascal_keywords d1 /\ next_id d2 = next_id d1
  /\ pascal_daily_rankings d2 = pascal_daily_rankings d1'.
Proof.
  intros Hrd.
  pose proof (keyword_fold_spec gw d l Hrd ∅ d) as F1.
  destruct (foldl (keywordStep gw) (∅, d) l) as [m1 d1].
  destruct F1 as (_ & F1p & _). intros Hk Hn.
  pose proof (keyword_fold_spec gw d l Hrd ∅ d1') as F2.
  destruct (foldl (keywordStep gw) (∅, d1') l) as [m2 d2].
  destruct F2 as (F2r & F2p & F2n).
  assert (Hmaps : forall p, m2 !! p = m1 !! p
                            /\ pascal_keywords d2 !! p = pascal_keywords d1 !! p).
  { intros p. specialize (F1p p). specialize (F2p p).
    destruct (lastOf (accepted gw d l) p) as [k|].
    - destruct F1p as (i1 & A1 & B1 & _). destruct F2p as (i2 & A2 & B2 & C2).
      rewrite Hk, A1 in C2. specialize (C2 _ eq_refl). cbn in C2. subst i2.
      split; congruence.
    - destruct F1p as [A1 B1]. destruct F2p as [A2 B2]. split; congruence. }
  split; [apply map_eq; intros p; apply Hmaps|].
  split; [apply map_eq; intros p; apply Hmaps|].
  split; [|exact F2r].
  rewrite F2n; [exact Hn|]. intros k Hk'. rewrite Hk.
  specialize (F1p (pascal_id k)).
  destruct (lastOf_accepted_elem _ _ k Hk' eq_refl) as [k' Hl]. rewrite Hl in F1p.
  destruct F1p as (i & A1 & _). rewrite A1. eauto.
Qed.

Lemma upsertRankingRows_app rows1 rows2 d :
  upsertRankingRows (rows1 ++ rows2) d = upsertRankingRows rows2 (upsertRankingRows rows1 d).
Proof. unfold upsertRankingRows. cbn. rewrite foldl_app. reflexivity. Qed.

Lemma upsertRankingRows_nil d : upsertRankingRows [] d = d.
Proof. destruct d. reflexivity. Qed.

Lemma importRankingBatches_db gw d0 keywordId batches :
  requestDetermined gw ->
  forall st,
  db (world (snd (importRankingBatches gw keywordId batches st)))
  = upsertRankingRows (acceptedBatches gw d0 keywordId batches) (db (world st)).
Proof.
  intros [_ Hrd]. induction batches as [|batch batches IH]; intros st.
  - cbn. rewrite upsertRankingRows_nil. reflexivity.
  - cbn [importRankingBatches acceptedBatches].
    unfold rankingService_bulkUpsertRankings.
    rewrite (Hrd (db (world st)) d0).
    destruct (rankingsRejected gw d0 _) as [e|].
    + cbn. rewrite upsertRankingRows_nil. reflexivity.
    + rewrite IH. cbn [world db]. rewrite upsertRankingRows_app. reflexivity.
Qed.

Lemma pushError_db msg st : db (world (pushError msg st)) = db (world st).
Proof. reflexivity. Qed.

Lemma importRankingGroups_db gw cb d0 keywordIdMap total groups :
  requestDetermined gw ->
  forall processed st,
  db (world (importRankingGroups gw cb keywordIdMap total groups processed st))
  = upsertRankingRows (acceptedRows gw d0 keywordIdMap groups) (db (world st)).
Proof.
  intros Hrd. induction groups as [|[pascalId rankings] groups IH]; intros processed st.
  - cbn. rewrite upsertRankingRows_nil. reflexivity.
  - cbn [importRankingGroups acceptedRows].
    destruct (keywordIdMap !! pascalId) as [keywordId|].
    + pose proof (importRankingBatches_db gw d0 keywordId
                    (chunks RANKING_BATCH_SIZE rankings) Hrd st) as Hb.
      destruct (importRankingBatches gw keywordId (chunks RANKING_BATCH_SIZE rankings) st)
        as [[e|] st']; cbn [snd] in Hb; cbv zeta; rewrite IH;
        rewrite ?report_db, ?pushError_db, Hb, upsertRankingRows_app; reflexivity.
    + rewrite IH, pushError_db. reflexivity.
Qed.

(** Writing the same rows twice leaves what writing them once leaves. *)
Lemma ranking_fold_union (rows : list RankingRow) (m : gmap (nat * string) (option Z)) :
  foldl (fun m r => <[(pascal_keyword_id r, row_date r) := row_rank r]> m) m rows
  = list_to_map (rev (map (fun r => ((pascal_keyword_id r, row_date r), row_rank r)) rows))
    ∪ m.
Proof.
  revert m. induction rows as [|r rows IH]; intros m.
  - cbn. rewrite (left_id_L ∅ (∪)). reflexivity.
  - cbn [foldl map rev]. rewrite IH, list_to_map_app. cbn [list_to_map foldr].
    rewrite <- (assoc_L (∪)). f_equal.
    rewrite insert_union_singleton_l, insert_empty. reflexivity.
Qed.

Lemma upsertRankingRows_twice rows d :
  upsertRankingRows rows (upsertRankingRows rows d) = upsertRankingRows rows d.
Proof.
  unfold upsertRankingRows. cbn [pascal_keywords pascal_daily_rankings next_id].
  f_equal. rewrite !ranking_fold_union.
  rewrite (assoc_L (∪)), (idemp_L (∪)). reflexivity.
Qed.
(** The store after an import that reaches persistence: the keyword phase
    over all parsed keywords, then the accepted ranking rows. *)
Lemma import_db gw cb csvContent w data d0 :
  requestDetermined gw ->
  isValid (validatePascalCsv csvContent) = true ->
  parsePascalCsv csvContent = Returned data ->
  keywords data <> [] ->
  db (snd (importPascalCsv gw cb csvContent w)) =
  upsertRankingRows
    (acceptedRows gw d0 (fst (foldl (keywordStep gw) (∅, db w) (keywords data)))
       (groupRankings (rankings data)))
    (snd (foldl (keywordStep gw) (∅, db w) (keywords data))).
Proof.
  intros Hrd Hv Hp Hk. unfold importPascalCsv, importBody. cbv zeta.
  rewrite Hv, Hp. cbn [negb].
  destruct (keywords data) as [|k ks] eqn:Ek; [contradiction|].
  match goal with
  | |- context [importKeywordBatches gw cb ?t ?i ?b (∅, ?st)] =>
      pose proof (importKeywordBatches_db gw cb t b i ∅ st) as Hb;
      destruct (importKeywordBatches gw cb t i b (∅, st)) as [idMap st1]
  end.
  rewrite chunks_concat in Hb.
  repeat (rewrite report_db in Hb; cbn [world] in Hb).
  rewrite <- Hb. cbn [fst snd world result].
  rewrite report_db, (importRankingGroups_db gw cb d0) by exact Hrd.
  rewrite report_db. reflexivity.
Qed.

Lemma import_db_abort gw cb csvContent w :
  (isValid (validatePascalCsv csvContent) = false
   \/ (exists e, parsePascalCsv csvContent = Threw e)
   \/ (exists data, parsePascalCsv csvContent = Returned data /\ keywords data = [])) ->
  db (snd (importPascalCsv gw cb csvContent w)) = db w.
Proof.
  intros H. unfold importPascalCsv, importBody. cbv zeta.
  destruct (isValid (validatePascalCsv csvContent)) eqn:Ev; cbn [negb].
  2:{ cbn [snd world]. apply report_db. }
  destruct (parsePascalCsv csvContent) as [csvData|e] eqn:Ep.
  2:{ cbn [snd world]. rewrite !report_db. reflexivity. }
  destruct (keywords csvData) as [|k ks] eqn:Ek.
  { cbn [snd world pushError]. rewrite !report_db. reflexivity. }
  exfalso. destruct H as [H|[[e H]|(data & H & Hk)]]; try discriminate.
  injection H as <-. rewrite Ek in Hk. discriminate.
Qed.

(** C3: importing the same content a second time leaves the store as the
    first import left it: the same entities (so the same entity count) and
    the same rank under every fact key.  The store refuses a request, if it
    does, for the request's own sake; the two runs may differ in whether a
    progress callback is given. *)
Theorem reimport_idempotent gw cb1 cb2 csvContent w :
  requestDetermined gw ->
  let w1 := snd (importPascalCsv gw cb1 csvContent w) in
  let w2 := snd (importPascalCsv gw cb2 csvContent w1) in
  db w2 = db w1
  /\ size (pascal_keywords (db w2)) = size (pascal_keywords (db w1))
  /\ forall key, pascal_daily_rankings (db w2) !! key
                 = pascal_daily_rankings (db w1) !! key.
Proof.
  intros Hrd. cbv zeta.
  assert (Heq : db (snd (importPascalCsv gw cb2 csvContent
                           (snd (importPascalCsv gw cb1 csvContent w))))
                = db (snd (importPascalCsv gw cb1 csvContent w))).
  { destruct (isValid (validatePascalCsv csvContent)) eqn:Ev.
    2:{ apply import_db_abort. left. exact Ev. }
    destruct (parsePascalCsv csvContent) as [data|e] eqn:Ep.
    2:{ apply import_db_abort. right. left. eauto. }
    destruct (keywords data) as [|k ks] eqn:Ek.
    { apply import_db_abort. right. right. eauto. }
    assert (Hne : keywords data <> []) by (rewrite Ek; discriminate).
    rewrite (import_db gw cb2 csvContent _ data (db w) Hrd Ev Ep Hne).
    rewrite (import_db gw cb1 csvContent w data (db w) Hrd Ev Ep Hne).
    pose proof (keyword_phase_rerun gw (keywords data) (db w)
                  (upsertRankingRows
                     (acceptedRows gw (db w)
                        (fst (foldl (keywordStep gw) (∅, db w) (keywords data)))
                        (groupRankings (rankings data)))
                     (snd (foldl (keywordStep gw) (∅, db w) (keywords data)))) Hrd) as Hk.
    destruct (foldl (keywordStep gw) (∅, db w) (keywords data)) as [m1 d1].
    cbn [fst snd] in *. specialize (Hk eq_refl eq_refl).
    destruct (foldl (keywordStep gw) (∅, upsertRankingRows _ d1) (keywords data))
      as [m2 d2].
    destruct Hk as (-> & Hkw & Hn & Hr). cbn [fst snd].
    set (rows := acceptedRows gw (db w) m1 (groupRankings (rankings data))) in *.
    etransitivity; [|apply (upsertRankingRows_twice rows d1)].
    unfold upsertRankingRows in *.
    cbn [pascal_keywords pascal_daily_rankings next_id] in *.
    rewrite Hkw, Hn, Hr. reflexivity. }
  rewrite Heq. repeat split.
Qed.

Lemma acceptAll_requestDetermined : requestDetermined acceptAll.
Proof. split; reflexivity. Qed.

Lemma reimport_idempotent_witness :
  let csv := String.app "Pascal ID,キーワード,2025年1月1日"
               (String "010" "7,foo,5") in
  requestDetermined acceptAll
  /\ db (snd (importPascalCsv acceptAll false csv
                (snd (importPascalCsv acceptAll true csv emptyWorld))))
     = db (snd (importPascalCsv acceptAll true csv emptyWorld)).
Proof.
  cbv zeta. split; [exact acceptAll_requestDetermined|].
  apply (reimport_idempotent acceptAll true false _ emptyWorld acceptAll_requestDetermined).
Defined.
(** * The import: counters and verdict *)

(** The fields of the result that a step leaves alone. *)
Ltac result_fields :=
  cbn [result world pushError withErrors withTotals addImportedKeywords
       addImportedRankings success totalKeywords importedKeywords updatedKeywords
       totalRankings importedRankings errors summary].

Lemma importKeyword_counts gw k idMap st :
  let r := result st in
  let r' := result (snd (importKeyword gw k (idMap, st))) in
  success r' = success r /\ totalKeywords r' = totalKeywords r
  /\ totalRankings r' = totalRankings r /\ updatedKeywords r' = updatedKeywords r
  /\ importedRankings r' = importedRankings r
  /\ ((importedKeywords r' = importedKeywords r + 1 /\ errors r' = errors r)
      \/ (importedKeywords r' = importedKeywords r
          /\ exists msg, errors r' = errors r ++ [msg])).
Proof.
  cbv zeta. unfold importKeyword, keywordService_upsert.
  destruct (keywordRejected gw (db (world st)) k) as [e|].
  - cbn [snd]. result_fields. repeat split. right. split; [reflexivity|eauto].
  - destruct (upsertKeywordRow k (db (world st))) as [row d]. cbn [snd]. result_fields.
    repeat split. left. split; reflexivity.
Qed.

Lemma importKeyword_fold_counts gw batch : forall idMap st,
  let r := result st in
  let r' := result (snd (foldl (fun a k => importKeyword gw k a) (idMap, st) batch)) in
  success r' = success r /\ totalKeywords r' = totalKeywords r
  /\ totalRankings r' = totalRankings r /\ updatedKeywords r' = updatedKeywords r
  /\ importedRankings r' = importedRankings r
  /\ exists more,
       errors r' = errors r ++ more
       /\ importedKeywords r' + Z.of_nat (length more)
          = importedKeywords r + Z.of_nat (length batch)
       /\ importedKeywords r <= importedKeywords r'.
Proof.
  induction batch as [|k batch IH]; intros idMap st; cbv zeta.
  - cbn. repeat split. exists []. rewrite app_nil_r. split; [reflexivity|]. cbn. lia.
  - cbn [foldl]. pose proof (importKeyword_counts gw k idMap st) as Hk.
    destruct (importKeyword gw k (idMap, st)) as [idMap1 st1]. cbn [snd] in Hk.
    cbv zeta in Hk. destruct Hk as (H1 & H2 & H3 & H4 & H5 & H6).
    specialize (IH idMap1 st1). cbv zeta in IH.
    destruct IH as (I1 & I2 & I3 & I4 & I5 & more & I6 & I7 & I8).
    rewrite I1, I2, I3, I4, I5, H1, H2, H3, H4, H5. repeat split.
    destruct H6 as [[Hn He]|[Hn [msg He]]].
    + exists more. rewrite I6, He. split; [reflexivity|]. cbn [length]. lia.
    + exists (msg :: more). rewrite I6, He, <- app_assoc. split; [reflexivity|].
      cbn [length]. lia.
Qed.

Lemma importKeywordBatches_counts gw cb total batches : forall i idMap st,
  let r := result st in
  let r' := result (snd (importKeywordBatches gw cb total i batches (idMap, st))) in
  success r' = success r /\ totalKeywords r' = totalKeywords r
  /\ totalRankings r' = totalRankings r /\ updatedKeywords r' = updatedKeywords r
  /\ importedRankings r' = importedRankings r
  /\ exists more,
       errors r' = errors r ++ more
       /\ importedKeywords r' + Z.of_nat (length more)
          = importedKeywords r + Z.of_nat (length (concat batches))
       /\ importedKeywords r <= importedKeywords r'.
Proof.
  induction batches as [|batch batches IH]; intros i idMap st; cbv zeta.
  - cbn. repeat split. exists []. rewrite app_nil_r. split; [reflexivity|]. cbn. lia.
  - cbn [importKeywordBatches concat].
    pose proof (importKeyword_fold_counts gw batch idMap st) as Hb.
    destruct (foldl (fun a k => importKeyword gw k a) (idMap, st) batch) as [idMap1 st1].
    cbn [snd] in Hb. cbv zeta in Hb.
    destruct Hb as (H1 & H2 & H3 & H4 & H5 & more1 & H6 & H7 & H8).
    match goal with
    | |- context [importKeywordBatches gw cb total ?j batches (idMap1, ?s)] =>
        specialize (IH j idMap1 s)
    end.
    cbv zeta in IH. rewrite report_result in IH.
    destruct IH as (I1 & I2 & I3 & I4 & I5 & more & I6 & I7 & I8).
    rewrite I1, I2, I3, I4, I5, H1, H2, H3, H4, H5. repeat split.
    exists (more1 ++ more). rewrite I6, H6, <- app_assoc. split; [reflexivity|].
    rewrite !length_app, !Nat2Z.inj_add. lia.
Qed.
Lemma importRankingBatches_counts gw keywordId batches : forall st,
  let r := result st in
  let out := importRankingBatches gw keywordId batches st in
  let r' := result (snd out) in
  success r' = success r /\ totalKeywords r' = totalKeywords r
  /\ totalRankings r' = totalRankings r /\ updatedKeywords r' = updatedKeywords r
  /\ importedKeywords r' = importedKeywords r /\ errors r' = errors r
  /\ importedRankings r <= importedRankings r'
     <= importedRankings r + Z.of_nat (length (concat batches))
  /\ (fst out = None ->
      importedRankings r' = importedRankings r + Z.of_nat (length (concat batches))).
Proof.
  induction batches as [|batch batches IH]; intros st; cbv zeta.
  - cbn. repeat split; lia.
  - cbn [importRankingBatches concat]. unfold rankingService_bulkUpsertRankings.
    rewrite length_app, Nat2Z.inj_add.
    destruct (rankingsRejected gw (db (world st)) _) as [e|].
    + cbn [fst snd]. result_fields. repeat split; try lia. discriminate.
    + match goal with
      | |- context [importRankingBatches gw keywordId batches ?s] => specialize (IH s)
      end.
      cbv zeta in IH. destruct IH as (I1 & I2 & I3 & I4 & I5 & I6 & I7 & I8).
      rewrite I1, I2, I3, I4, I5, I6. revert I7 I8. result_fields.
      rewrite length_map. intros I7 I8. repeat split; try lia.
      intros Hn. specialize (I8 Hn). lia.
Qed.

Lemma importRankingGroups_counts gw cb keywordIdMap total groups : forall processed st,
  let r := result st in
  let r' := result (importRankingGroups gw cb keywordIdMap total groups processed st) in
  success r' = success r /\ totalKeywords r' = totalKeywords r
  /\ totalRankings r' = totalRankings r /\ updatedKeywords r' = updatedKeywords r
  /\ importedKeywords r' = importedKeywords r
  /\ importedRankings r <= importedRankings r'
     <= importedRankings r + Z.of_nat (length (concat (map snd groups)))
  /\ exists more,
       errors r' = errors r ++ more
       /\ (more = [] ->
           importedRankings r'
           = importedRankings r + Z.of_nat (length (concat (map snd groups)))).
Proof.
  induction groups as [|[pascalId rankings] groups IH]; intros processed st; cbv zeta.
  - cbn. repeat split; try lia. exists []. rewrite app_nil_r. split; [reflexivity|]. lia.
  - cbn [importRankingGroups map snd concat]. rewrite length_app, Nat2Z.inj_add.
    destruct (keywordIdMap !! pascalId) as [keywordId|].
    + pose proof (importRankingBatches_counts gw keywordId
                    (chunks RANKING_BATCH_SIZE rankings) st) as Hb.
      cbv zeta in Hb. rewrite chunks_concat in Hb.
      destruct (importRankingBatches gw keywordId (chunks RANKING_BATCH_SIZE rankings) st)
        as [[e|] st1]; cbn [fst snd] in Hb; cbv zeta;
        destruct Hb as (H1 & H2 & H3 & H4 & H5 & H6 & H7 & H8);
        match goal with
        | |- context [importRankingGroups gw cb keywordIdMap total groups ?p ?s] =>
            specialize (IH p s)
        end;
        cbv zeta in IH; rewrite ?report_result in IH; revert IH; result_fields;
        intros (I1 & I2 & I3 & I4 & I5 & I6 & more & I7 & I8);
        rewrite I1, I2, I3, I4, I5, H1, H2, H3, H4, H5; repeat split; try lia.
      * eexists. rewrite I7, H6, <- app_assoc. split; [reflexivity|].
        discriminate.
      * exists more. rewrite I7, H6. split; [reflexivity|].
        intros Hm. specialize (I8 Hm). specialize (H8 eq_refl). lia.
    + match goal with
      | |- context [importRankingGroups gw cb keywordIdMap total groups ?p ?s] =>
          specialize (IH p s)
      end.
      cbv zeta in IH. revert IH. result_fields.
      intros (I1 & I2 & I3 & I4 & I5 & I6 & more & I7 & I8).
      rewrite I1, I2, I3, I4, I5. repeat split; try lia.
      eexists. rewrite I7, <- app_assoc. split; [reflexivity|]. discriminate.
Qed.

(** Grouping keeps every ranking. *)
Lemma addRanking_size ranking groups :
  length (concat (map snd (addRanking ranking groups)))
  = S (length (concat (map snd groups))).
Proof.
  induction groups as [|[pid rs] groups IH]; [reflexivity|].
  cbn [addRanking]. destruct (pid =? r_pascal_id ranking); cbn [map snd concat].
  - rewrite !length_app. cbn. lia.
  - rewrite !length_app, IH. lia.
Qed.

Lemma groupRankings_size rankings :
  length (concat (map snd (groupRankings rankings))) = length rankings.
Proof.
  unfold groupRankings.
  assert (H : forall groups,
             length (concat (map snd (foldl (fun groups r => addRanking r groups)
                                        groups rankings)))
             = (length (concat (map snd groups)) + length rankings)%nat).
  { induction rankings as [|r rankings IH]; intros groups; cbn [foldl length]; [lia|].
    rewrite IH, addRanking_size. lia. }
  rewrite H. reflexivity.
Qed.
(** What every result of the import satisfies, whichever way the run
    ends. *)
Lemma import_counts gw cb csvContent w :
  exists r,
    fst (importPascalCsv gw cb csvContent w) = Returned r
    /\ updatedKeywords r = 0
    /\ (success r = true <-> errors r = [])
    /\ 0 <= importedKeywords r <= totalKeywords r
    /\ 0 <= importedRankings r <= totalRankings r
    /\ totalKeywords r - importedKeywords r <= Z.of_nat (length (errors r))
    /\ (errors r = [] ->
        0 < totalKeywords r /\ importedKeywords r = totalKeywords r
        /\ importedRankings r = totalRankings r)
    /\ match parsePascalCsv csvContent with
       | Returned data =>
           isValid (validatePascalCsv csvContent) = true ->
           totalKeywords r = Z.of_nat (length (keywords data))
           /\ totalRankings r = Z.of_nat (length (rankings data))
       | Threw _ => totalKeywords r = 0 /\ totalRankings r = 0
       end.
Proof.
  unfold importPascalCsv, importBody. cbv zeta.
  destruct (isValid (validatePascalCsv csvContent)) eqn:Ev; cbn [negb].
  2:{ eexists. split; [reflexivity|]. result_fields. rewrite report_result. cbn.
      pose proof (validation_errors_nonempty csvContent Ev) as Hne.
      repeat split; try lia; try discriminate; try contradiction.
      destruct (parsePascalCsv csvContent); [discriminate|split; reflexivity]. }
  destruct (parsePascalCsv csvContent) as [csvData|e] eqn:Ep.
  2:{ eexists. split; [reflexivity|]. result_fields. rewrite !report_result. cbn.
      repeat split; try lia; discriminate. }
  destruct (keywords csvData) as [|k ks] eqn:Ek.
  { eexists. split; [reflexivity|]. result_fields. rewrite !report_result. cbn.
    repeat split; try lia; discriminate. }
  rewrite <- Ek.
  match goal with
  | |- context [importKeywordBatches gw cb ?t ?i ?b (∅, ?st)] =>
      pose proof (importKeywordBatches_counts gw cb t b i ∅ st) as Hb;
      destruct (importKeywordBatches gw cb t i b (∅, st)) as [idMap st1]
  end.
  cbv zeta in Hb. cbn [snd] in Hb. rewrite chunks_concat in Hb.
  rewrite !report_result in Hb. revert Hb. unfold emptyResult. result_fields.
  cbn [app].
  intros (H1 & H2 & H3 & H4 & H5 & more1 & H6 & H7 & H8).
  eexists. split; [reflexivity|]. cbn [result world].
  rewrite report_result.
  match goal with
  | |- context [importRankingGroups gw cb idMap ?t ?g ?p ?st] =>
      pose proof (importRankingGroups_counts gw cb idMap t g p st) as Hg;
      set (st2 := importRankingGroups gw cb idMap t g p st) in *
  end.
  cbv zeta in Hg. rewrite groupRankings_size, !report_result in Hg.
  destruct Hg as (G1 & G2 & G3 & G4 & G5 & G6 & more2 & G7 & G8).
  unfold finish. result_fields.
  rewrite G2, G3, G4, G5, H2, H3, H4. rewrite H5 in G6, G8. rewrite H6 in G7.
  assert (Hlen : 0 < Z.of_nat (length (keywords csvData))) by (rewrite Ek; cbn; lia).
  rewrite G7. rewrite bool_decide_eq_true.
  repeat split; try tauto; try lia.
  - rewrite length_app. lia.
  - apply app_eq_nil in H as [-> _]. cbn in H7. lia.
  - apply app_eq_nil in H as [_ ->]. rewrite G8 by reflexivity. lia.
Qed.
(** * The parser: what its result always satisfies *)

Lemma parseRow_keyword columnMap dateColumns values kw facts :
  parseRow columnMap dateColumns values = Some (kw, facts) ->
  keyword_text kw <> EmptyString
  /\ facts = rowRankings (pascal_id kw) values dateColumns
  /\ exists idCell,
       cellAt values (columnMap f_pascal_id) = Some idCell
       /\ parseInt idCell = Some (pascal_id kw)
       /\ cellAt values (columnMap f_keyword) = Some (keyword_text kw).
Proof.
  unfold parseRow. intros H.
  destruct (length values <? maxColumn columnMap + 1)%nat; [discriminate|].
  destruct (cellAt values (columnMap f_pascal_id)) as [idCell|]; [|discriminate].
  destruct (parseInt idCell) as [pascalId|] eqn:Eid; [|discriminate].
  destruct (cellAt values (columnMap f_keyword)) as [[|c text]|]; cbn in H;
    try discriminate.
  injection H as <- <-. cbn. split; [discriminate|]. split; [reflexivity|].
  exists idCell. repeat split. exact Eid.
Qed.

Lemma parseRows_elems columnMap dateColumns rows :
  let data := parseRows columnMap dateColumns rows in
  (forall kw, kw ∈ keywords data <->
     exists line facts, line ∈ rows
       /\ parseRow columnMap dateColumns (cellsOf line) = Some (kw, facts))
  /\ (forall fact, fact ∈ rankings data <->
        exists line kw facts, line ∈ rows
          /\ parseRow columnMap dateColumns (cellsOf line) = Some (kw, facts)
          /\ fact ∈ facts).
Proof.
  cbv zeta. unfold parseRows. cbn [keywords rankings]. split.
  - intros kw. rewrite list_elem_of_fmap. split.
    + intros ([kw' facts] & -> & Hin). apply list_elem_of_omap in Hin as (line & Hl & Hp).
      exists line, facts. split; assumption.
    + intros (line & facts & Hl & Hp). exists (kw, facts). split; [reflexivity|].
      apply list_elem_of_omap. exists line. split; assumption.
  - intros fact. rewrite list_elem_of_In, in_concat. split.
    + intros (facts & Hf & Hin). apply list_elem_of_In, list_elem_of_fmap in Hf.
      destruct Hf as ([kw facts'] & -> & Hp).
      apply list_elem_of_omap in Hp as (line & Hl & Hp).
      exists line, kw, facts'. repeat split; try assumption.
      apply list_elem_of_In. exact Hin.
    + intros (line & kw & facts & Hl & Hp & Hin). exists facts.
      split; [|apply list_elem_of_In; exact Hin].
      apply list_elem_of_In, list_elem_of_fmap. exists (kw, facts).
      split; [reflexivity|]. apply list_elem_of_omap. exists line. split; assumption.
Qed.

Lemma parsePascalCsv_Returned csvContent data :
  parsePascalCsv csvContent = Returned data ->
  exists header row rows,
    split "010" (trim csvContent) = header :: row :: rows
    /\ is_Some (resolveColumns (cellsOf header) f_pascal_id)
    /\ is_Some (resolveColumns (cellsOf header) f_keyword)
    /\ findDateColumns (cellsOf header) <> []
    /\ data = parseRows (resolveColumns (cellsOf header))
                (findDateColumns (cellsOf header)) (row :: rows).
Proof.
  unfold parsePascalCsv. intros H.
  destruct (split "010" (trim csvContent)) as [|header [|row rows]]; try discriminate.
  exists header, row, rows. split; [reflexivity|].
  destruct (resolveColumns (cellsOf header) f_pascal_id) as [i|]; [|discriminate].
  destruct (resolveColumns (cellsOf header) f_keyword) as [j|]; [|discriminate].
  destruct (findDateColumns (cellsOf header)) as [|dc dcs] eqn:Ed; [discriminate|].
  injection H as <-. repeat split; eauto.
Qed.
(** ** Date headers *)

Lemma takeDigits_digits n : forall s ds rest,
  takeDigits n s = Some (ds, rest) ->
  all_digits ds = true /\ String.length ds = n /\ s = String.app ds rest.
Proof.
  induction n as [|n IH]; intros s ds rest H; cbn in H.
  - injection H as <- <-. repeat split.
  - destruct s as [|c s]; [discriminate|].
    destruct (is_digit c) eqn:Ec; [|discriminate].
    destruct (takeDigits n s) as [[ds' rest']|] eqn:Et; [|discriminate].
    injection H as <- <-. destruct (IH _ _ _ Et) as (Hd & Hl & ->).
    cbn. rewrite Ec, Hd, Hl. repeat split.
Qed.

Lemma digits12_captures {A} s (k : string -> string -> option A) a :
  digits12 s k = Some a ->
  exists ds rest,
    k ds rest = Some a /\ all_digits ds = true
    /\ (String.length ds = 1 \/ String.length ds = 2)%nat.
Proof.
  unfold digits12. intros H.
  destruct (takeDigits 2 s) as [[ds rest]|] eqn:E2.
  - destruct (k ds rest) as [a'|] eqn:Ek.
    + injection H as <-. destruct (takeDigits_digits _ _ _ _ E2) as (Hd & Hl & _).
      exists ds, rest. auto.
    + destruct (takeDigits 1 s) as [[ds1 rest1]|] eqn:E1; [|discriminate].
      destruct (takeDigits_digits _ _ _ _ E1) as (Hd & Hl & _).
      exists ds1, rest1. auto.
  - destruct (takeDigits 1 s) as [[ds1 rest1]|] eqn:E1; [|discriminate].
    destruct (takeDigits_digits _ _ _ _ E1) as (Hd & Hl & _).
    exists ds1, rest1. auto.
Qed.

Lemma matchAt_captured p s c : matchAt p s = Some c -> captured c.
Proof.
  unfold matchAt. intros H.
  destruct (takeDigits 4 s) as [[y r1]|] eqn:Ey; [|discriminate].
  destruct (stripPrefix (sep1 p) r1) as [r2|]; [|discriminate].
  apply digits12_captures in H as (m & r3 & H & Hm & Hml).
  destruct (stripPrefix (sep2 p) r3) as [r4|]; [|discriminate].
  apply digits12_captures in H as (d & r5 & H & Hd & Hdl).
  destruct (stripPrefix (tail p) r5); [|discriminate].
  injection H as <-. destruct (takeDigits_digits _ _ _ _ Ey) as (Hy & Hyl & _).
  repeat split; assumption.
Qed.

Lemma matchPattern_captured p s c : matchPattern p s = Some c -> captured c.
Proof.
  induction s as [|a s IH]; cbn [matchPattern]; intros H.
  - destruct (matchAt p EmptyString) eqn:E; [|discriminate].
    injection H as <-. eapply matchAt_captured, E.
  - destruct (matchAt p (String a s)) eqn:E.
    + injection H as <-. eapply matchAt_captured, E.
    + apply IH, H.
Qed.

Lemma firstMatch_captured patterns header c :
  firstMatch patterns header = Some c -> captured c.
Proof.
  induction patterns as [|p patterns IH]; cbn [firstMatch]; [discriminate|].
  destruct (matchPattern p header) eqn:E.
  - intros H. injection H as <-. eapply matchPattern_captured, E.
  - exact IH.
Qed.

Lemma firstMatch_existsb patterns header :
  is_Some (firstMatch patterns header) <->
  existsb (fun p => bool_decide (is_Some (matchPattern p header))) patterns = true.
Proof.
  induction patterns as [|p patterns IH]; cbn [firstMatch existsb].
  - split; [intros [x H]; discriminate|discriminate].
  - destruct (matchPattern p header) eqn:E.
    + rewrite bool_decide_true by eauto. cbn. split; eauto.
    + rewrite bool_decide_false by (intros [x H]; discriminate). cbn. exact IH.
Qed.

Lemma radix_digit_range radix c d : radix_digit radix c = Some d -> 0 <= d < radix.
Proof.
  unfold radix_digit. cbv zeta. intros H.
  destruct ((48 <=? byte_of c) && (byte_of c <=? 57)) eqn:E1.
  - destruct (byte_of c - 48 <? radix) eqn:E; [|discriminate]. injection H as <-. lia.
  - destruct ((97 <=? byte_of c) && (byte_of c <=? 102)) eqn:E2.
    + destruct (byte_of c - 87 <? radix) eqn:E; [|discriminate]. injection H as <-. lia.
    + destruct ((65 <=? byte_of c) && (byte_of c <=? 70)) eqn:E3; [|discriminate].
      destruct (byte_of c - 55 <? radix) eqn:E; [|discriminate]. injection H as <-. lia.
Qed.

Lemma digitsPrefix_range radix s : Forall (fun d => 0 <= d < radix) (digitsPrefix radix s).
Proof.
  induction s as [|c s IH]; cbn [digitsPrefix]; [constructor|].
  destruct (radix_digit radix c) as [d|] eqn:E; [|constructor].
  constructor; [eapply radix_digit_range, E|exact IH].
Qed.

Lemma digitsValue_nonneg radix ds :
  0 <= radix -> Forall (fun d => 0 <= d < radix) ds -> 0 <= digitsValue radix ds.
Proof.
  intros Hr. unfold digitsValue.
  assert (H : forall acc, 0 <= acc -> Forall (fun d => 0 <= d < radix) ds ->
                          0 <= foldl (fun acc d => acc * radix + d) acc ds).
  { induction ds as [|d ds IH]; intros acc Hacc Hds; cbn [foldl]; [exact Hacc|].
    inversion Hds; subst. apply IH; [nia|assumption]. }
  apply H. lia.
Qed.

(** [parseInt] of a string of digits is the number they spell. *)
Lemma parseInt_all_digits s :
  all_digits s = true -> s <> EmptyString ->
  parseInt s = Some (digitsValue 10 (digitsPrefix 10 s))
  /\ 0 <= digitsValue 10 (digitsPrefix 10 s).
Proof.
  intros Hd Hne. split; [|apply digitsValue_nonneg; [lia|apply digitsPrefix_range]].
  destruct s as [|c rest]; [contradiction|]. cbn [all_digits] in Hd.
  apply andb_true_iff in Hd as [Hc Hrest]. unfold is_digit in Hc.
  assert (Hr : radix_digit 10 c = Some (byte_of c - 48)).
  { unfold radix_digit. cbv zeta. rewrite Hc.
    replace (byte_of c - 48 <? 10) with true by lia. reflexivity. }
  unfold parseInt. cbv zeta. rewrite trimStart_printable by lia.
  rewrite (eqb_byte_of c "-") by (change (byte_of "-") with 45; lia).
  rewrite (eqb_byte_of c "+") by (change (byte_of "+") with 43; lia).
  destruct rest as [|c2 rest].
  - cbn [digitsPrefix]. rewrite Hr. rewrite Z.mul_1_l. reflexivity.
  - cbn [all_digits] in Hrest. apply andb_true_iff in Hrest as [Hc2 _].
    unfold is_digit in Hc2.
    rewrite (eqb_byte_of c2 "x") by (change (byte_of "x") with 120; lia).
    rewrite (eqb_byte_of c2 "X") by (change (byte_of "X") with 88; lia).
    rewrite andb_false_r. cbn [digitsPrefix]. rewrite Hr. rewrite Z.mul_1_l. reflexivity.
Qed.

Lemma headerDate_firstMatch header :
  match firstMatch datePatterns header with
  | Some (y, m, d) =>
      headerDate header =
      Some (toISODate (DateUTC (digitsValue 10 (digitsPrefix 10 y))
                         (digitsValue 10 (digitsPrefix 10 m) - 1)
                         (digitsValue 10 (digitsPrefix 10 d))))
  | None => headerDate header = None
  end.
Proof.
  unfold headerDate.
  destruct (firstMatch datePatterns header) as [[[y m] d]|] eqn:E; [|reflexivity].
  apply firstMatch_captured in E as ((Hy & Hyl) & (Hm & Hml) & (Hd & Hdl)).
  destruct (parseInt_all_digits y Hy) as [-> _]; [intros ->; discriminate|].
  destruct (parseInt_all_digits m Hm) as [-> _]; [intros ->; cbn in Hml; lia|].
  destruct (parseInt_all_digits d Hd) as [-> _]; [intros ->; cbn in Hdl; lia|].
  reflexivity.
Qed.

Lemma hasDate_headerDate h : hasDate h = true <-> is_Some (headerDate h).
Proof.
  unfold hasDate. rewrite <- firstMatch_existsb.
  pose proof (headerDate_firstMatch h) as H.
  destruct (firstMatch datePatterns h) as [[[y m] d]|]; rewrite H.
  - split; eauto.
  - split; intros [x Hx]; discriminate.
Qed.

Lemma dateColumns_from_nil index headers :
  dateColumns_from index headers = [] <-> existsb hasDate headers = false.
Proof.
  revert index. induction headers as [|h headers IH]; intros index;
    cbn [dateColumns_from existsb]; [tauto|].
  pose proof (hasDate_headerDate h) as Hh.
  destruct (headerDate h) as [dateString|].
  - replace (hasDate h) with true by (symmetry; apply Hh; eauto). cbn.
    split; discriminate.
  - destruct (hasDate h); [destruct (proj1 Hh eq_refl); discriminate|]. cbn. apply IH.
Qed.
(** ** Columns that no header names *)

Lemma resolveColumns_from_None headers : forall start (columnMap : ColumnMap) f,
  resolveColumns_from start headers columnMap f = None <->
  columnMap f = None /\ forall h, h ∈ headers -> classifyHeader h <> Some f.
Proof.
  induction headers as [|h0 headers IH]; intros start columnMap f;
    cbn [resolveColumns_from].
  - split; [intros H; split; [exact H|intros h Hh; inversion Hh]|intros [H _]; exact H].
  - rewrite IH. split.
    + intros [Hm Hnone]. destruct (classifyHeader h0) as [f0|] eqn:E0.
      * rewrite setColumn_lookup in Hm. destruct (Field_eqb f f0) eqn:Ef; [discriminate|].
        split; [exact Hm|]. intros h Hh.
        apply elem_of_cons in Hh as [->|Hh]; [|apply Hnone, Hh].
        rewrite E0. intros [= ->].
        assert (Field_eqb f f = true) by (apply Field_eqb_eq; reflexivity). congruence.
      * split; [exact Hm|]. intros h Hh.
        apply elem_of_cons in Hh as [->|Hh]; [|apply Hnone, Hh].
        rewrite E0. discriminate.
    + intros [Hm Hnone]. split; [|intros h Hh; apply Hnone; right; exact Hh].
      destruct (classifyHeader h0) as [f0|] eqn:E0; [|exact Hm].
      rewrite setColumn_lookup. destruct (Field_eqb f f0) eqn:Ef; [|exact Hm].
      apply Field_eqb_eq in Ef. subst f0. exfalso. apply (Hnone h0); [left|exact E0].
Qed.

Lemma resolveColumns_None headers f :
  resolveColumns headers f = None <->
  forall h, h ∈ headers -> classifyHeader h <> Some f.
Proof.
  unfold resolveColumns. rewrite resolveColumns_from_None. split; [intros [_ H]; exact H|].
  intros H. split; [reflexivity|exact H].
Qed.

Lemma validatePascalCsv_valid csvContent :
  isValid (validatePascalCsv csvContent) = true ->
  exists header row rows,
    split "010" (trim csvContent) = header :: row :: rows
    /\ existsb (fieldTest f_pascal_id) (cellsOf header) = true
    /\ existsb (fieldTest f_keyword) (cellsOf header) = true
    /\ existsb hasDate (cellsOf header) = true
    /\ sampleErrors 0 (length (cellsOf header)) (take 3 (row :: rows)) = [].
Proof.
  unfold validatePascalCsv. intros H.
  destruct (split "010" (trim csvContent)) as [|header [|row rows]]; try discriminate.
  exists header, row, rows. split; [reflexivity|].
  cbv zeta in H. cbn [isValid] in H. apply bool_decide_eq_true in H.
  destruct (existsb (fieldTest f_pascal_id) (cellsOf header)); [|discriminate].
  destruct (existsb (fieldTest f_keyword) (cellsOf header)); [|discriminate].
  destruct (existsb hasDate (cellsOf header)); [|discriminate].
  repeat split. exact H.
Qed.

Lemma findDateColumns_spec headers index day :
  (index, day) ∈ findDateColumns headers <->
  exists h, headers !! index = Some h /\ headerDate h = Some day.
Proof.
  unfold findDateColumns.
  assert (H : forall start i dateString,
            (i, dateString) ∈ dateColumns_from start headers <->
            exists j h, i = (start + j)%nat /\ headers !! j = Some h
                        /\ headerDate h = Some dateString).
  { induction headers as [|h0 headers IH]; intros start i dateString;
      cbn [dateColumns_from].
    - split; [intros H; inversion H|intros (j & h & _ & H & _); discriminate H].
    - assert (Hrest : (i, dateString) ∈ dateColumns_from (S start) headers <->
                      exists j h, i = (start + S j)%nat /\ headers !! j = Some h
                                  /\ headerDate h = Some dateString).
      { rewrite IH. split; intros (j & h & -> & Hj & Hd); exists j, h;
          repeat split; try assumption; lia. }
      destruct (headerDate h0) as [d0|] eqn:E0.
      + rewrite elem_of_cons, Hrest. split.
        * intros [[= -> ->]|(j & h & -> & Hj & Hd)].
          -- exists 0%nat, h0. repeat split; [lia|exact E0].
          -- exists (S j), h. repeat split; assumption.
        * intros ([|j] & h & -> & Hj & Hd).
          -- cbn in Hj. injection Hj as <-. left. f_equal; [lia|congruence].
          -- right. exists j, h. repeat split; assumption.
      + rewrite Hrest. split.
        * intros (j & h & -> & Hj & Hd). exists (S j), h. repeat split; assumption.
        * intros ([|j] & h & -> & Hj & Hd).
          -- cbn in Hj. injection Hj as <-. congruence.
          -- exists j, h. repeat split; assumption. }
  rewrite H. split.
  - intros (j & h & -> & Hj & Hd). exists h. split; assumption.
  - intros (h & Hi & Hd). exists index, h. repeat split; assumption.
Qed.

(** X1: the validator's check for date columns and the parser's detection of
    them agree.  The parser records a column under index [i] exactly when
    header cell [i] holds a date in one of the three notations; a cell
    passes the validator's test exactly when the parser reads a date from
    it; so the validator reports missing date columns exactly when the
    parser would find none. *)
Theorem date_columns_agree headers :
  (forall i dateString,
     (i, dateString) ∈ findDateColumns headers <->
     exists h, headers !! i = Some h /\ headerDate h = Some dateString)
  /\ (forall h, hasDate h = true <-> is_Some (headerDate h))
  /\ (existsb hasDate headers = false <-> findDateColumns headers = []).
Proof.
  split; [intros i dateString; apply findDateColumns_spec|].
  split; [exact hasDate_headerDate|symmetry; apply dateColumns_from_nil].
Qed.

(** X2: a file that passes validation can still make the parser throw, but
    only with the message about the identifier and keyword columns, and
    only when every header cell that names the keyword column also names
    the identifier column, which takes the cell. *)
Theorem valid_csv_parse_error csvContent e :
  isValid (validatePascalCsv csvContent) = true ->
  parsePascalCsv csvContent = Threw e ->
  e = ErrorObject "CSV must contain Pascal ID and キーワード columns"
  /\ exists header rest,
       split "010" (trim csvContent) = header :: rest
       /\ (exists h, h ∈ cellsOf header /\ fieldTest f_keyword h = true)
       /\ forall h, h ∈ cellsOf header -> fieldTest f_keyword h = true ->
                    fieldTest f_pascal_id h = true.
Proof.
  intros Hv Hp.
  apply validatePascalCsv_valid in Hv as (header & row & rows & Hs & Hid & Hkw & Hd & _).
  unfold parsePascalCsv in Hp. rewrite Hs in Hp. cbv zeta in Hp.
  apply existsb_exists in Hid as (hid & Hin & Hid).
  apply existsb_exists in Hkw as (hkw & Hinkw & Hkw).
  apply list_elem_of_In in Hin, Hinkw.
  destruct (resolveColumns (cellsOf header) f_pascal_id) as [i|] eqn:Ei.
  2:{ exfalso. rewrite resolveColumns_None in Ei. apply (Ei hid Hin).
      apply classifyHeader_spec. split; [exact Hid|]. intros g Hg. cbn in Hg. lia. }
  destruct (resolveColumns (cellsOf header) f_keyword) as [j|] eqn:Ej.
  { destruct (findDateColumns (cellsOf header)) eqn:Ed; [|discriminate].
    exfalso. apply dateColumns_from_nil in Ed. congruence. }
  injection Hp as <-. split; [reflexivity|].
  exists header, (row :: rows). split; [exact Hs|].
  split; [exists hkw; split; assumption|].
  intros h Hin' Hk. rewrite resolveColumns_None in Ej. specialize (Ej h Hin').
  destruct (fieldTest f_pascal_id h) eqn:E1; [reflexivity|]. exfalso. apply Ej.
  apply classifyHeader_spec. split; [exact Hk|].
  intros g Hg. destruct g; cbn in Hg; try lia; exact E1.
Qed.

Lemma valid_csv_parse_error_witness :
  let csv := String.app "Pascal ID keyword,2025/1/1" (String "010" "7,5") in
  let e := ErrorObject "CSV must contain Pascal ID and キーワード columns" in
  isValid (validatePascalCsv csv) = true
  /\ parsePascalCsv csv = Threw e
  /\ e = ErrorObject "CSV must contain Pascal ID and キーワード columns"
  /\ exists header rest,
       split "010" (trim csv) = header :: rest
       /\ (exists h, h ∈ cellsOf header /\ fieldTest f_keyword h = true)
       /\ forall h, h ∈ cellsOf header -> fieldTest f_keyword h = true ->
                    fieldTest f_pascal_id h = true.
Proof.
  cbv zeta. split; [vm_compute; reflexivity|]. split; [vm_compute; reflexivity|].
  apply (valid_csv_parse_error
           (String.app "Pascal ID keyword,2025/1/1" (String "010" "7,5")));
    vm_compute; reflexivity.
Defined.
(** X3: in every result of the parser, each ranking belongs to a keyword
    of the same result (it carries that keyword's identifier), has a rank
    greater than zero, and is dated by one of the header's date
    columns. *)
Theorem parsed_rankings_belong csvContent data :
  parsePascalCsv csvContent = Returned data ->
  exists header rest,
    split "010" (trim csvContent) = header :: rest
    /\ forall fact, fact ∈ rankings data ->
         (exists kw, kw ∈ keywords data /\ pascal_id kw = r_pascal_id fact)
         /\ (exists n, r_rank fact = Some n /\ 0 < n)
         /\ (exists i h, cellsOf header !! i = Some h
                         /\ headerDate h = Some (r_date fact)).
Proof.
  intros Hp. apply parsePascalCsv_Returned in Hp
    as (header & row & rows & Hs & _ & _ & _ & ->).
  exists header, (row :: rows). split; [exact Hs|]. intros fact Hf.
  apply parseRows_elems in Hf as (line & kw & facts & Hl & Hr & Hin).
  destruct (parseRow_keyword _ _ _ _ _ Hr) as (_ & -> & _).
  apply rowRankings_spec in Hin
    as (index & date & cell & n & Hdc & _ & _ & _ & _ & Hn & ->).
  cbn [r_pascal_id r_rank r_date]. split; [|split].
  - exists kw. split; [|reflexivity]. apply parseRows_elems. eauto.
  - eauto.
  - apply findDateColumns_spec in Hdc as (h & Hi & Hd). eauto.
Qed.

Lemma parsed_rankings_belong_witness :
  let csv := String.app "Pascal ID,キーワード,2025年1月1日" (String "010" "7,foo,5") in
  exists data,
    parsePascalCsv csv = Returned data
    /\ exists header rest,
         split "010" (trim csv) = header :: rest
         /\ forall fact, fact ∈ rankings data ->
              (exists kw, kw ∈ keywords data /\ pascal_id kw = r_pascal_id fact)
              /\ (exists n, r_rank fact = Some n /\ 0 < n)
              /\ (exists i h, cellsOf header !! i = Some h
                              /\ headerDate h = Some (r_date fact)).
Proof.
  cbv zeta. eexists. split; [vm_compute; reflexivity|].
  apply parsed_rankings_belong. vm_compute. reflexivity.
Defined.
Lemma nonEmpty_not_empty cell : nonEmpty cell <> Some EmptyString.
Proof. destruct cell as [[|c s]|]; discriminate. Qed.

Lemma parseRow_optional columnMap dateColumns values kw facts :
  parseRow columnMap dateColumns values = Some (kw, facts) ->
  domain_url kw <> Some EmptyString /\ site_name kw <> Some EmptyString
  /\ rank_type kw <> Some EmptyString /\ area kw <> Some EmptyString
  /\ device_type kw <> Some EmptyString /\ landing_page kw <> Some EmptyString.
Proof.
  unfold parseRow. intros H.
  destruct (length values <? maxColumn columnMap + 1)%nat; [discriminate|].
  destruct (cellAt values (columnMap f_pascal_id)) as [idCell|]; [|discriminate].
  destruct (parseInt idCell) as [pascalId|]; [|discriminate].
  destruct (nonEmpty (cellAt values (columnMap f_keyword))); [|discriminate].
  injection H as <- <-. cbn. repeat split; apply nonEmpty_not_empty.
Qed.

(** X4: every keyword in a result of the parser has a keyword text that
    is not empty, and none of its optional text fields holds the empty
    string: an empty cell leaves the field absent. *)
Theorem parsed_keywords_wellformed csvContent data kw :
  parsePascalCsv csvContent = Returned data -> kw ∈ keywords data ->
  keyword_text kw <> EmptyString
  /\ domain_url kw <> Some EmptyString /\ site_name kw <> Some EmptyString
  /\ rank_type kw <> Some EmptyString /\ area kw <> Some EmptyString
  /\ device_type kw <> Some EmptyString /\ landing_page kw <> Some EmptyString.
Proof.
  intros Hp Hk. apply parsePascalCsv_Returned in Hp
    as (header & row & rows & _ & _ & _ & _ & ->).
  apply parseRows_elems in Hk as (line & facts & _ & Hr).
  split; [eapply parseRow_keyword, Hr|eapply parseRow_optional, Hr].
Qed.

Lemma parsed_keywords_wellformed_witness :
  let csv := String.app "Pascal ID,キーワード,ドメイン,2025年1月1日"
               (String "010" "7,foo,,5") in
  let kw := mkPascalKeywordData 7 "foo" None None None None None None None in
  exists data,
    parsePascalCsv csv = Returned data /\ kw ∈ keywords data
    /\ keyword_text kw <> EmptyString /\ domain_url kw <> Some EmptyString.
Proof.
  cbv zeta. eexists. split; [vm_compute; reflexivity|]. split; [left|].
  match goal with
  | |- ?a <> _ /\ ?b <> _ =>
      pose proof (parsed_keywords_wellformed
        (String.app "Pascal ID,キーワード,ドメイン,2025年1月1日" (String "010" "7,foo,,5"))
        _ (mkPascalKeywordData 7 "foo" None None None None None None None)
        ltac:(vm_compute; reflexivity) ltac:(left)) as H
  end.
  split; apply H.
Defined.
(** * The import: results *)

(** X5: the import reports success exactly when it recorded no error
    message, and then at least one keyword was parsed, every parsed
    keyword was imported and every parsed ranking was imported. *)
Theorem import_success_is_complete gw cb csvContent w :
  exists r,
    fst (importPascalCsv gw cb csvContent w) = Returned r
    /\ (success r = true <-> errors r = [])
    /\ (success r = true ->
        0 < totalKeywords r /\ importedKeywords r = totalKeywords r
        /\ importedRankings r = totalRankings r).
Proof.
  destruct (import_counts gw cb csvContent w)
    as (r & Hr & _ & Hs & _ & _ & _ & Hall & _).
  exists r. split; [exact Hr|]. split; [exact Hs|].
  intros H. apply Hall, Hs, H.
Qed.

(** X6: in every result of the import the counters are consistent: the
    imported keywords are between zero and the parsed keywords, the
    imported rankings between zero and the parsed rankings, and every
    parsed keyword that was not imported left an error message. *)
Theorem import_counters_bounded gw cb csvContent w :
  exists r,
    fst (importPascalCsv gw cb csvContent w) = Returned r
    /\ 0 <= importedKeywords r <= totalKeywords r
    /\ 0 <= importedRankings r <= totalRankings r
    /\ totalKeywords r - importedKeywords r <= Z.of_nat (length (errors r)).
Proof.
  destruct (import_counts gw cb csvContent w)
    as (r & Hr & _ & _ & Hk & Hrk & He & _).
  exists r. auto.
Qed.

(** X7: the import never counts an update: [updatedKeywords] is zero in
    every result, whatever the store held before, so also when every
    keyword of the file overwrote an existing row. *)
Theorem updatedKeywords_stays_zero gw cb csvContent w :
  exists r,
    fst (importPascalCsv gw cb csvContent w) = Returned r /\ updatedKeywords r = 0.
Proof.
  destruct (import_counts gw cb csvContent w) as (r & Hr & Hu & _).
  exists r. auto.
Qed.


(** * Grouping and batching *)

Lemma addRanking_keys ranking groups :
  map fst (addRanking ranking groups) =
  if bool_decide (r_pascal_id ranking ∈ map fst groups) then map fst groups
  else map fst groups ++ [r_pascal_id ranking].
Proof.
  induction groups as [|[pid rs] groups IH]; [reflexivity|].
  cbn [addRanking map fst]. destruct (Z.eqb_spec pid (r_pascal_id ranking)) as [->|Hne].
  - rewrite bool_decide_true by left. reflexivity.
  - cbn [map fst]. rewrite IH. destruct (bool_decide (r_pascal_id ranking ∈ map fst groups)) eqn:E.
    + apply bool_decide_eq_true in E. rewrite bool_decide_true by (right; exact E).
      reflexivity.
    + apply bool_decide_eq_false in E. rewrite bool_decide_false; [reflexivity|].
      intros H. apply elem_of_cons in H as [H|H]; [congruence|contradiction].
Qed.

Lemma addRanking_elem ranking groups pid rs :
  NoDup (map fst groups) ->
  ((pid, rs) ∈ addRanking ranking groups <->
   (pid <> r_pascal_id ranking /\ (pid, rs) ∈ groups)
   \/ (pid = r_pascal_id ranking
       /\ ((exists rs0, (pid, rs0) ∈ groups /\ rs = rs0 ++ [ranking])
           \/ ((pid ∉ map fst groups) /\ rs = [ranking])))).
Proof.
  induction groups as [|[pid0 rs0] groups IH]; intros Hnd.
  - cbn [addRanking]. rewrite list_elem_of_singleton. split.
    + intros [= -> ->]. right. split; [reflexivity|]. right. split; [|reflexivity].
      cbn. apply not_elem_of_nil.
    + intros [[_ H]|[-> [(rs0 & H & _)|[_ ->]]]]; [inversion H|inversion H|reflexivity].
  - cbn [map fst] in Hnd. apply NoDup_cons in Hnd as [Hnotin Hnd]. specialize (IH Hnd).
    cbn [addRanking]. destruct (Z.eqb_spec pid0 (r_pascal_id ranking)) as [->|Hne].
    + rewrite !elem_of_cons. split.
      * intros [[= -> ->]|Hin].
        -- right. split; [reflexivity|]. left. exists rs0. split; [left|]; reflexivity.
        -- left. split; [|right; exact Hin]. intros ->. apply Hnotin.
           apply list_elem_of_fmap. exists (r_pascal_id ranking, rs). split; [reflexivity|exact Hin].
      * intros [[Hp [[= -> ->]|Hin]]|[-> [(rs1 & Hin & ->)|[Hn ->]]]].
        -- contradiction.
        -- right. exact Hin.
        -- apply elem_of_cons in Hin as [[= <-]|Hin]; [left; reflexivity|].
           exfalso. apply Hnotin. apply list_elem_of_fmap.
           exists (r_pascal_id ranking, rs1). split; [reflexivity|exact Hin].
        -- exfalso. apply Hn. cbn. left.
    + rewrite elem_of_cons, IH. split.
      * intros [[= -> ->]|[[Hp Hin]|[-> [(rs1 & Hin & ->)|[Hn ->]]]]].
        -- left. split; [exact Hne|left].
        -- left. split; [exact Hp|right; exact Hin].
        -- right. split; [reflexivity|]. left. exists rs1. split; [right; exact Hin|reflexivity].
        -- right. split; [reflexivity|]. right. split; [|reflexivity].
           cbn [map fst]. intros H. apply elem_of_cons in H as [H|H]; [congruence|contradiction].
      * intros [[Hp Hin]|[-> [(rs1 & Hin & ->)|[Hn ->]]]].
        -- apply elem_of_cons in Hin as [[= -> ->]|Hin]; [left; reflexivity|].
           right. left. split; assumption.
        -- apply elem_of_cons in Hin as [[= <- <-]|Hin]; [congruence|].
           right. right. split; [reflexivity|]. left. exists rs1. split; [exact Hin|reflexivity].
        -- right. right. split; [reflexivity|]. right. split; [|reflexivity].
           intros H. apply Hn. cbn [map fst]. right. exact H.
Qed.

Lemma groupRankings_snoc rankings ranking :
  groupRankings (rankings ++ [ranking]) = addRanking ranking (groupRankings rankings).
Proof. unfold groupRankings. rewrite foldl_app. reflexivity. Qed.

(** The groups of a list of rankings: one per identifier, holding the
    rankings of that identifier in their order. *)
Lemma groupRankings_elem rankings :
  NoDup (map fst (groupRankings rankings))
  /\ forall pid rs,
       (pid, rs) ∈ groupRankings rankings <->
       rs <> [] /\ rs = List.filter (fun r => r_pascal_id r =? pid) rankings.
Proof.
  induction rankings as [|ranking rankings IH] using rev_ind.
  - split; [constructor|]. intros pid rs. cbn. split; [intros H; inversion H|].
    intros [Hne ->]. contradiction.
  - destruct IH as [Hnd IH]. rewrite groupRankings_snoc. split.
    + rewrite addRanking_keys. destruct (bool_decide _) eqn:E; [exact Hnd|].
      apply bool_decide_eq_false in E. apply NoDup_app. split; [exact Hnd|].
      split; [|apply NoDup_singleton].
      intros x Hx Hx'. apply list_elem_of_singleton in Hx'. subst x. contradiction.
    + intros pid rs. rewrite addRanking_elem by exact Hnd.
      rewrite List.filter_app. cbn [List.filter].
      destruct (Z.eqb_spec (r_pascal_id ranking) pid) as [Heq|Hne].
      * subst pid. split.
        -- intros [[Hp _]|[_ [(rs0 & Hin & ->)|[Hn ->]]]]; [contradiction| |].
           ++ apply IH in Hin as [_ <-]. split; [|reflexivity].
              intros H. apply app_eq_nil in H as [_ H]. discriminate.
           ++ split; [discriminate|].
              destruct (List.filter _ rankings) as [|r0 rs0] eqn:Ef; [reflexivity|].
              exfalso. apply Hn. apply list_elem_of_fmap.
              exists (r_pascal_id ranking, r0 :: rs0). split; [reflexivity|].
              apply IH. split; [discriminate|]. symmetry. exact Ef.
        -- intros [_ ->]. right. split; [reflexivity|].
           destruct (List.filter _ rankings) as [|r0 rs0] eqn:Ef.
           ++ right. split; [|reflexivity]. intros H.
              apply list_elem_of_fmap in H as ([pid rs] & Hp & Hin). cbn in Hp. subst pid.
              apply IH in Hin as [Hne Hrs]. rewrite Ef in Hrs. contradiction.
           ++ left. exists (r0 :: rs0). split; [|reflexivity].
              apply IH. split; [discriminate|]. symmetry. exact Ef.
      * rewrite app_nil_r. rewrite IH. split.
        -- intros [[_ H]|[-> _]]; [exact H|contradiction].
        -- intros H. left. split; [congruence|exact H].
Qed.
(** X9: the import groups the parsed rankings by identifier without
    losing or duplicating any: the groups have distinct identifiers, a
    group exists exactly for the identifiers that occur, it holds the
    rankings of its identifier in their order in the file, and the groups
    together hold as many rankings as were parsed. *)
Theorem groupRankings_partition rankings :
  NoDup (map fst (groupRankings rankings))
  /\ (forall pid rs,
        (pid, rs) ∈ groupRankings rankings <->
        rs <> [] /\ rs = List.filter (fun r => r_pascal_id r =? pid) rankings)
  /\ length (concat (map snd (groupRankings rankings))) = length rankings.
Proof.
  split; [apply groupRankings_elem|]. split; [apply groupRankings_elem|].
  apply groupRankings_size.
Qed.

Lemma chunks_fuel_spec {A} (size : nat) : (0 < size)%nat ->
  forall fuel (l : list A), (length l <= fuel)%nat ->
  Forall (fun c => (0 < length c <= size)%nat) (chunks_fuel fuel size l)
  /\ Z.of_nat (length (chunks_fuel fuel size l))
     = (Z.of_nat (length l) + Z.of_nat size - 1) / Z.of_nat size
  /\ forall i c, chunks_fuel fuel size l !! i = Some c ->
                 c = take size (drop (i * size) l).
Proof.
  intros Hsize. induction fuel as [|fuel IH]; intros l Hlen.
  - destruct l as [|x l]; [|cbn in Hlen; lia]. cbn. split; [constructor|].
    split; [|intros i c H; discriminate].
    symmetry. apply Z.div_small. lia.
  - destruct l as [|x l].
    + cbn. split; [constructor|]. split; [|intros i c H; discriminate].
      symmetry. apply Z.div_small. lia.
    + cbn [chunks_fuel]. set (l0 := x :: l) in *.
      assert (Hl0 : (0 < length l0)%nat) by (subst l0; cbn; lia).
      assert (Hdrop : (length (drop size l0) <= fuel)%nat).
      { rewrite length_drop. subst l0. cbn [length] in *. lia. }
      destruct (IH (drop size l0) Hdrop) as (IH1 & IH2 & IH3).
      split; [|split].
      * constructor; [|exact IH1]. rewrite length_take. lia.
      * cbn [length]. rewrite Nat2Z.inj_succ, IH2, length_drop.
        destruct (Nat.le_gt_cases (length l0) size) as [Hle|Hgt].
        -- replace (length l0 - size)%nat with 0%nat by lia.
           rewrite (Z.div_small (Z.of_nat 0 + _ - 1)) by lia.
           change (Z.succ 0) with 1.
           apply (Z.div_unique _ _ 1 (Z.of_nat (length l0) - 1)); lia.
        -- rewrite Nat2Z.inj_sub by lia.
           replace (Z.of_nat (length l0) + Z.of_nat size - 1)
             with (Z.of_nat (length l0) - Z.of_nat size + Z.of_nat size - 1
                   + 1 * Z.of_nat size) by lia.
           rewrite Z.div_add by lia. lia.
      * intros [|i] c Hi.
        -- cbn in Hi. injection Hi as <-. reflexivity.
        -- cbn [lookup list_lookup] in Hi. apply IH3 in Hi. rewrite Hi, drop_drop.
           do 2 f_equal; lia.
Qed.

(** X10: the batches of the import are the slices of the source: for a
    positive batch size, batch [i] is the [size] elements from position
    [i * size], every batch holds at least one and at most [size]
    elements, there are as many batches as [size] goes into the length,
    rounded up, and together they are the list. *)
Theorem chunks_are_slices {A} (size : nat) (l : list A) :
  (0 < size)%nat ->
  concat (chunks size l) = l
  /\ Forall (fun c => (0 < length c <= size)%nat) (chunks size l)
  /\ Z.of_nat (length (chunks size l))
     = (Z.of_nat (length l) + Z.of_nat size - 1) / Z.of_nat size
  /\ forall i c, chunks size l !! i = Some c -> c = take size (drop (i * size) l).
Proof.
  intros Hsize. split; [apply chunks_concat|].
  apply (chunks_fuel_spec size Hsize (length l) l). lia.
Qed.

Lemma chunks_are_slices_witness :
  (0 < 2)%nat
  /\ concat (chunks 2 [1; 2; 3; 4; 5]) = [1; 2; 3; 4; 5]
  /\ Z.of_nat (length (chunks 2 [1; 2; 3; 4; 5])) = (5 + 2 - 1) / 2.
Proof.
  split; [lia|]. destruct (chunks_are_slices 2 [1; 2; 3; 4; 5]) as (H1 & _ & H2 & _);
    [lia|]. split; [exact H1|exact H2].
Defined.
(** * The import against a store that refuses nothing *)

Lemma keywordStep_keeps gw acc k p :
  is_Some (fst acc !! p) -> is_Some (fst (keywordStep gw acc k) !! p).
Proof.
  unfold keywordStep. intros H. destruct (keywordRejected gw (snd acc) k); [exact H|].
  destruct (upsertKeywordRow k (snd acc)) as [row d]. cbn [fst].
  destruct (decide (pascal_id k = p)) as [->|Hne].
  - rewrite lookup_insert_eq. eauto.
  - rewrite lookup_insert_ne by exact Hne. exact H.
Qed.

Lemma keywordStep_fold_covers gw l :
  (forall d k, keywordRejected gw d k = None) ->
  forall acc p,
    is_Some (fst acc !! p) \/ (exists k, k ∈ l /\ pascal_id k = p) ->
    is_Some (fst (foldl (keywordStep gw) acc l) !! p).
Proof.
  intros Hacc. induction l as [|k l IH]; intros acc p H; cbn [foldl].
  - destruct H as [H|(k & Hk & _)]; [exact H|inversion Hk].
  - apply IH. destruct H as [H|(k' & Hk & Hp)].
    + left. apply keywordStep_keeps, H.
    + apply elem_of_cons in Hk as [->|Hk]; [|right; eauto].
      left. unfold keywordStep. rewrite Hacc.
      destruct (upsertKeywordRow k (snd acc)) as [row d]. cbn [fst].
      rewrite Hp, lookup_insert_eq. eauto.
Qed.

Lemma importKeyword_accepted gw k idMap st :
  (forall d k, keywordRejected gw d k = None) ->
  errors (result (snd (importKeyword gw k (idMap, st)))) = errors (result st).
Proof.
  intros Hacc. unfold importKeyword, keywordService_upsert. rewrite Hacc.
  destruct (upsertKeywordRow k (db (world st))) as [row d]. reflexivity.
Qed.

Lemma importKeyword_fold_accepted gw batch :
  (forall d k, keywordRejected gw d k = None) ->
  forall idMap st,
    errors (result (snd (foldl (fun a k => importKeyword gw k a) (idMap, st) batch)))
    = errors (result st).
Proof.
  intros Hacc. induction batch as [|k batch IH]; intros idMap st; [reflexivity|].
  cbn [foldl]. pose proof (importKeyword_accepted gw k idMap st Hacc) as Hk.
  destruct (importKeyword gw k (idMap, st)) as [idMap1 st1]. rewrite IH. exact Hk.
Qed.

Lemma importKeywordBatches_accepted gw cb total batches :
  (forall d k, keywordRejected gw d k = None) ->
  forall i idMap st,
    errors (result (snd (importKeywordBatches gw cb total i batches (idMap, st))))
    = errors (result st).
Proof.
  intros Hacc. induction batches as [|batch batches IH]; intros i idMap st; [reflexivity|].
  cbn [importKeywordBatches].
  pose proof (importKeyword_fold_accepted gw batch Hacc idMap st) as Hb.
  destruct (foldl (fun a k => importKeyword gw k a) (idMap, st) batch) as [idMap1 st1].
  rewrite IH, report_result. exact Hb.
Qed.

Lemma importRankingBatches_accepted gw keywordId batches :
  (forall d rows, rankingsRejected gw d rows = None) ->
  forall st, fst (importRankingBatches gw keywordId batches st) = None.
Proof.
  intros Hacc. induction batches as [|batch batches IH]; intros st; [reflexivity|].
  cbn [importRankingBatches]. unfold rankingService_bulkUpsertRankings.
  rewrite Hacc. apply IH.
Qed.

Lemma importRankingGroups_accepted gw cb keywordIdMap total groups :
  (forall d rows, rankingsRejected gw d rows = None) ->
  (forall pid rs, (pid, rs) ∈ groups -> is_Some (keywordIdMap !! pid)) ->
  forall processed st,
    errors (result (importRankingGroups gw cb keywordIdMap total groups processed st))
    = errors (result st).
Proof.
  intros Hacc. induction groups as [|[pascalId rankings] groups IH];
    intros Hkeys processed st; [reflexivity|].
  cbn [importRankingGroups].
  destruct (Hkeys pascalId rankings) as [keywordId ->]; [left|].
  pose proof (importRankingBatches_accepted gw keywordId
                (chunks RANKING_BATCH_SIZE rankings) Hacc st) as Hn.
  pose proof (importRankingBatches_counts gw keywordId
                (chunks RANKING_BATCH_SIZE rankings) st) as Hc.
  cbv zeta in Hc. destruct Hc as (_ & _ & _ & _ & _ & He & _).
  destruct (importRankingBatches gw keywordId (chunks RANKING_BATCH_SIZE rankings) st)
    as [[e|] st1]; cbn [fst snd] in *; [discriminate|].
  cbv zeta. rewrite IH; [rewrite report_result; exact He|].
  intros pid rs Hin. apply (Hkeys pid rs). right. exact Hin.
Qed.

(** X11: against a store that refuses nothing, a file that passes
    validation and parses to at least one keyword is imported completely:
    the result reports success, no error, and as many imported keywords
    and rankings as were parsed. *)
Theorem import_succeeds_when_nothing_refused gw cb csvContent w data :
  (forall d k, keywordRejected gw d k = None) ->
  (forall d rows, rankingsRejected gw d rows = None) ->
  isValid (validatePascalCsv csvContent) = true ->
  parsePascalCsv csvContent = Returned data ->
  keywords data <> [] ->
  exists r,
    fst (importPascalCsv gw cb csvContent w) = Returned r
    /\ success r = true /\ errors r = []
    /\ importedKeywords r = Z.of_nat (length (keywords data))
    /\ importedRankings r = Z.of_nat (length (rankings data)).
Proof.
  intros Hk Hr Hv Hp Hne.
  destruct (import_counts gw cb csvContent w)
    as (r & Hres & _ & Hs & _ & _ & _ & Hall & Htot).
  rewrite Hp in Htot. destruct (Htot Hv) as [Htk Htr].
  exists r. split; [exact Hres|].
  assert (He : errors r = []).
  { revert Hres. unfold importPascalCsv, importBody. cbv zeta.
    rewrite Hv, Hp. cbn [negb].
    destruct (keywords data) as [|k ks] eqn:Ek; [contradiction|]. rewrite <- Ek.
    match goal with
    | |- context [importKeywordBatches gw cb ?t ?i ?b (∅, ?st)] =>
        pose proof (importKeywordBatches_accepted gw cb t b Hk i ∅ st) as He1;
        pose proof (importKeywordBatches_db gw cb t b i ∅ st) as Hdb;
        destruct (importKeywordBatches gw cb t i b (∅, st)) as [idMap st1]
    end.
    cbn [snd] in He1. rewrite !report_result in He1. rewrite chunks_concat in Hdb.
    cbn [fst snd]. intros [= <-]. cbn [result world finish errors].
    rewrite report_result, importRankingGroups_accepted, report_result.
    - exact He1.
    - exact Hr.
    - intros pid rs Hin. apply groupRankings_elem in Hin as [Hrs Hf].
      destruct rs as [|fact rs]; [contradiction|].
      assert (Hfact : fact ∈ List.filter (fun r => r_pascal_id r =? pid) (rankings data))
        by (rewrite <- Hf; left).
      apply list_elem_of_In, filter_In in Hfact as [Hin Hpid].
      apply list_elem_of_In in Hin. apply Z.eqb_eq in Hpid.
      apply parsePascalCsv_Returned in Hp as (header & row & rows & _ & _ & _ & _ & Hd).
      rewrite Hd in Hin. apply parseRows_elems in Hin as (line & kw & facts & Hl & Hrow & Hin).
      destruct (parseRow_keyword _ _ _ _ _ Hrow) as (_ & -> & _).
      apply rowRankings_spec in Hin as (? & ? & ? & ? & _ & _ & _ & _ & _ & _ & Hfeq).
      rewrite Hfeq in Hpid. cbn [r_pascal_id] in Hpid. subst pid.
      replace idMap with (fst (idMap, db (world st1))) by reflexivity.
      rewrite Hdb. apply keywordStep_fold_covers; [exact Hk|]. right.
      exists kw. split; [|reflexivity]. rewrite Hd. apply parseRows_elems. eauto. }
  split; [apply Hs, He|]. split; [exact He|].
  destruct (Hall He) as (_ & H1 & H2). lia.
Qed.

Lemma import_succeeds_when_nothing_refused_witness :
  let csv := String.app "Pascal ID,キーワード,2025年1月1日" (String "010" "7,foo,5") in
  let data :=
    mkPascalCsvData [mkPascalKeywordData 7 "foo" None None None None None None None]
      [mkPascalRankingData 7 "2025-01-01" (Some 5)] in
  exists r,
    fst (importPascalCsv acceptAll true csv emptyWorld) = Returned r
    /\ success r = true /\ errors r = []
    /\ importedKeywords r = Z.of_nat (length (keywords data))
    /\ importedRankings r = Z.of_nat (length (rankings data)).
Proof.
  cbv zeta.
  apply (import_succeeds_when_nothing_refused acceptAll true
           (String.app "Pascal ID,キーワード,2025年1月1日" (String "010" "7,foo,5"))
           emptyWorld
           (mkPascalCsvData
              [mkPascalKeywordData 7 "foo" None None None None None None None]
              [mkPascalRankingData 7 "2025-01-01" (Some 5)]));
    [reflexivity|reflexivity|vm_compute; reflexivity|vm_compute; reflexivity|discriminate].
Defined.
(** * Progress reports *)

Lemma nondecreasing_nil : nondecreasing [].
Proof. intros i j a b _ H. discriminate. Qed.

Lemma nondecreasing_cons x l :
  Forall (fun y => x <= y) l -> nondecreasing l -> nondecreasing (x :: l).
Proof.
  intros Hx Hl [|i] [|j] a b Hij Hi Hj; cbn in Hi, Hj.
  - injection Hi as <-. injection Hj as <-. lia.
  - injection Hi as <-. rewrite Forall_forall in Hx. apply Hx.
    eapply list_elem_of_lookup_2, Hj.
  - lia.
  - apply (Hl i j); [lia|assumption|assumption].
Qed.

Lemma nondecreasing_app l1 l2 :
  nondecreasing l1 -> nondecreasing l2 ->
  (forall a b, a ∈ l1 -> b ∈ l2 -> a <= b) -> nondecreasing (l1 ++ l2).
Proof.
  intros H1 H2 H12. induction l1 as [|x l1 IH]; [exact H2|].
  cbn [app]. apply nondecreasing_cons.
  - apply Forall_forall. intros y Hy. apply elem_of_app in Hy as [Hy|Hy].
    + apply list_elem_of_lookup in Hy as [j Hj]. apply (H1 0%nat (S j)); [lia|reflexivity|exact Hj].
    + apply H12; [left|exact Hy].
  - apply IH.
    + intros i j a b Hij Hi Hj. apply (H1 (S i) (S j)); [lia|exact Hi|exact Hj].
    + intros a b Ha Hb. apply H12; [right; exact Ha|exact Hb].
Qed.

Lemma steps_nil lo hi : steps lo hi [].
Proof. split; [apply nondecreasing_nil|constructor]. Qed.

Lemma steps_weaken lo hi lo' hi' reports :
  lo' <= lo -> hi <= hi' -> steps lo hi reports -> steps lo' hi' reports.
Proof.
  intros Hlo Hhi [Hs Hb]. split; [exact Hs|].
  eapply Forall_impl; [exact Hb|]. cbn. intros x [H1 H2]. split; [lia|exact H2].
Qed.

Lemma steps_app lo mid hi l1 l2 :
  steps lo mid l1 -> steps mid hi l2 -> lo <= mid <= hi -> steps lo hi (l1 ++ l2).
Proof.
  intros [Hs1 Hb1] [Hs2 Hb2] Hm. split.
  - unfold currents. rewrite map_app. apply nondecreasing_app; [exact Hs1|exact Hs2|].
    intros a b Ha Hb. apply list_elem_of_fmap in Ha as (x & -> & Hx).
    apply list_elem_of_fmap in Hb as (y & -> & Hy).
    rewrite Forall_forall in Hb1, Hb2.
    destruct (Hb1 x Hx) as [? _]. destruct (Hb2 y Hy) as [? _]. lia.
  - apply Forall_app. split; (eapply Forall_impl; [eassumption|]); cbn;
      intros x [H1 H2]; (split; [lia|exact H2]).
Qed.

Lemma steps_one lo hi c message : lo <= c <= hi -> steps lo hi [(c, 10, message)].
Proof.
  intros H. split.
  - apply nondecreasing_cons; [constructor|apply nondecreasing_nil].
  - constructor; [|constructor]. cbn. split; [lia|reflexivity].
Qed.

Lemma report_progress cb c t m st :
  progress (world (report cb c t m st)) =
  progress (world st) ++ (if cb then [(c, t, m)] else []).
Proof. destruct cb; cbn; [reflexivity|rewrite app_nil_r; reflexivity]. Qed.

Lemma report_steps (cb : bool) lo hi c message :
  lo <= c <= hi -> steps lo hi (if cb then [(c, 10, message)] else []).
Proof. destruct cb; [apply steps_one|intros _; apply steps_nil]. Qed.

Lemma importKeyword_fold_progress gw batch : forall idMap st,
  progress (world (snd (foldl (fun a k => importKeyword gw k a) (idMap, st) batch)))
  = progress (world st).
Proof.
  induction batch as [|k batch IH]; intros idMap st; [reflexivity|].
  cbn [foldl].
  assert (Hk : progress (world (snd (importKeyword gw k (idMap, st)))) = progress (world st)).
  { unfold importKeyword, keywordService_upsert.
    destruct (keywordRejected gw (db (world st)) k); [reflexivity|].
    destruct (upsertKeywordRow k (db (world st))). reflexivity. }
  destruct (importKeyword gw k (idMap, st)) as [idMap1 st1]. rewrite IH. exact Hk.
Qed.

Lemma importKeywordBatches_progress gw cb total batches : forall i idMap st,
  exists reports,
    progress (world (snd (importKeywordBatches gw cb total i batches (idMap, st))))
    = progress (world st) ++ reports
    /\ (cb = false -> reports = [])
    /\ steps (Z.min 7 (3 + Z.of_nat i * 4 / Z.of_nat total)) 7 reports.
Proof.
  induction batches as [|batch batches IH]; intros i idMap st.
  - exists []. rewrite app_nil_r. split; [reflexivity|]. split; [reflexivity|apply steps_nil].
  - cbn [importKeywordBatches].
    pose proof (importKeyword_fold_progress gw batch idMap st) as Hb.
    destruct (foldl (fun a k => importKeyword gw k a) (idMap, st) batch) as [idMap1 st1].
    cbn [snd] in Hb.
    match goal with
    | |- context [importKeywordBatches gw cb total ?j batches (idMap1, ?s)] =>
        destruct (IH j idMap1 s) as (reports & Hp & Hcb & Hs)
    end.
    rewrite Hp, report_progress, Hb, <- app_assoc. eexists. split; [reflexivity|].
    split; [intros ->; cbn; apply Hcb; reflexivity|].
    assert (Hmono : Z.of_nat i * 4 / Z.of_nat total
                    <= Z.of_nat (i + KEYWORD_BATCH_SIZE) * 4 / Z.of_nat total).
    { destruct (Z.eq_dec (Z.of_nat total) 0) as [->|Hne].
      - rewrite !Z.div_0_r. lia.
      - apply Z.div_le_mono; lia. }
    assert (0 <= Z.of_nat i * 4 / Z.of_nat total).
    { destruct (Z.eq_dec (Z.of_nat total) 0) as [->|Hne].
      - rewrite !Z.div_0_r. lia.
      - apply Z.div_pos; lia. }
    apply (steps_app _ (Z.min 7 (3 + Z.of_nat i * 4 / Z.of_nat total)) 7).
    + apply report_steps. lia.
    + eapply steps_weaken; [| |exact Hs]; lia.
    + lia.
Qed.

Lemma importRankingBatches_progress gw keywordId batches : forall st,
  progress (world (snd (importRankingBatches gw keywordId batches st)))
  = progress (world st).
Proof.
  induction batches as [|batch batches IH]; intros st; [reflexivity|].
  cbn [importRankingBatches]. unfold rankingService_bulkUpsertRankings.
  destruct (rankingsRejected gw (db (world st)) _); [reflexivity|].
  rewrite IH. reflexivity.
Qed.

Lemma importRankingGroups_progress gw cb keywordIdMap total groups :
  forall processed st,
  (processed + length groups <= total)%nat ->
  exists reports,
    progress (world (importRankingGroups gw cb keywordIdMap total groups processed st))
    = progress (world st) ++ reports
    /\ (cb = false -> reports = [])
    /\ steps 8 10 reports
    /\ Forall (fun x => 8 + Z.of_nat processed * 2 / Z.of_nat total <= fst (fst x)) reports.
Proof.
  induction groups as [|[pascalId rankings] groups IH]; intros processed st Hle.
  - exists []. rewrite app_nil_r. split; [reflexivity|]. split; [reflexivity|].
    split; [apply steps_nil|constructor].
  - cbn [importRankingGroups]. cbn [length] in Hle.
    destruct (keywordIdMap !! pascalId) as [keywordId|].
    + pose proof (importRankingBatches_progress gw keywordId
                    (chunks RANKING_BATCH_SIZE rankings) st) as Hb.
      destruct (importRankingBatches gw keywordId (chunks RANKING_BATCH_SIZE rankings) st)
        as [[e|] st1]; cbn [snd] in Hb; cbv zeta.
      * destruct (IH processed (pushError
                    (String.app "Failed to import rankings for Pascal ID "
                       (String.app (pretty pascalId) (String.app ": " (errorMessage e))))
                    st1)) as (reports & Hp & Hcb & Hs & Hlo); [lia|].
        exists reports. rewrite Hp. cbn [pushError world]. rewrite Hb. auto.
      * match goal with
        | |- context [importRankingGroups gw cb keywordIdMap total groups ?p ?s] =>
            destruct (IH p s) as (reports & Hp & Hcb & Hs & Hlo); [lia|]
        end.
        rewrite Hp, report_progress, Hb, <- app_assoc. eexists. split; [reflexivity|].
        assert (Ht : 0 < Z.of_nat total) by lia.
        assert (Hmono : Z.of_nat processed * 2 / Z.of_nat total
                        <= Z.of_nat (S processed) * 2 / Z.of_nat total)
          by (apply Z.div_le_mono; lia).
        assert (Hup : Z.of_nat (S processed) * 2 / Z.of_nat total <= 2).
        { apply Z.div_le_upper_bound; lia. }
        assert (Hpos : 0 <= Z.of_nat processed * 2 / Z.of_nat total)
          by (apply Z.div_pos; lia).
        split; [intros ->; cbn; apply Hcb; reflexivity|]. split.
        -- destruct cb; [|exact Hs]. destruct Hs as [Hs1 Hs2]. split.
           ++ cbn. apply nondecreasing_cons; [|exact Hs1].
              apply Forall_forall. intros c Hc.
              apply list_elem_of_fmap in Hc as (y & -> & Hy).
              rewrite Forall_forall in Hlo. apply (Hlo y Hy).
           ++ constructor; [|exact Hs2]. cbn. split; [lia|reflexivity].
        -- apply Forall_app. split.
           ++ destruct cb; constructor; [|constructor]. cbn. lia.
           ++ eapply Forall_impl; [exact Hlo|]. cbn. intros x Hx. lia.
    + destruct (IH processed (pushError
                  (String.app "Keyword not found for Pascal ID "
                     (String.app (pretty pascalId) ", skipping rankings")) st))
        as (reports & Hp & Hcb & Hs & Hlo); [lia|].
      exists reports. rewrite Hp. auto.
Qed.
(** X12: the progress reports of an import never go backwards: every
    report is out of a total of ten, its step is between one and ten, and
    the steps do not decrease in the order of the reports, whichever way
    the run ends.  With a callback the first report is step one, the
    validation; without one nothing is reported. *)
Theorem progress_reports_ordered gw cb csvContent w :
  exists reports,
    progress (snd (importPascalCsv gw cb csvContent w)) = progress w ++ reports
    /\ (cb = false -> reports = [])
    /\ (cb = true -> exists rest, reports = (1, 10, "CSV形式を検証中..."%string) :: rest)
    /\ nondecreasing (currents reports)
    /\ Forall (fun x => 1 <= fst (fst x) <= 10 /\ snd (fst x) = 10) reports.
Proof.
  assert (Hgoal : exists rest,
            progress (snd (importPascalCsv gw cb csvContent w))
            = progress w ++ (if cb then [(1, 10, "CSV形式を検証中..."%string)] else []) ++ rest
            /\ (cb = false -> rest = []) /\ steps 1 10 rest).
  { unfold importPascalCsv, importBody. cbv zeta.
    destruct (isValid (validatePascalCsv csvContent)); cbn [negb].
    2:{ exists []. cbn [snd world]. rewrite report_progress, app_nil_r.
        split; [reflexivity|]. split; [reflexivity|apply steps_nil]. }
    destruct (parsePascalCsv csvContent) as [csvData|e].
    2:{ exists (if cb then [(2, 10, "CSVデータを解析中..."%string)] else []).
        cbn [snd world]. rewrite !report_progress, <- app_assoc.
        split; [reflexivity|]. split; [intros ->; reflexivity|apply report_steps; lia]. }
    destruct (keywords csvData) as [|k ks] eqn:Ek.
    { exists (if cb then [(2, 10, "CSVデータを解析中..."%string)] else []).
      cbn [snd world pushError]. rewrite !report_progress, <- app_assoc.
      split; [reflexivity|]. split; [intros ->; reflexivity|apply report_steps; lia]. }
    rewrite <- Ek.
    match goal with
    | |- context [importKeywordBatches gw cb ?t ?i ?b (∅, ?st)] =>
        destruct (importKeywordBatches_progress gw cb t b i ∅ st)
          as (kreports & Hk & Hkcb & Hks);
        destruct (importKeywordBatches gw cb t i b (∅, st)) as [idMap st1]
    end.
    cbn [snd] in Hk. cbn [snd world].
    rewrite report_progress.
    match goal with
    | |- context [importRankingGroups gw cb idMap ?t ?g ?p ?st] =>
        destruct (importRankingGroups_progress gw cb idMap t g p st)
          as (rreports & Hr & Hrcb & Hrs & _); [lia|]
    end.
    rewrite Hr, report_progress, Hk.
    repeat (cbn [world]; rewrite report_progress). cbn [world].
    rewrite <- !app_assoc. eexists. split; [reflexivity|]. split.
    - intros ->. rewrite Hkcb, Hrcb by reflexivity. reflexivity.
    - apply (steps_app _ 2 _); [apply report_steps; lia| |lia].
      apply (steps_app _ 3 _); [apply report_steps; lia| |lia].
      apply (steps_app _ 7 _);
        [eapply steps_weaken; [| |exact Hks]; [|lia]| |lia].
      + assert (0 <= 0 * 4 / Z.of_nat (length (keywords csvData))).
        { destruct (Z.eq_dec (Z.of_nat (length (keywords csvData))) 0) as [->|Hne];
            [rewrite Z.div_0_r; lia|apply Z.div_pos; lia]. }
        change (Z.of_nat 0) with 0. lia.
      + apply (steps_app _ 7 _); [apply report_steps; lia| |lia].
        apply (steps_app _ 10 _); [eapply steps_weaken; [| |exact Hrs]; lia| |lia].
        apply report_steps. lia. }
  destruct Hgoal as (rest & Hp & Hcb & Hs).
  exists ((if cb then [(1, 10, "CSV形式を検証中..."%string)] else []) ++ rest).
  split; [exact Hp|]. split; [intros ->; cbn; apply Hcb; reflexivity|].
  split; [intros ->; eauto|].
  apply (steps_app 1 1 10); [apply report_steps; lia|exact Hs|lia].
Qed.
(** * The chart: further properties of the series *)

(** ** Zones with daylight saving *)

Ltac unzone :=
  unfold Zoned.generateDateRange, Zoned.generatePeriodRange, Zoned.addToGroup,
    Zoned.groupKey, Zoned.weekKey, Zoned.monthKey, Zoned.setDate, Zoned.setMonth,
    Zoned.getDay, Zoned.getDate, Zoned.getMonth, Zoned.getFullYear,
    Zoned.LocalTime, Zoned.UTC, fixedZone;
  cbn [offsetAtUTC offsetAtLocal];
  unfold generateDateRange, generatePeriodRange, addToGroup, groupKey, weekKey,
    monthKey, setDate, setMonth, getDay, getDate, getMonth, getFullYear,
    LocalTime, UTC.

Lemma generateDateRange_fixedZone tza start end_ :
  Zoned.generateDateRange (fixedZone tza) start end_ = generateDateRange tza start end_.
Proof. unzone. reflexivity. Qed.

Lemma generatePeriodRange_fixedZone tza start end_ type :
  Zoned.generatePeriodRange (fixedZone tza) start end_ type
  = generatePeriodRange tza start end_ type.
Proof. unzone. reflexivity. Qed.

Lemma addToGroup_fixedZone tza aggregation :
  Zoned.addToGroup (fixedZone tza) aggregation = addToGroup tza aggregation.
Proof. unzone. reflexivity. Qed.

(** Over a zone of constant offset the aggregation is the one of the
    constant-offset operations: what is proved of [aggregatedData tza] is
    proved of the chart in such a zone. *)
Lemma aggregatedData_fixedZone tza data aggregation startDate endDate :
  Zoned.aggregatedData (fixedZone tza) data aggregation startDate endDate
  = aggregatedData tza data aggregation startDate endDate.
Proof.
  unfold Zoned.aggregatedData, aggregatedData.
  rewrite addToGroup_fixedZone.
  destruct (mapM with_time data) as [timed|]; cbn [mbind option_bind]; [|reflexivity].
  destruct (match truthy startDate with | Some _ => _ | None => _ end) as [[[s e]|]|];
    cbn [mbind option_bind]; [|reflexivity|reflexivity].
  rewrite generateDateRange_fixedZone, generatePeriodRange_fixedZone. reflexivity.
Qed.

(** C1 (refuted where the offset of local time changes within the range):
    the daily loop moves the local date on by one and compares and
    writes the result in UTC, so a day of 25 or 23 hours puts the series
    out of step.  In Europe/London the range 2025-10-25 .. 2025-10-27,
    three calendar days across the end of summer time, gives two points,
    and the fact dated 2025-10-27 is not shown; in America/New_York the
    range 2025-03-08 .. 2025-03-12, five days across the start of summer
    time, gives five points of which two carry 2025-03-09 and none carries
    2025-03-12. *)
Theorem daily_series_breaks_at_daylight_saving :
  Zoned.aggregatedData london2025 [mkRankingData "2025-10-27" 5] daily
    (Some "2025-10-25"%string) (Some "2025-10-27"%string)
  = Some [outOfRangePoint "2025-10-25"; outOfRangePoint "2025-10-26"]
  /\ (exists s e, newDate "2025-10-25" = Some s /\ newDate "2025-10-27" = Some e
        /\ Day e - Day s + 1 = 3)
  /\ (map agg_date <$>
        Zoned.aggregatedData newYork2025 [] daily
          (Some "2025-03-08"%string) (Some "2025-03-12"%string))
     = Some ["2025-03-08"; "2025-03-09"; "2025-03-09"; "2025-03-10"; "2025-03-11"]%string.
Proof.
  split; [vm_compute; reflexivity|]. split; [|vm_compute; reflexivity].
  exists (MakeDate (MakeDay 2025 9 25) 0), (MakeDate (MakeDay 2025 9 27) 0).
  repeat split; vm_compute; reflexivity.
Qed.

(** X13: in daily mode a range whose end lies before its start gives an
    empty series, whatever the data, in every zone, with or without
    daylight saving. *)
Theorem daily_reversed_range_empty z data startDate endDate s e :
  newDate startDate = Some s -> newDate endDate = Some e -> e < s ->
  Forall (fun f => is_Some (newDate (date f))) data ->
  Zoned.aggregatedData z data daily (Some startDate) (Some endDate) = Some []
  /\ forall tza, aggregatedData tza data daily (Some startDate) (Some endDate) = Some [].
Proof.
  intros Hs He Hlt Hdata.
  assert (Hz : forall z0,
            Zoned.aggregatedData z0 data daily (Some startDate) (Some endDate) = Some []).
  { intros z0. destruct (with_time_all data Hdata) as (timed & Hm & _).
    unfold Zoned.aggregatedData. rewrite Hm. cbn [mbind option_bind].
    assert (Ht1 : truthy (Some startDate) = Some startDate).
    { destruct startDate; [discriminate Hs|reflexivity]. }
    assert (Ht2 : truthy (Some endDate) = Some endDate).
    { destruct endDate; [discriminate He|reflexivity]. }
    rewrite Ht1, Ht2, Hs, He. cbn [mbind option_bind].
    unfold Zoned.generateDateRange. cbn [while_loop].
    destruct (Z.leb_spec s e) as [Hle|_]; [lia|]. reflexivity. }
  split; [apply Hz|]. intros tza. rewrite <- aggregatedData_fixedZone. apply Hz.
Qed.

Lemma daily_reversed_range_empty_witness :
  let s := MakeDate (MakeDay 2025 0 10) 0 in
  let e := MakeDate (MakeDay 2025 0 5) 0 in
  newDate "2025-01-10" = Some s /\ newDate "2025-01-05" = Some e /\ e < s
  /\ Zoned.aggregatedData newYork2025 [mkRankingData "2025-01-04" 7] daily
       (Some "2025-01-10"%string) (Some "2025-01-05"%string) = Some [].
Proof.
  cbv zeta. split; [reflexivity|]. split; [reflexivity|].
  split; [vm_compute; reflexivity|].
  apply (daily_reversed_range_empty newYork2025 [mkRankingData "2025-01-04" 7]
           "2025-01-10" "2025-01-05"
           (MakeDate (MakeDay 2025 0 10) 0) (MakeDate (MakeDay 2025 0 5) 0));
    [reflexivity|reflexivity|vm_compute; reflexivity|].
  constructor; [|constructor]. eexists. reflexivity.
Defined.

Lemma math_min_le ranks r : r ∈ ranks -> math_min ranks <= r.
Proof.
  destruct ranks as [|r0 rs]; [intros H; inversion H|]. cbn [math_min].
  assert (H : forall acc, foldl Z.min acc rs <= acc
                          /\ forall x, x ∈ rs -> foldl Z.min acc rs <= x).
  { induction rs as [|y rs IH]; intros acc; cbn [foldl].
    - split; [lia|intros x Hx; inversion Hx].
    - destruct (IH (Z.min acc y)) as [H1 H2]. split; [lia|].
      intros x Hx. apply elem_of_cons in Hx as [->|Hx]; [lia|apply H2, Hx]. }
  intros Hr. apply elem_of_cons in Hr as [->|Hr]; [apply (proj1 (H r0))|apply (proj2 (H r0)), Hr].
Qed.

Lemma math_max_ge ranks r : r ∈ ranks -> r <= math_max ranks.
Proof.
  destruct ranks as [|r0 rs]; [intros H; inversion H|]. cbn [math_max].
  assert (H : forall acc, acc <= foldl Z.max acc rs
                          /\ forall x, x ∈ rs -> x <= foldl Z.max acc rs).
  { induction rs as [|y rs IH]; intros acc; cbn [foldl].
    - split; [lia|intros x Hx; inversion Hx].
    - destruct (IH (Z.max acc y)) as [H1 H2]. split; [lia|].
      intros x Hx. apply elem_of_cons in Hx as [->|Hx]; [lia|apply H2, Hx]. }
  intros Hr. apply elem_of_cons in Hr as [->|Hr]; [apply (proj1 (H r0))|apply (proj2 (H r0)), Hr].
Qed.

Lemma sum_ranks_bounds lo hi ranks :
  (forall r, r ∈ ranks -> lo <= r <= hi) ->
  Z.of_nat (length ranks) * lo <= sum_ranks ranks <= Z.of_nat (length ranks) * hi.
Proof.
  unfold sum_ranks.
  assert (H : forall acc, (forall r, r ∈ ranks -> lo <= r <= hi) ->
            acc + Z.of_nat (length ranks) * lo <= foldl Z.add acc ranks
            <= acc + Z.of_nat (length ranks) * hi).
  { induction ranks as [|r ranks IH]; intros acc Hb; cbn [foldl length]; [lia|].
    assert (Hr : lo <= r <= hi) by (apply Hb; left).
    assert (Hrest : forall x, x ∈ ranks -> lo <= x <= hi) by (intros x Hx; apply Hb; right; exact Hx).
    specialize (IH (acc + r) Hrest). lia. }
  intros Hb. specialize (H 0 Hb). lia.
Qed.

Lemma round_div_between lo hi sum n :
  0 < n -> n * lo <= sum <= n * hi -> lo <= round_div sum n <= hi.
Proof.
  intros Hn Hs. unfold round_div. split.
  - apply Z.div_le_lower_bound; nia.
  - assert ((2 * sum + n) / (2 * n) < hi + 1); [|lia].
    apply Z.div_lt_upper_bound; nia.
Qed.

(** X14: in every point of every series, at any granularity and in any
    zone of constant offset, the average lies between the minimum and the
    maximum: rounding the mean never takes it outside the ranks it
    averages. *)
Theorem average_between_extremes tza data aggregation startDate endDate :
  Forall (fun f => is_Some (newDate (date f))) data ->
  wellFormedRange startDate endDate ->
  exists pts,
    aggregatedData tza data aggregation startDate endDate = Some pts
    /\ forall p, p ∈ pts -> minRank p <= avgRank p <= maxRank p.
Proof.
  intros Hdata Hrange.
  destruct (aggregatedData_shape tza data aggregation startDate endDate Hdata Hrange)
    as (timed & Hsnd & Hall & [Heq|[[-> [dates Heq]]|[Hagg [periods Heq]]]]).
  - exists []. split; [exact Heq|]. intros p Hp. inversion Hp.
  - eexists. split; [exact Heq|]. intros p Hp.
    apply list_elem_of_fmap in Hp as (d & -> & _). unfold dailyPoint.
    destruct (_ !! d); cbn; lia.
  - eexists. split; [exact Heq|]. intros p Hp.
    apply list_elem_of_fmap in Hp as (k & -> & _). unfold periodPoint.
    destruct (_ !! k) as [[|item items]|]; cbn [outOfRangePoint minRank avgRank maxRank];
      try lia.
    cbv zeta. cbn [minRank avgRank maxRank].
    set (ranks := map rank (item :: items)).
    apply round_div_between; [subst ranks; cbn [length map]; lia|].
    apply sum_ranks_bounds. intros r Hr. split; [apply math_min_le|apply math_max_ge]; exact Hr.
Qed.

Lemma average_between_extremes_witness :
  exists pts,
    aggregatedData 32400000
      [mkRankingData "2025-01-06" 3; mkRankingData "2025-01-07" 4] weekly
      (Some "2025-01-06"%string) (Some "2025-01-12"%string) = Some pts
    /\ forall p, p ∈ pts -> minRank p <= avgRank p <= maxRank p.
Proof.
  apply average_between_extremes.
  - repeat constructor; eexists; reflexivity.
  - cbn. split; eexists; reflexivity.
Defined.
Lemma orbit_add_lookup n k c i x :
  orbit n (fun d => d + k) c !! i = Some x -> x = c + k * Z.of_nat i /\ (i < n)%nat.
Proof.
  intros H. assert (Hi : (i < n)%nat).
  { apply lookup_lt_Some in H. rewrite orbit_length in H. exact H. }
  rewrite orbit_lookup in H by exact Hi. injection H as <-.
  rewrite iter_add_step. split; [lia|exact Hi].
Qed.

(** X15: in a zone of constant offset at or east of Greenwich (an offset
    under a day) the weekly series is keyed by Mondays: its first point is the Monday on or
    before the start of the range, the points follow at seven days, up to
    the last Monday on or before the end, and every fact belongs to the
    bucket of the Monday of its own week. *)
Theorem weekly_series_east tza data startDate endDate s e :
  0 <= tza < msPerDay ->
  newDate startDate = Some s -> newDate endDate = Some e ->
  Forall (fun f => is_Some (newDate (date f))) data ->
  exists pts,
    aggregatedData tza data weekly (Some startDate) (Some endDate) = Some pts
    /\ Z.of_nat (length pts) = Z.max 0 ((Day e - monday_of (Day s)) / 7 + 1)
    /\ (forall i p, pts !! i = Some p ->
          agg_date p = toISODate (MakeDate (monday_of (Day s) + 7 * Z.of_nat i) 0)
          /\ WeekDay (MakeDate (monday_of (Day s) + 7 * Z.of_nat i) 0) = 1)
    /\ monday_of (Day s) <= Day s < monday_of (Day s) + 7
    /\ (forall f t, f ∈ data -> newDate (date f) = Some t ->
          bucketKey tza weekly f = Some (toISODate (MakeDate (monday_of (Day t)) 0))).
Proof.
  intros Htza Hs He Hdata.
  destruct (weekly_buckets_east tza data startDate endDate s e Htza Hs He Hdata)
    as (pts & Heq & Hdates & Hkeys).
  exists pts. split; [exact Heq|].
  assert (Hlen : length pts = steps_upto (monday_of (Day s)) (Day e) 7).
  { rewrite <- (length_map agg_date), Hdates, length_map, orbit_length. reflexivity. }
  split; [rewrite Hlen; unfold steps_upto; lia|].
  split; [|split; [apply monday_of_spec|]].
  - intros i p Hp.
    assert (Hd : map agg_date pts !! i = Some (agg_date p))
      by (rewrite list_lookup_fmap, Hp; reflexivity).
    rewrite Hdates, list_lookup_fmap in Hd.
    destruct (orbit _ _ _ !! i) as [d|] eqn:Ed; [|discriminate].
    apply orbit_add_lookup in Ed as [-> _].
    cbn [fmap option_fmap option_map] in Hd. apply (inj Some) in Hd.
    split; [symmetry; exact Hd|]. rewrite WeekDay_midnight.
    pose proof (monday_of_spec (Day s)) as [Hm _]. revert Hm. generalize (monday_of (Day s)).
    intros m Hm. zdiv.
  - intros f t Hf Ht. cbn [bucketKey]. rewrite Ht. cbn [fmap option_fmap option_map].
    f_equal. eapply Hkeys; eassumption.
Qed.

Lemma weekly_series_east_witness :
  exists pts,
    aggregatedData 32400000 [mkRankingData "2025-01-08" 3] weekly
      (Some "2025-01-08"%string) (Some "2025-01-20"%string) = Some pts
    /\ Z.of_nat (length pts) = 3.
Proof.
  destruct (weekly_series_east 32400000 [mkRankingData "2025-01-08" 3]
              "2025-01-08" "2025-01-20"
              (MakeDate (MakeDay 2025 0 8) 0) (MakeDate (MakeDay 2025 0 20) 0))
    as (pts & Heq & Hlen & _).
  - unfold msPerDay. lia.
  - reflexivity.
  - reflexivity.
  - constructor; [|constructor]. eexists. reflexivity.
  - exists pts. split; [exact Heq|]. rewrite Hlen. vm_compute. reflexivity.
Defined.

(** X16: in a zone of constant offset at or east of Greenwich the monthly
    series has one point for each calendar month from the month of the
    start of the range to the month of its end, keyed by the first day of
    the month, and every fact belongs to the bucket of its own calendar
    month. *)
Theorem monthly_series_east tza data startDate endDate ys ms ds ye me de :
  0 <= tza < msPerDay ->
  parseDateOnly startDate = Some (ys, ms, ds) ->
  parseDateOnly endDate = Some (ye, me, de) ->
  Forall (fun f => is_Some (newDate (date f))) data ->
  exists pts,
    aggregatedData tza data monthly (Some startDate) (Some endDate) = Some pts
    /\ Z.of_nat (length pts) = Z.max 0 (12 * (ye - ys) + (me - ms) + 1)
    /\ (forall i p, pts !! i = Some p ->
          agg_date p = monthKeyOf (12 * ys + ms - 1 + Z.of_nat i))
    /\ (forall f y m d, f ∈ data -> parseDateOnly (date f) = Some (y, m, d) ->
          bucketKey tza monthly f = Some (monthKeyOf (12 * y + m - 1))).
Proof.
  intros Htza Hs He Hdata.
  assert (Hidx : forall str y m d t,
            parseDateOnly str = Some (y, m, d) -> newDate str = Some t ->
            monthIndex (Day t) = 12 * y + m - 1).
  { intros str y m d t Hp Ht. apply newDate_spec in Ht as (y' & m' & d' & Hp' & _ & _ & Hc & _).
    rewrite Hp in Hp'. injection Hp' as <- <- <-. unfold monthIndex. rewrite Hc. reflexivity. }
  assert (Hnew : forall str y m d, parseDateOnly str = Some (y, m, d) ->
                                   exists t, newDate str = Some t).
  { intros str y m d Hp. unfold newDate. rewrite Hp. eauto. }
  destruct (Hnew _ _ _ _ Hs) as [s Hs']. destruct (Hnew _ _ _ _ He) as [e He'].
  destruct (monthly_buckets_east tza data startDate endDate s e Htza Hs' He' Hdata)
    as (pts & Heq & Hdates & Hkeys).
  rewrite (Hidx _ _ _ _ _ Hs Hs'), (Hidx _ _ _ _ _ He He') in Hdates.
  exists pts. split; [exact Heq|].
  assert (Hlen : length pts = Z.to_nat (12 * ye + me - 1 - (12 * ys + ms - 1) + 1)).
  { rewrite <- (length_map agg_date), Hdates, length_map, orbit_length. reflexivity. }
  split; [rewrite Hlen; lia|]. split.
  - intros i p Hp.
    assert (Hd : map agg_date pts !! i = Some (agg_date p))
      by (rewrite list_lookup_fmap, Hp; reflexivity).
    rewrite Hdates, list_lookup_fmap in Hd.
    destruct (orbit _ _ _ !! i) as [mi|] eqn:Ed; [|discriminate].
    rewrite (orbit_ext _ Z.succ (fun d => d + 1)) in Ed by (intros; lia).
    apply orbit_add_lookup in Ed as [-> _].
    cbn [fmap option_fmap option_map] in Hd. apply (inj Some) in Hd.
    rewrite <- Hd. f_equal. lia.
  - intros f y m d Hf Hp. destruct (Hnew _ _ _ _ Hp) as [t Ht].
    cbn [bucketKey]. rewrite Ht. cbn [fmap option_fmap option_map]. f_equal.
    rewrite (Hkeys f t Hf Ht). f_equal. eapply Hidx; eassumption.
Qed.

Lemma monthly_series_east_witness :
  exists pts,
    aggregatedData 32400000 [mkRankingData "2025-01-31" 3] monthly
      (Some "2024-11-15"%string) (Some "2025-02-01"%string) = Some pts
    /\ Z.of_nat (length pts) = 4.
Proof.
  destruct (monthly_series_east 32400000 [mkRankingData "2025-01-31" 3]
              "2024-11-15" "2025-02-01" 2024 11 15 2025 2 1)
    as (pts & Heq & Hlen & _).
  - unfold msPerDay. lia.
  - reflexivity.
  - reflexivity.
  - constructor; [|constructor]. eexists. reflexivity.
  - exists pts. split; [exact Heq|]. rewrite Hlen. reflexivity.
Defined.
(** ** The range taken from the data *)

Lemma nondecreasing_inv x l :
  nondecreasing (x :: l) -> Forall (fun y => x <= y) l /\ nondecreasing l.
Proof.
  intros H. split.
  - apply Forall_forall. intros y Hy. apply list_elem_of_lookup in Hy as [j Hj].
    apply (H 0%nat (S j)); [lia|reflexivity|exact Hj].
  - intros i j a b Hij Hi Hj. apply (H (S i) (S j)); [lia|exact Hi|exact Hj].
Qed.

Lemma insert_sorted_sorted x l :
  nondecreasing (map fst l) -> nondecreasing (map fst (insert_sorted x l)).
Proof.
  induction l as [|y l IH]; intros Hl; cbn [insert_sorted].
  - cbn. apply nondecreasing_cons; [constructor|apply nondecreasing_nil].
  - destruct (Z.leb_spec (fst x) (fst y)) as [Hle|Hgt].
    + cbn [map]. apply nondecreasing_cons; [|exact Hl].
      cbn [map] in Hl. apply nondecreasing_inv in Hl as [Hy _].
      constructor; [exact Hle|]. eapply Forall_impl; [exact Hy|]. cbn. intros z Hz. lia.
    + cbn [map] in *. apply nondecreasing_inv in Hl as [Hy Hl].
      apply nondecreasing_cons; [|apply IH, Hl].
      apply Forall_forall. intros z Hz. apply list_elem_of_fmap in Hz as (tz & -> & Htz).
      rewrite insert_sorted_perm in Htz. apply elem_of_cons in Htz as [->|Htz]; [lia|].
      rewrite Forall_forall in Hy. apply Hy. apply list_elem_of_fmap. eauto.
Qed.

Lemma sort_by_time_sorted l : nondecreasing (map fst (sort_by_time l)).
Proof.
  induction l as [|x l IH]; cbn; [apply nondecreasing_nil|].
  apply insert_sorted_sorted, IH.
Qed.

Lemma last_lookup_default {A} (l : list A) x d d' :
  List.last (x :: l) d = List.last (x :: l) d'.
Proof.
  revert x. induction l as [|y l IH]; intros x; [reflexivity|].
  change (List.last (x :: y :: l) d) with (List.last (y :: l) d).
  change (List.last (x :: y :: l) d') with (List.last (y :: l) d').
  apply IH.
Qed.

Lemma last_is_at_end {A} (l : list A) x :
  (x :: l) !! length l = Some (List.last (x :: l) x).
Proof.
  revert x. induction l as [|y l IH]; intros x; [reflexivity|].
  change (List.last (x :: y :: l) x) with (List.last (y :: l) x).
  rewrite (last_lookup_default l y x y). cbn [length lookup list_lookup]. apply IH.
Qed.

(** The first and the last of the sorted facts bound all of them. *)
Lemma sort_by_time_bounds timed first rest :
  sort_by_time timed = first :: rest ->
  first ∈ timed /\ List.last (first :: rest) first ∈ timed
  /\ forall tf, tf ∈ timed ->
       fst first <= fst tf <= fst (List.last (first :: rest) first).
Proof.
  intros Hs. pose proof (sort_by_time_sorted timed) as Hsorted. rewrite Hs in Hsorted.
  pose proof (last_is_at_end rest first) as Hlast.
  pose proof (sort_by_time_perm timed) as Hperm. rewrite Hs in Hperm.
  split; [rewrite <- Hperm; left|].
  split; [rewrite <- Hperm; eapply list_elem_of_lookup_2, Hlast|].
  intros tf Htf. rewrite <- Hperm in Htf.
  apply list_elem_of_lookup in Htf as [i Hi].
  assert (Hlt : (i <= length rest)%nat).
  { apply lookup_lt_Some in Hi. cbn [length] in Hi. lia. }
  split.
  - apply (Hsorted 0%nat i); [lia|reflexivity|].
    rewrite list_lookup_fmap, Hi. reflexivity.
  - apply (Hsorted i (length rest)); [exact Hlt| |].
    + rewrite list_lookup_fmap, Hi. reflexivity.
    + rewrite list_lookup_fmap, Hlast. reflexivity.
Qed.

Lemma newDate_nonempty str t : newDate str = Some t -> truthy (Some str) = Some str.
Proof. destruct str; [discriminate|reflexivity]. Qed.

(** X17: in a zone of constant offset, unless both bounds are given, the
    range of the series is taken from the data: a lone bound is ignored, an empty data set gives an
    empty series, and otherwise the series is the one for the range from
    the date of the earliest fact to the date of the latest, whatever the
    order of the facts. *)
Theorem range_defaults_to_data tza data aggregation startDate endDate :
  Forall (fun f => is_Some (newDate (date f))) data ->
  truthy startDate = None \/ truthy endDate = None ->
  (data = [] -> aggregatedData tza data aggregation startDate endDate = Some [])
  /\ (data <> [] ->
      exists fmin fmax tmin tmax,
        fmin ∈ data /\ fmax ∈ data
        /\ newDate (date fmin) = Some tmin /\ newDate (date fmax) = Some tmax
        /\ (forall f t, f ∈ data -> newDate (date f) = Some t -> tmin <= t <= tmax)
        /\ aggregatedData tza data aggregation startDate endDate
           = aggregatedData tza data aggregation (Some (date fmin)) (Some (date fmax))).
Proof.
  intros Hdata Hbounds. split.
  - intros ->. unfold aggregatedData. cbn [mapM mbind option_bind mret option_ret sort_by_time foldr].
    destruct (truthy startDate), (truthy endDate); try reflexivity.
    destruct Hbounds; discriminate.
  - intros Hne. destruct (with_time_all data Hdata) as (timed & Hm & Hsnd & Hall).
    destruct (sort_by_time timed) as [|first rest] eqn:Hs.
    { exfalso. apply Hne. rewrite <- Hsnd.
      assert (Hnil : timed = []).
      { apply Permutation_nil_r. rewrite <- Hs. symmetry. apply sort_by_time_perm. }
      rewrite Hnil. reflexivity. }
    destruct (sort_by_time_bounds timed first rest Hs) as (Hfirst & Hlast & Hb).
    set (lst := List.last (first :: rest) first) in *.
    rewrite Forall_forall in Hall.
    exists (snd first), (snd lst), (fst first), (fst lst).
    split; [rewrite <- Hsnd; apply list_elem_of_fmap; eauto|].
    split; [rewrite <- Hsnd; apply list_elem_of_fmap; eauto|].
    split; [apply Hall, Hfirst|]. split; [apply Hall, Hlast|]. split.
    + intros f t Hf Ht. rewrite <- Hsnd in Hf. apply list_elem_of_fmap in Hf as (tf & -> & Htf).
      rewrite (Hall tf Htf) in Ht. injection Ht as <-. apply Hb, Htf.
    + unfold aggregatedData. rewrite Hm. cbn [mbind option_bind]. rewrite Hs.
      rewrite (newDate_nonempty _ _ (Hall first Hfirst)),
              (newDate_nonempty _ _ (Hall lst Hlast)).
      rewrite (Hall first Hfirst), (Hall lst Hlast). cbn [mbind option_bind].
      fold lst.
      destruct (truthy startDate), (truthy endDate); try reflexivity.
      destruct Hbounds; discriminate.
Qed.

Lemma range_defaults_to_data_witness :
  let data := [mkRankingData "2025-01-09" 4; mkRankingData "2025-01-07" 3] in
  let startDate := Some "2025-01-01"%string in
  truthy None = None
  /\ (data <> [] ->
      exists fmin fmax tmin tmax,
        fmin ∈ data /\ fmax ∈ data
        /\ newDate (date fmin) = Some tmin /\ newDate (date fmax) = Some tmax
        /\ (forall f t, f ∈ data -> newDate (date f) = Some t -> tmin <= t <= tmax)
        /\ aggregatedData 0 data daily startDate None
           = aggregatedData 0 data daily (Some (date fmin)) (Some (date fmax))).
Proof.
  cbv zeta. split; [reflexivity|].
  apply (range_defaults_to_data 0
           [mkRankingData "2025-01-09" 4; mkRankingData "2025-01-07" 3] daily
           (Some "2025-01-01"%string) None).
  - repeat constructor; eexists; reflexivity.
  - right. reflexivity.
Defined.
(** ** Facts that share a date *)

Lemma dataMap_lookup_last (l : list (Z * RankingData)) k :
  foldl (fun m titem => <[date (snd titem) := snd titem]> m)
    (∅ : gmap string RankingData) l !! k
  = last (map snd (filter (fun tf => date (snd tf) = k) l)).
Proof.
  induction l as [|x l IH] using rev_ind; [apply lookup_empty|].
  rewrite foldl_app. cbn [foldl]. rewrite filter_app, map_app.
  destruct (decide (date (snd x) = k)) as [Heq|Hne].
  - rewrite Heq, lookup_insert_eq. rewrite filter_cons_True by exact Heq.
    rewrite filter_nil. cbn [map]. rewrite last_snoc. reflexivity.
  - rewrite lookup_insert_ne by exact Hne. rewrite filter_cons_False by exact Hne.
    rewrite filter_nil. cbn [map]. rewrite app_nil_r. exact IH.
Qed.

Lemma insert_sorted_filter k x s :
  (forall y, y ∈ s -> date (snd y) = date (snd x) -> fst y = fst x) ->
  filter (fun tf => date (snd tf) = k) (insert_sorted x s)
  = filter (fun tf => date (snd tf) = k) (x :: s).
Proof.
  induction s as [|y s IH]; intros Hsame; cbn [insert_sorted]; [reflexivity|].
  destruct (Z.leb_spec (fst x) (fst y)) as [Hle|Hgt]; [reflexivity|].
  rewrite (filter_cons _ y), IH by (intros z Hz; apply Hsame; right; exact Hz).
  rewrite (filter_cons _ x (y :: s)), (filter_cons _ x s), (filter_cons _ y s).
  destruct (decide (date (snd y) = k)) as [Hy|Hy];
    destruct (decide (date (snd x) = k)) as [Hx|Hx]; try reflexivity.
  exfalso. assert (fst y = fst x) by (apply Hsame; [left|congruence]). lia.
Qed.

(** Sorting keeps the facts of one date in the order of the data. *)
Lemma sort_by_time_stable k timed :
  Forall (fun tf => newDate (date (snd tf)) = Some (fst tf)) timed ->
  map snd (filter (fun tf => date (snd tf) = k) (sort_by_time timed))
  = filter (fun f => date f = k) (map snd timed).
Proof.
  induction timed as [|x timed IH]; intros Hall; [reflexivity|].
  apply Forall_cons in Hall as [Hx Hall]. cbn [sort_by_time foldr].
  fold (sort_by_time timed). rewrite insert_sorted_filter.
  - cbn [map]. rewrite !filter_cons. destruct (decide (date (snd x) = k)); cbn [map];
      rewrite IH by exact Hall; reflexivity.
  - intros y Hy Hd. rewrite sort_by_time_perm in Hy.
    rewrite Forall_forall in Hall. specialize (Hall y Hy). cbn in Hall.
    rewrite Hd, Hx in Hall. congruence.
Qed.

(** X18: in daily mode, in a zone of constant offset, when several facts
    share a date the point of that date shows the last of them in the order of the data; a date
    without a fact gets the sentinel point. *)
Theorem daily_point_last_fact tza data startDate endDate :
  Forall (fun f => is_Some (newDate (date f))) data ->
  wellFormedRange startDate endDate ->
  exists pts,
    aggregatedData tza data daily startDate endDate = Some pts
    /\ forall p, p ∈ pts ->
         match last (filter (fun f => date f = agg_date p) data) with
         | Some f =>
             p = mkAggregatedData (date f) (Some (rank f)) (rank f) (rank f) (rank f) 1 false
         | None => p = outOfRangePoint (agg_date p)
         end.
Proof.
  intros Hdata Hrange.
  destruct (aggregatedData_shape tza data daily startDate endDate Hdata Hrange)
    as (timed & Hsnd & Hall & [Heq|[[_ [dates Heq]]|[Hagg _]]]).
  - exists []. split; [exact Heq|]. intros p Hp. inversion Hp.
  - eexists. split; [exact Heq|]. intros p Hp.
    apply list_elem_of_fmap in Hp as (d & -> & _). unfold dailyPoint.
    rewrite dataMap_lookup_last, sort_by_time_stable, Hsnd by exact Hall.
    destruct (last (filter (fun f => date f = d) data)) as [f|] eqn:El;
      cbn [agg_date outOfRangePoint].
    + assert (Hfd : date f = d).
      { apply last_Some_elem_of, list_elem_of_filter in El as [Hfd _]. exact Hfd. }
      rewrite Hfd, El, Hfd. reflexivity.
    + rewrite El. reflexivity.
  - contradiction.
Qed.

Lemma daily_point_last_fact_witness :
  exists pts,
    aggregatedData 0 [mkRankingData "2025-01-07" 3; mkRankingData "2025-01-07" 9] daily
      (Some "2025-01-07"%string) (Some "2025-01-07"%string) = Some pts
    /\ forall p, p ∈ pts ->
         match last (filter (fun f => date f = agg_date p)
                       [mkRankingData "2025-01-07" 3; mkRankingData "2025-01-07" 9]) with
         | Some f =>
             p = mkAggregatedData (date f) (Some (rank f)) (rank f) (rank f) (rank f) 1 false
         | None => p = outOfRangePoint (agg_date p)
         end.
Proof.
  apply daily_point_last_fact.
  - repeat constructor; eexists; reflexivity.
  - cbn. split; eexists; reflexivity.
Defined.
(** ** Statistics of a bucket *)

Lemma sum_ranks_from acc l : foldl Z.add acc l = acc + sum_ranks l.
Proof.
  unfold sum_ranks. revert acc. induction l as [|x l IH]; intros acc; cbn [foldl]; [lia|].
  rewrite (IH (acc + x)), (IH (0 + x)). lia.
Qed.

Lemma sum_ranks_perm l l' : l ≡ₚ l' -> sum_ranks l = sum_ranks l'.
Proof.
  induction 1 as [|x l l' _ IH|x y l|l1 l2 l3 _ IH1 _ IH2]; [reflexivity| | |congruence].
  - unfold sum_ranks. cbn [foldl]. rewrite !(sum_ranks_from (0 + x)). lia.
  - unfold sum_ranks. cbn [foldl]. rewrite !(sum_ranks_from (0 + _ + _)). lia.
Qed.

Lemma math_min_elem ranks : ranks <> [] -> math_min ranks ∈ ranks.
Proof.
  destruct ranks as [|r0 rs]; [contradiction|]. intros _. cbn [math_min].
  assert (H : forall acc, foldl Z.min acc rs = acc \/ foldl Z.min acc rs ∈ rs).
  { induction rs as [|y rs IH]; intros acc; cbn [foldl]; [left; reflexivity|].
    destruct (IH (Z.min acc y)) as [H|H]; [|right; right; exact H].
    rewrite H. destruct (Z.min_spec acc y) as [[_ ->]|[_ ->]]; [left; reflexivity|right; left]. }
  destruct (H r0) as [->|Hin]; [left|right; exact Hin].
Qed.

Lemma math_max_elem ranks : ranks <> [] -> math_max ranks ∈ ranks.
Proof.
  destruct ranks as [|r0 rs]; [contradiction|]. intros _. cbn [math_max].
  assert (H : forall acc, foldl Z.max acc rs = acc \/ foldl Z.max acc rs ∈ rs).
  { induction rs as [|y rs IH]; intros acc; cbn [foldl]; [left; reflexivity|].
    destruct (IH (Z.max acc y)) as [H|H]; [|right; right; exact H].
    rewrite H. destruct (Z.max_spec acc y) as [[_ ->]|[_ ->]]; [right; left|left; reflexivity]. }
  destruct (H r0) as [->|Hin]; [left|right; exact Hin].
Qed.

Lemma perm_elem (l l' : list Z) x : l ≡ₚ l' -> x ∈ l -> x ∈ l'.
Proof.
  intros Hp Hx. apply list_elem_of_In. apply (Permutation_in _ Hp).
  apply list_elem_of_In. exact Hx.
Qed.

Lemma math_min_perm l l' : l ≡ₚ l' -> math_min l = math_min l'.
Proof.
  intros Hp. destruct l as [|x l].
  - apply Permutation_nil_l in Hp. subst. reflexivity.
  - assert (Hne : x :: l <> []) by discriminate.
    assert (Hne' : l' <> []) by (intros ->; apply Permutation_nil_r in Hp; discriminate).
    pose proof (perm_elem _ _ _ Hp (math_min_elem _ Hne)) as H1.
    pose proof (perm_elem _ _ _ (Permutation_sym Hp) (math_min_elem _ Hne')) as H2.
    apply math_min_le in H1, H2. lia.
Qed.

Lemma math_max_perm l l' : l ≡ₚ l' -> math_max l = math_max l'.
Proof.
  intros Hp. destruct l as [|x l].
  - apply Permutation_nil_l in Hp. subst. reflexivity.
  - assert (Hne : x :: l <> []) by discriminate.
    assert (Hne' : l' <> []) by (intros ->; apply Permutation_nil_r in Hp; discriminate).
    pose proof (perm_elem _ _ _ Hp (math_max_elem _ Hne)) as H1.
    pose proof (perm_elem _ _ _ (Permutation_sym Hp) (math_max_elem _ Hne')) as H2.
    apply math_max_ge in H1, H2. lia.
Qed.

(** The facts of a bucket, in the order of the data. *)
Lemma itemsOf_data tza aggregation key timed :
  aggregation <> daily ->
  Forall (fun tf => newDate (date (snd tf)) = Some (fst tf)) timed ->
  itemsOf tza aggregation key timed
  = filter (fun f => bucketKey tza aggregation f = Some key) (map snd timed).
Proof.
  intros Hagg. unfold itemsOf. induction timed as [|x timed IH]; intros Hall; [reflexivity|].
  apply Forall_cons in Hall as [Hx Hall]. cbn [map]. rewrite !filter_cons.
  assert (Hiff : groupKey tza aggregation (fst x) = key
                 <-> bucketKey tza aggregation (snd x) = Some key).
  { destruct aggregation; [contradiction|..]; cbn [bucketKey]; rewrite Hx;
      cbn [fmap option_fmap option_map]; split; congruence. }
  destruct (decide (groupKey tza aggregation (fst x) = key)) as [Hk|Hk];
    destruct (decide (bucketKey tza aggregation (snd x) = Some key)) as [Hb|Hb];
    try tauto; cbn [map]; rewrite IH by exact Hall; reflexivity.
Qed.
(** X19: in weekly and monthly mode, in a zone of constant offset, the
    statistics of a point are taken over all the facts of the data whose bucket is the point's: the point
    counts exactly those facts, its average, minimum and maximum are those
    of their ranks, in whatever order the facts come, and a bucket without
    a fact gets the sentinel point. *)
Theorem period_point_statistics tza data aggregation startDate endDate :
  aggregation <> daily ->
  Forall (fun f => is_Some (newDate (date f))) data ->
  wellFormedRange startDate endDate ->
  exists pts,
    aggregatedData tza data aggregation startDate endDate = Some pts
    /\ forall p, p ∈ pts ->
         let items := filter (fun f => bucketKey tza aggregation f = Some (agg_date p)) data in
         let ranks := map rank items in
         let avg := round_div (sum_ranks ranks) (Z.of_nat (length ranks)) in
         dataPoints p = Z.of_nat (length items)
         /\ (items = [] -> p = outOfRangePoint (agg_date p))
         /\ (items <> [] ->
             p = mkAggregatedData (agg_date p) (Some avg) avg (math_min ranks)
                   (math_max ranks) (Z.of_nat (length items)) false).
Proof.
  intros Hagg Hdata Hrange.
  destruct (aggregatedData_shape tza data aggregation startDate endDate Hdata Hrange)
    as (timed & Hsnd & Hall & [Heq|[[-> _]|[_ [periods Heq]]]]).
  - exists []. split; [exact Heq|]. intros p Hp. inversion Hp.
  - contradiction.
  - eexists. split; [exact Heq|]. intros p Hp.
    apply list_elem_of_fmap in Hp as (key & -> & _).
    rewrite periodPoint_date. cbv zeta. unfold periodPoint. rewrite groups_lookup.
    assert (Hperm : itemsOf tza aggregation key (sort_by_time timed)
                    ≡ₚ filter (fun f => bucketKey tza aggregation f = Some key) data).
    { rewrite <- Hsnd, <- (itemsOf_data tza aggregation key timed Hagg Hall).
      unfold itemsOf. apply Permutation_map. apply filter_Permutation, sort_by_time_perm. }
    set (items := filter (fun f => bucketKey tza aggregation f = Some key) data) in *.
    destruct (itemsOf tza aggregation key (sort_by_time timed)) as [|item rest] eqn:Ei.
    + apply Permutation_nil_l in Hperm. rewrite <- Hperm.
      cbn [dataPoints outOfRangePoint length]. split; [reflexivity|].
      split; [reflexivity|contradiction].
    + cbn [dataPoints]. rewrite !length_map.
      pose proof (Permutation_length Hperm) as Hlen.
      pose proof (Permutation_map rank Hperm) as Hranks.
      rewrite (sum_ranks_perm _ _ Hranks), (math_min_perm _ _ Hranks),
              (math_max_perm _ _ Hranks), Hlen.
      split; [reflexivity|]. split; [|reflexivity].
      intros Hnil. rewrite Hnil in Hlen. discriminate.
Qed.

Lemma period_point_statistics_witness :
  exists pts,
    aggregatedData (-18000000)
      [mkRankingData "2025-01-09" 4; mkRankingData "2025-01-07" 3] weekly
      (Some "2025-01-01"%string) (Some "2025-01-20"%string) = Some pts
    /\ forall p, p ∈ pts ->
         dataPoints p
         = Z.of_nat (length (filter (fun f => bucketKey (-18000000) weekly f
                                              = Some (agg_date p))
                               [mkRankingData "2025-01-09" 4;
                                mkRankingData "2025-01-07" 3])).
Proof.
  destruct (period_point_statistics (-18000000)
              [mkRankingData "2025-01-09" 4; mkRankingData "2025-01-07" 3] weekly
              (Some "2025-01-01"%string) (Some "2025-01-20"%string))
    as (pts & Heq & H).
  - discriminate.
  - repeat constructor; eexists; reflexivity.
  - cbn [wellFormedRange truthy]. split; eexists; reflexivity.
  - exists pts. split; [exact Heq|]. intros p Hp. apply (H p Hp).
Defined.
(** * The dashboard: preset periods *)

Lemma toISODate_Day t : toISODate t = toISODate (MakeDate (Day t) 0).
Proof.
  unfold toISODate, YearFromTime, MonthFromTime, DateFromTime.
  rewrite Day_MakeDate by (unfold msPerDay; lia). reflexivity.
Qed.

(** The day of a time value, from its calendar date. *)
Lemma Day_of_civil t :
  Day t = first_of_month (monthIndex (Day t)) + DateFromTime t - 1
  /\ 1 <= DateFromTime t
        <= daysInMonth (monthIndex (Day t) / 12) (monthIndex (Day t) mod 12 + 1)
  /\ monthIndex (Day t) = 12 * YearFromTime t + MonthFromTime t
  /\ 0 <= MonthFromTime t <= 11.
Proof.
  unfold monthIndex, DateFromTime, YearFromTime, MonthFromTime, first_of_month.
  pose proof (civil_from_days_inv (Day t)) as Hinv.
  pose proof (civil_from_days_day (Day t)) as Hday.
  pose proof (civil_from_days_month (Day t)) as Hmonth.
  destruct (civil_from_days (Day t)) as [[y m] d]. cbn [fst snd] in *.
  replace ((12 * y + m - 1) / 12) with y by zdiv.
  replace ((12 * y + m - 1) mod 12 + 1) with m by zdiv.
  rewrite <- days_from_civil_day. repeat split; try lia.
Qed.




Lemma first_of_month_lt a b : a < b -> first_of_month a < first_of_month b.
Proof.
  intros H. pose proof (first_of_month_succ a) as Hs.
  pose proof (daysInMonth_range (a / 12) (a mod 12 + 1)) as Hr.
  pose proof (first_of_month_mono (a + 1) b). lia.
Qed.



(** The day on which the UTC calendar is behind the local one. *)
Lemma utc_day_east tza t :
  0 <= tza < msPerDay ->
  Day (LocalTime tza t) - Day t
  = if TimeWithinDay (LocalTime tza t) <? tza then 1 else 0.
Proof.
  unfold LocalTime, Day, TimeWithinDay, msPerDay. intros H.
  destruct (Z.ltb_spec ((t + tza) mod 86400000) tza); zdiv.
Qed.

(** X20: in a zone of constant offset [tza], the preset "this week"
    starts on the Monday of the local week
    of today and ends today, but both dates are written as UTC calendar
    dates: they are the local dates moved back by the difference between
    the local and the UTC day, which east of Greenwich is one day whenever
    the local time of day is earlier than the zone offset. *)
Theorem this_week_period tza today :
  let D := Day (LocalTime tza today) in
  let shift := D - Day today in
  exists k,
    0 <= k <= 6
    /\ WeekDay (MakeDate (D - k) 0) = 1
    /\ calculatePeriod tza today "this_week"
       = Some (toISODate (MakeDate (D - k - shift) 0), toISODate (MakeDate (D - shift) 0))
    /\ (0 <= tza < msPerDay ->
        shift = if TimeWithinDay (LocalTime tza today) <? tza then 1 else 0).
Proof.
  cbv zeta.
  exists (if getDay tza today =? 0 then 6 else getDay tza today - 1).
  pose proof (WeekDay_range (LocalTime tza today)) as Hw.
  split; [unfold getDay; case_ifs; lia|].
  split.
  { rewrite WeekDay_midnight. unfold getDay, WeekDay in *.
    destruct (Z.eqb_spec ((Day (LocalTime tza today) + 4) mod 7) 0); zdiv. }
  split; [|apply utc_day_east].
  unfold calculatePeriod. cbn [String.eqb Ascii.eqb Bool.eqb]. cbv zeta.
  rewrite setDate_shift, (toISODate_Day (today + _)), (toISODate_Day today), Day_shift.
  f_equal. f_equal; (f_equal; f_equal; lia).
Qed.



(** * The chart: series that span years *)

Lemma monthIndex_mono a b : a <= b -> monthIndex a <= monthIndex b.
Proof.
  intros H. apply first_of_month_le_iff. pose proof (monthIndex_bracket a). lia.
Qed.

Lemma YearFromTime_mono a b : Day a <= Day b -> YearFromTime a <= YearFromTime b.
Proof.
  intros H. apply monthIndex_mono in H.
  destruct (Day_of_civil a) as (_ & _ & Ha & Hma).
  destruct (Day_of_civil b) as (_ & _ & Hb & Hmb). lia.
Qed.

Lemma years_span (l : list Z) first last :
  first ∈ l -> last ∈ l -> (forall x, x ∈ l -> first <= x <= last) ->
  (1 <? size (list_to_set l : gset Z))%nat = negb (first =? last).
Proof.
  intros Hf Hl Hb. destruct (Z.eqb_spec first last) as [Heq|Hne]; cbn [negb].
  - assert (Hset : (list_to_set l : gset Z) = {[first]}).
    { apply set_eq. intros x. rewrite elem_of_list_to_set, elem_of_singleton. split.
      - intros Hx. specialize (Hb x Hx). lia.
      - intros ->. exact Hf. }
    rewrite Hset, size_singleton. reflexivity.
  - apply Nat.ltb_lt.
    assert (Hsub : ({[first; last]} : gset Z) ⊆ list_to_set l).
    { intros x Hx. apply elem_of_list_to_set.
      apply elem_of_union in Hx as [Hx|Hx]; apply elem_of_singleton in Hx; subst x; assumption. }
    apply subseteq_size in Hsub.
    rewrite size_union in Hsub by (apply disjoint_singleton_l; rewrite elem_of_singleton; exact Hne).
    rewrite !size_singleton in Hsub. lia.
Qed.

Lemma Day_local tza t :
  - msPerDay <= tza < msPerDay -> t = MakeDate (Day t) 0 ->
  Day (LocalTime tza t) = Day t - (if tza <? 0 then 1 else 0).
Proof.
  intros H Ht. destruct (Z.ltb_spec tza 0).
  - apply Day_local_west; [lia|exact Ht].
  - rewrite Day_local_east; [lia|lia|exact Ht].
Qed.

Lemma spansMultipleYears_nonempty tza pts years :
  pts <> [] ->
  mapM (fun item => getFullYear tza <$> newDate (agg_date item)) pts = Some years ->
  spansMultipleYears tza pts = Some (1 <? size (list_to_set years : gset Z))%nat.
Proof.
  intros Hne Hy. destruct pts as [|p pts]; [contradiction|].
  unfold spansMultipleYears. rewrite Hy. reflexivity.
Qed.

(** X23: in a zone of constant offset [tza] within a day of UTC, for a
    daily series over a range, the flag that the series spans
    several years compares the local years of the first and the last
    day.  At or east of Greenwich these are the years of the two dates;
    west of Greenwich they are the years of the days before them, so a
    range that starts on 1 January counts as spanning two years. *)
Theorem spansMultipleYears_daily tza data startDate endDate s e :
  - msPerDay <= tza < msPerDay ->
  newDate startDate = Some s -> newDate endDate = Some e -> s <= e ->
  Forall (fun f => is_Some (newDate (date f))) data ->
  let back := if tza <? 0 then 1 else 0 in
  exists pts,
    aggregatedData tza data daily (Some startDate) (Some endDate) = Some pts
    /\ spansMultipleYears tza pts
       = Some (negb (YearFromTime (MakeDate (Day s - back) 0)
                     =? YearFromTime (MakeDate (Day e - back) 0))).
Proof.
  intros Htza Hs He Hle Hdata. cbv zeta.
  destruct (aggregatedData_daily_eq tza data startDate endDate s e Hs He Hdata)
    as (dataMap & Heq & _ & Hkeys).
  eexists. split; [exact Heq|].
  pose proof (newDate_midnight _ _ Hs) as Hsm. pose proof (newDate_midnight _ _ He) as Hem.
  pose proof (newDate_year_range _ _ Hs) as Hsr. pose proof (newDate_year_range _ _ He) as Her.
  pose proof (steps_upto_days s e Hsm Hem Hle) as Hn.
  assert (Hse : Day s <= Day e) by (unfold Day, msPerDay; zdiv).
  set (n := steps_upto s e msPerDay) in *.
  set (back := if tza <? 0 then 1 else 0).
  set (yearOf := fun c : Z => YearFromTime (MakeDate (Day c - back) 0)).
  assert (Helem : forall c, c ∈ orbit n (fun c => c + msPerDay) s ->
            c = MakeDate (Day c) 0 /\ Day s <= Day c <= Day e).
  { intros c Hc. apply list_elem_of_lookup in Hc as [i Hi].
    assert (Hlt : (i < n)%nat) by (apply lookup_lt_Some in Hi; rewrite orbit_length in Hi; exact Hi).
    rewrite orbit_lookup in Hi by exact Hlt. injection Hi as <-.
    rewrite iter_add_days, Day_shift. split; [|lia].
    rewrite Hsm at 1. unfold MakeDate. lia. }
  assert (Hyears : mapM (fun item => getFullYear tza <$> newDate (agg_date item))
                     (map (dailyPoint dataMap)
                        (map toISODate (orbit n (fun c => c + msPerDay) s)))
                   = Some (map yearOf (orbit n (fun c => c + msPerDay) s))).
  { apply mapM_Some. rewrite <- list_fmap_compose. apply Forall2_fmap, Forall_Forall2_diag.
    apply Forall_forall. intros c Hc. destruct (Helem c Hc) as [Hcm Hcr]. cbn [compose].
    rewrite dailyPoint_date by (intros k v Hk; apply (Hkeys k v Hk)).
    rewrite newDate_toISODate, <- Hcm.
    - cbn [fmap option_fmap option_map]. f_equal. unfold getFullYear, yearOf, YearFromTime.
      rewrite Day_MakeDate by (unfold msPerDay; lia). f_equal. f_equal. f_equal.
      apply Day_local; [exact Htza|exact Hcm].
    - apply year_range. lia. }
  assert (Hpos : (0 < n)%nat) by lia.
  assert (Hne : map (dailyPoint dataMap)
                  (map toISODate (orbit n (fun c => c + msPerDay) s)) <> []).
  { intros Hnil. apply (f_equal length) in Hnil.
    rewrite !length_map, orbit_length in Hnil. cbn in Hnil. lia. }
  rewrite (spansMultipleYears_nonempty _ _ _ Hne Hyears). f_equal.
  assert (Hfirst : s ∈ orbit n (fun c => c + msPerDay) s).
  { apply list_elem_of_lookup. exists 0%nat. rewrite orbit_lookup by lia. reflexivity. }
  assert (Hlast : e ∈ orbit n (fun c => c + msPerDay) s).
  { apply list_elem_of_lookup. exists (Z.to_nat (Day e - Day s)).
    rewrite orbit_lookup by lia. rewrite iter_add_days. f_equal.
    unfold MakeDate, msPerDay in *. lia. }
  apply (years_span _ (yearOf s) (yearOf e)).
  - apply list_elem_of_fmap. eauto.
  - apply list_elem_of_fmap. eauto.
  - intros y Hy. apply list_elem_of_fmap in Hy as (c & -> & Hc).
    destruct (Helem c Hc) as [_ Hcr]. unfold yearOf.
    split; apply YearFromTime_mono; rewrite !Day_MakeDate by (unfold msPerDay; lia); lia.
Qed.

Lemma spansMultipleYears_daily_witness :
  exists pts,
    aggregatedData (-18000000) [] daily (Some "2025-01-01"%string) (Some "2025-01-02"%string)
    = Some pts
    /\ spansMultipleYears (-18000000) pts = Some true.
Proof.
  destruct (spansMultipleYears_daily (-18000000) [] "2025-01-01" "2025-01-02"
              (MakeDate (MakeDay 2025 0 1) 0) (MakeDate (MakeDay 2025 0 2) 0))
    as (pts & Heq & Hspan).
  - unfold msPerDay. lia.
  - reflexivity.
  - reflexivity.
  - vm_compute. discriminate.
  - constructor.
  - exists pts. split; [exact Heq|]. rewrite Hspan. vm_compute. reflexivity.
Defined.
(** * The parser: the date a header stands for *)

Lemma toISODate_civil y m d :
  1 <= m <= 12 -> 1 <= d <= daysInMonth y m ->
  toISODate (MakeDate (days_from_civil y m d) 0)
  = String.app (isoYear y)
      (String.app "-" (String.app (padStart 2 "0" (pretty m))
      (String.app "-" (padStart 2 "0" (pretty d))))).
Proof.
  intros Hm Hd. unfold toISODate, YearFromTime, MonthFromTime, DateFromTime.
  rewrite Day_MakeDate by (unfold msPerDay; lia).
  rewrite days_from_civil_inv by assumption. cbn [fst snd].
  replace (m - 1 + 1) with m by lia. reflexivity.
Qed.

(** X24: a date header stands for the calendar date it spells: when the
    three numbers captured from the header form a date of the calendar,
    the column is recorded under the ISO date of that year, month and
    day, zero-padded; a year below 100 is read as a year of the twentieth
    century. *)
Theorem headerDate_normalises header y m d year month day :
  firstMatch datePatterns header = Some (y, m, d) ->
  parseInt y = Some year -> parseInt m = Some month -> parseInt d = Some day ->
  let yr := if (0 <=? year) && (year <=? 99) then 1900 + year else year in
  1 <= month <= 12 -> 1 <= day <= daysInMonth yr month ->
  headerDate header
  = Some (String.app (isoYear yr)
            (String.app "-" (String.app (padStart 2 "0" (pretty month))
            (String.app "-" (padStart 2 "0" (pretty day)))))).
Proof.
  intros Hf Hy Hm Hd yr Hmonth Hday. unfold headerDate. rewrite Hf, Hy, Hm, Hd.
  f_equal. unfold DateUTC. cbv zeta. fold yr.
  rewrite <- (toISODate_civil yr month day) by assumption.
  f_equal. f_equal. unfold MakeDay. cbv zeta.
  replace (yr + (month - 1) / 12) with yr by zdiv.
  replace ((month - 1) mod 12 + 1) with month by zdiv.
  rewrite (days_from_civil_day yr month day). reflexivity.
Qed.

Lemma headerDate_normalises_witness :
  firstMatch datePatterns "2025年1月5日" = Some ("2025"%string, "1"%string, "5"%string)
  /\ headerDate "2025年1月5日" = Some "2025-01-05"%string.
Proof.
  split; [vm_compute; reflexivity|].
  rewrite (headerDate_normalises "2025年1月5日" "2025" "1" "5" 2025 1 5);
    [reflexivity|vm_compute; reflexivity|vm_compute; reflexivity|vm_compute; reflexivity
    |vm_compute; reflexivity|lia|vm_compute; split; discriminate].
Defined.

(** * Validation: what it looks at *)

(** X25: validation looks at the header and at the first three data rows
    only: two files whose first four lines agree get the same verdict and
    the same messages, whatever follows. *)
Theorem validation_reads_four_lines csvContent csvContent' top rest rest' :
  length top = 4%nat ->
  split "010" (trim csvContent) = top ++ rest ->
  split "010" (trim csvContent') = top ++ rest' ->
  validatePascalCsv csvContent = validatePascalCsv csvContent'.
Proof.
  intros Hlen Hs Hs'. unfold validatePascalCsv. rewrite Hs, Hs'.
  destruct top as [|header [|r1 [|r2 [|r3 [|r4 top]]]]]; try discriminate Hlen.
  reflexivity.
Qed.

Lemma validation_reads_four_lines_witness :
  let top := String.app "Pascal ID,キーワード,2025/1/1"
               (String "010" (String.app "1,a,5"
               (String "010" (String.app "2,b,6" (String "010" "3,c,7"))))) in
  validatePascalCsv (String.app top (String "010" "4"))
  = validatePascalCsv (String.app top (String "010" "junk,,,,"))
  /\ isValid (validatePascalCsv (String.app top (String "010" "4"))) = true.
Proof.
  cbv zeta. split; [|vm_compute; reflexivity].
  apply (validation_reads_four_lines _ _
           ["Pascal ID,キーワード,2025/1/1"; "1,a,5"; "2,b,6"; "3,c,7"]%string
           ["4"%string] ["junk,,,,"%string]);
    [reflexivity|vm_compute; reflexivity|vm_compute; reflexivity].
Defined.

(** * The date cells of a row *)







